(** * The ClickHouse / flat-file ingestion server, embedded and verified

    The backend is one Express application.  The repository holds two
    files of it; the one embedded first is the one with
    [connectionConfig], [ensureConnection] and [path.basename]; the
    handlers of the other are embedded after it, with [Earlier] in their
    names.  The server keeps two module-level variables, [client] and
    [connectionConfig], and exposes the handlers [/connect], [/tables],
    [/columns/:table], [/preview], [/upload], [/ingest] and
    [/download/:filename].

    The embedding is shallow: every handler is a function from a world
    (the two module variables, the database, the disk and the log of
    every I/O action issued so far) to a response and a new world.  What
    the database, the ClickHouse client library and the CSV parser answer
    is a parameter ([Env]); what the server does with the answers is
    translated from the source.  A computation returns, throws an error
    that a [catch] can take, or ends the process with an error nobody
    listens for; a request that ends the process gets no response. *)

From Stdlib Require Import String Ascii List Bool Arith Lia ZArith DecimalString.
From Stdlib Require Import Permutation Sorted.
Import ListNotations.

Local Open Scope list_scope.
Local Open Scope string_scope.

(** ** JavaScript string operations used by the server *)

Module JS.

(** [function startsWith(str, prefix) { return str.slice(0, prefix.length) === prefix; }] *)
Definition startsWith (str prefix : string) : bool :=
  String.eqb (substring 0 (String.length prefix) str) prefix.

Fixpoint drop (n : nat) (s : string) : string :=
  match n, s with
  | O, _ => s
  | S _, EmptyString => EmptyString
  | S n', String _ s' => drop n' s'
  end.

(** [s.replace(pat, "")] with a string pattern: the first occurrence of
    [pat] in [s], if any, is removed. *)
Fixpoint removeFirst (pat s : string) : string :=
  if String.prefix pat s then drop (String.length pat) s
  else match s with
       | EmptyString => EmptyString
       | String c s' => String c (removeFirst pat s')
       end.

(** [s.replace(/'/g, "''")]: every single quote is doubled. *)
Fixpoint doubleQuotes (s : string) : string :=
  match s with
  | EmptyString => EmptyString
  | String c s' =>
      if Ascii.eqb c "'"%char then String c (String c (doubleQuotes s'))
      else String c (doubleQuotes s')
  end.

(** A string is the sequence of the bytes of its UTF-8 form.  The white
    space and line terminators that [trim()] removes, each as its bytes:
    U+0009 to U+000D, U+0020, U+00A0, U+1680, U+2000 to U+200A, U+2028,
    U+2029, U+202F, U+205F, U+3000 and U+FEFF. *)
Definition whiteSpace : list (list ascii) :=
  map (map ascii_of_nat)
    [ [9]; [10]; [11]; [12]; [13]; [32]; [194; 160]; [225; 154; 128];
      [226; 128; 128]; [226; 128; 129]; [226; 128; 130]; [226; 128; 131];
      [226; 128; 132]; [226; 128; 133]; [226; 128; 134]; [226; 128; 135];
      [226; 128; 136]; [226; 128; 137]; [226; 128; 138];
      [226; 128; 168]; [226; 128; 169]; [226; 128; 175]; [226; 129; 159];
      [227; 128; 128]; [239; 187; 191] ].

(** [l] without its prefix [w], when it starts with [w]. *)
Fixpoint dropPrefix (w l : list ascii) : option (list ascii) :=
  match w, l with
  | [], _ => Some l
  | c :: w', d :: l' => if Ascii.eqb c d then dropPrefix w' l' else None
  | _ :: _, [] => None
  end.

Fixpoint dropAny (ws : list (list ascii)) (l : list ascii) : option (list ascii) :=
  match ws with
  | [] => None
  | w :: ws' =>
      match dropPrefix w l with
      | Some rest => Some rest
      | None => dropAny ws' l
      end
  end.

(** [l] without the members of [ws] it starts with; [fuel] bounds their
    number. *)
Fixpoint strip (fuel : nat) (ws : list (list ascii)) (l : list ascii) : list ascii :=
  match fuel with
  | O => l
  | S fuel' =>
      match dropAny ws l with
      | Some rest => strip fuel' ws rest
      | None => l
      end
  end.

Definition trimStart (s : string) : string :=
  string_of_list_ascii (strip (String.length s) whiteSpace (list_ascii_of_string s)).

Definition trimEnd (s : string) : string :=
  string_of_list_ascii
    (rev (strip (String.length s) (map (@rev ascii) whiteSpace)
            (rev (list_ascii_of_string s)))).

Definition trim (s : string) : string := trimEnd (trimStart s).

(** [arr.join(sep)] on an array of strings. *)
Definition join (sep : string) (arr : list string) : string :=
  String.concat sep arr.

(** [String(n)] for a non-negative integer such as [rows.length]. *)
Definition ofNat (n : nat) : string :=
  NilZero.string_of_uint (Nat.to_uint n).

(** [String(z)] for an integer. *)
Definition ofZ (z : Z) : string :=
  NilZero.string_of_int (Z.to_int z).

(** Truthiness of an optional string: [undefined] and the empty string
    are falsy. *)
Definition truthy (o : option string) : bool :=
  match o with
  | None => false
  | Some s => negb (String.eqb s EmptyString)
  end.

(** [o || dflt] for an optional string. *)
Definition orElse (o : option string) (dflt : string) : string :=
  match o with
  | Some s => if String.eqb s EmptyString then dflt else s
  | None => dflt
  end.

Definition isDigit (c : ascii) : bool :=
  let n := nat_of_ascii c in Nat.leb 48 n && Nat.leb n 57.

Fixpoint digitsValue (acc : N) (s : string) : option N :=
  match s with
  | EmptyString => Some acc
  | String c s' =>
      if isDigit c
      then digitsValue (acc * 10 + N.of_nat (nat_of_ascii c - 48))%N s'
      else None
  end.

(** A property key that is an array index: the decimal form, without a
    leading zero, of an integer from 0 to 2^32 - 2. *)
Definition arrayIndex (k : string) : option N :=
  match k with
  | EmptyString => None
  | String c rest =>
      if Ascii.eqb c "0"%char && negb (String.eqb rest EmptyString) then None
      else
        match digitsValue 0 k with
        | Some n => if N.leb n 4294967294%N then Some n else None
        | None => None
        end
  end.

Definition isIndexKey (k : string) : bool :=
  match arrayIndex k with
  | Some _ => true
  | None => false
  end.

(** What a plain object (an object literal, an object made by
    [JSON.parse]) inherits from [Object.prototype]: built-in functions,
    each with its [name] and its [length], and under [__proto__] the
    prototype object itself. *)
Inductive ProtoMember :=
| ProtoFunction (name : string) (length : nat)
| ProtoObject.

Definition objectPrototype : list (string * ProtoMember) :=
  [ ("constructor", ProtoFunction "Object" 1);
    ("__defineGetter__", ProtoFunction "__defineGetter__" 2);
    ("__defineSetter__", ProtoFunction "__defineSetter__" 2);
    ("hasOwnProperty", ProtoFunction "hasOwnProperty" 1);
    ("__lookupGetter__", ProtoFunction "__lookupGetter__" 1);
    ("__lookupSetter__", ProtoFunction "__lookupSetter__" 1);
    ("isPrototypeOf", ProtoFunction "isPrototypeOf" 1);
    ("propertyIsEnumerable", ProtoFunction "propertyIsEnumerable" 1);
    ("toString", ProtoFunction "toString" 0);
    ("valueOf", ProtoFunction "valueOf" 0);
    ("__proto__", ProtoObject);
    ("toLocaleString", ProtoFunction "toLocaleString" 0) ].

Fixpoint inherited (members : list (string * ProtoMember)) (k : string)
  : option ProtoMember :=
  match members with
  | [] => None
  | (k', m) :: rest => if String.eqb k' k then Some m else inherited rest k
  end.

(** [String(m)] for an inherited member, as Node prints it. *)
Definition protoText (m : ProtoMember) : string :=
  match m with
  | ProtoFunction name _ => "function " ++ name ++ "() { [native code] }"
  | ProtoObject => "[object Object]"
  end.

End JS.

(** ** Node's [path] module (POSIX flavour) *)

Module Path.

Definition isSep (c : ascii) : bool := Ascii.eqb c "/"%char.

Fixpoint dropWhile (p : ascii -> bool) (l : list ascii) : list ascii :=
  match l with
  | [] => []
  | c :: l' => if p c then dropWhile p l' else l
  end.

Fixpoint takeWhile (p : ascii -> bool) (l : list ascii) : list ascii :=
  match l with
  | [] => []
  | c :: l' => if p c then c :: takeWhile p l' else []
  end.

(** [path.basename(p)]: scanning from the end, trailing separators are
    skipped, then the characters up to the previous separator are the
    result. *)
Definition basename (p : string) : string :=
  string_of_list_ascii
    (rev (takeWhile (fun c => negb (isSep c))
            (dropWhile isSep (rev (list_ascii_of_string p))))).

(** The segments of a path between separators. *)
Fixpoint segments (cur : string) (s : string) : list string :=
  match s with
  | EmptyString => [cur]
  | String c s' =>
      if isSep c then cur :: segments EmptyString s'
      else segments (cur ++ String c EmptyString) s'
  end.

(** [normalizeString]: empty and [.] segments vanish, [..] removes the
    segment before it; above the start it is kept for a relative path
    and dropped for an absolute one.  [acc] is the result so far, last
    segment first. *)
Fixpoint normalizeSegs (allowAboveRoot : bool) (acc : list string)
         (segs : list string) : list string :=
  match segs with
  | [] => rev acc
  | seg :: rest =>
      if String.eqb seg EmptyString || String.eqb seg "." then
        normalizeSegs allowAboveRoot acc rest
      else if String.eqb seg ".." then
        match acc with
        | last :: acc' =>
            if String.eqb last ".." then normalizeSegs allowAboveRoot (seg :: acc) rest
            else normalizeSegs allowAboveRoot acc' rest
        | [] =>
            if allowAboveRoot then normalizeSegs allowAboveRoot [seg] rest
            else normalizeSegs allowAboveRoot [] rest
        end
      else normalizeSegs allowAboveRoot (seg :: acc) rest
  end.

Definition endsWithSep (p : string) : bool :=
  match rev (list_ascii_of_string p) with
  | c :: _ => isSep c
  | [] => false
  end.

(** [path.normalize(p)]. *)
Definition normalize (p : string) : string :=
  match p with
  | EmptyString => "."
  | String c _ =>
      let isAbsolute := isSep c in
      let trailing := endsWithSep p in
      let body := JS.join "/" (normalizeSegs (negb isAbsolute) [] (segments EmptyString p)) in
      match body with
      | EmptyString =>
          if isAbsolute then "/" else if trailing then "./" else "."
      | _ =>
          let body' := if trailing then body ++ "/" else body in
          if isAbsolute then "/" ++ body' else body'
      end
  end.

(** [path.join(...parts)]: the non-empty parts are joined with the
    separator and the result is normalised. *)
Definition join (parts : list string) : string :=
  normalize (JS.join "/" (filter (fun s => negb (String.eqb s EmptyString)) parts)).

(** [p] names an entry strictly below directory [dir]. *)
Definition inside (dir p : string) : bool :=
  String.prefix (dir ++ "/") p && negb (String.eqb p (dir ++ "/")).

(** [path.dirname(p)]: scanning from the end down to the second
    character, trailing separators and then the last segment are skipped;
    the result is what comes before the separator found there. *)
Definition dirname (p : string) : string :=
  match p with
  | EmptyString => "."
  | String c0 rest =>
      let hasRoot := isSep c0 in
      match dropWhile (fun c => negb (isSep c))
              (dropWhile isSep (rev (list_ascii_of_string rest))) with
      | [] => if hasRoot then "/" else "."
      | _ :: before =>
          match before with
          | [] => if hasRoot then "//" else String c0 EmptyString
          | _ => String c0 (string_of_list_ascii (rev before))
          end
      end
  end.

(** A segment that starts with a dot and is longer than the dot. *)
Definition isDotFile (segment : string) : bool :=
  match segment with
  | String c (String _ _) => Ascii.eqb c "."%char
  | _ => false
  end.

(** Whether a segment of [p] is such a dot file. *)
Definition containsDotFile (p : string) : bool :=
  existsb isDotFile (segments EmptyString p).

Definition startsWithDot (segment : string) : bool :=
  match segment with
  | String c _ => Ascii.eqb c "."%char
  | EmptyString => false
  end.

End Path.

(** ** Data model *)

(** The object handed to [createClient] and kept in [connectionConfig]. *)
Record ConnectionConfig := {
  url : string;
  username : string;
  password : string;
  database : string
}.

(** The client object [createClient] returns: a handle bound to the
    configuration it was created from. *)
Record Client := { boundTo : ConnectionConfig }.

(** A JSON scalar of a [JSONEachRow] result.  A number is an integer
    that JavaScript holds exactly and prints in full (below 2^53 in
    absolute value); other numbers are not modelled. *)
Inductive JsonValue :=
| JNull
| JBool (b : bool)
| JNum (z : Z)
| JStr (s : string).

(** A plain object is the list of its own properties in the order they
    were created, each key once. *)

(** A result row, as [JSON.parse] makes it. *)
Definition Row := list (string * JsonValue).

(** A record produced by the CSV parser: every value is a string. *)
Definition CsvRecord := list (string * string).

(** The property with array index [n] put in its place among properties
    with ascending indices. *)
Fixpoint insertIndexed {V : Type} (n : N) (kv : string * V)
         (sorted : list (N * (string * V))) : list (N * (string * V)) :=
  match sorted with
  | [] => [(n, kv)]
  | (m, kv') :: rest =>
      if N.ltb n m then (n, kv) :: sorted
      else (m, kv') :: insertIndexed n kv rest
  end.

(** The properties whose key is an array index, in ascending order of
    the index. *)
Fixpoint indexed {V : Type} (o : list (string * V)) : list (N * (string * V)) :=
  match o with
  | [] => []
  | (k, v) :: o' =>
      match JS.arrayIndex k with
      | Some n => insertIndexed n (k, v) (indexed o')
      | None => indexed o'
      end
  end.

(** The own properties in the order [Object.keys], [Object.values] and
    [for ... in] list them: first those whose key is an array index, in
    ascending order of the index, then the others in the order they were
    created. *)
Definition entries {V : Type} (o : list (string * V)) : list (string * V) :=
  map snd (indexed o) ++ filter (fun kv => negb (JS.isIndexKey (fst kv))) o.

(** [Object.keys(o)] and [Object.values(o)]. *)
Definition keys {V : Type} (o : list (string * V)) : list string := map fst (entries o).
Definition values {V : Type} (o : list (string * V)) : list V := map snd (entries o).

(** [o[k]] for a key that [o] has or that no object inherits: [None]
    stands for [undefined]. *)
Fixpoint getProp {V : Type} (o : list (string * V)) (k : string) : option V :=
  match o with
  | [] => None
  | (k', v) :: o' => if String.eqb k' k then Some v else getProp o' k
  end.

(** What [o[k]] evaluates to for any key: the own property, or else what
    [Object.prototype] has under that key, or else [undefined]. *)
Inductive Looked (V : Type) :=
| Own (v : V)
| Inherited (m : JS.ProtoMember)
| Undefined.

Arguments Own {V}.
Arguments Inherited {V}.
Arguments Undefined {V}.

Definition lookup {V : Type} (o : list (string * V)) (k : string) : Looked V :=
  match getProp o k with
  | Some v => Own v
  | None =>
      match JS.inherited JS.objectPrototype k with
      | Some m => Inherited m
      | None => Undefined
      end
  end.

(** The object without its property [k]. *)
Definition deleteProp {V : Type} (k : string) (o : list (string * V)) : list (string * V) :=
  filter (fun kv => negb (String.eqb (fst kv) k)) o.

(** The [message] of a JavaScript [Error]. *)
Definition Error := string.

(** Body of [POST /connect]. *)
Module ConnectBody.
Record t := {
  host : string;
  port : string;
  database : string;
  username : string;
  password : string
}.
End ConnectBody.

(** Body of [POST /ingest]: [tables] is taken to be an array of strings
    and [columns] an object whose values are arrays of strings; of the
    other fields the absent ones are [None]. *)
Module IngestBody.
Record t := {
  source : string;
  target : string;
  tables : list string;
  columns : list (string * list string);
  filePath : option string;
  targetFile : option string;
  targetTable : option string;
  delimiter : option string
}.
End IngestBody.

(** What the two transfer functions return. *)
Record TransferResult := {
  recordCount : nat;
  message : string;
  filePath : option string
}.

(** What a response carries: the JSON bodies the handlers send, the
    file [res.download] sends, the two pages Express itself answers with
    (no route took the request; an error reached its own error handler),
    and, for a request that is never answered, the error the process
    ended on. *)
Inductive Json :=
| ConnectOk (message : string)
| ConnectFailed (message error : string)
| ErrorBody (error : string)
| ErrorMessage (error message : string)
| NamesBody (names : list (option JsonValue))
| RowsBody (rows : list Row)
| UploadOk (filename originalName path : string) (size : nat)
| IngestOk (records : nat) (message : string) (filePath : option string)
| SendFile (path : string)
| CannotGet
| ErrorPage (error : string)
| ProcessDied (error : string).

Record Response := { status : nat; body : Json }.

(** The local disk, as far as the server looks at it. *)
Record Disk := {
  dirs : list string;
  files : list (string * string)
}.

(** Every action that leaves the process, in the order issued. *)
Inductive Event :=
| CreateClient (cfg : ConnectionConfig)
| Query (c : Client) (sql : string)
| Exec (c : Client) (sql : string)
| ReadStream (path : string)
| ExistsSync (path : string)
| MkdirSync (path : string)
| WriteFile (path content : string).

Definition isStatement (e : Event) : bool :=
  match e with
  | Query _ _ | Exec _ _ => true
  | _ => false
  end.

Definition isFileEvent (e : Event) : bool :=
  match e with
  | ReadStream _ | ExistsSync _ | MkdirSync _ | WriteFile _ _ => true
  | _ => false
  end.

(** The liveness statement. *)
Definition liveness : string := "SELECT 1".

Definition isLivenessQuery (e : Event) : bool :=
  match e with
  | Query _ sql => String.eqb sql liveness
  | _ => false
  end.

(** ** The [csv-writer] library, as used through [createObjectCsvWriter]
    with its defaults (field delimiter [,], record delimiter line feed,
    no append) *)

Module CsvWriter.

Record HeaderField := { id : string; title : string }.

Definition lf : string := String (ascii_of_nat 10) EmptyString.
Definition cr : string := String (ascii_of_nat 13) EmptyString.
Definition dquote : ascii := ascii_of_nat 34.

Fixpoint includes (sub s : string) : bool :=
  String.prefix sub s ||
  match s with
  | EmptyString => false
  | String _ s' => includes sub s'
  end.

Fixpoint escapeQuotes (s : string) : string :=
  match s with
  | EmptyString => EmptyString
  | String c s' =>
      if Ascii.eqb c dquote then String c (String c (escapeQuotes s'))
      else String c (escapeQuotes s')
  end.

Definition needsQuote (str : string) : bool :=
  includes "," str || includes cr str || includes lf str
  || includes (String dquote EmptyString) str.

Definition quoteField (field : string) : string :=
  if needsQuote field
  then String dquote (escapeQuotes field ++ String dquote EmptyString)
  else field.

(** [String(value)] for a scalar. *)
Definition toString (v : JsonValue) : string :=
  match v with
  | JNull => "null"
  | JBool true => "true"
  | JBool false => "false"
  | JNum z => JS.ofZ z
  | JStr s => s
  end.

(** [stringify(value)]: [undefined], [null] and the empty string give
    the empty field. *)
Definition stringify (v : option JsonValue) : string :=
  match v with
  | None | Some JNull => EmptyString
  | Some v => quoteField (toString v)
  end.

Definition getCsvLine (fields : list string) : string := JS.join "," fields.

Definition joinRecords (lines : list string) : string :=
  JS.join lf lines ++ lf.

(** The cell made of [record[id]]: an inherited member is neither
    [undefined] nor [null], so it is printed. *)
Definition cell (v : Looked JsonValue) : string :=
  match v with
  | Own v => stringify (Some v)
  | Inherited m => quoteField (JS.protoText m)
  | Undefined => stringify None
  end.

(** The cells of one record: one per header field, [record[field.id]]. *)
Definition getRecordAsArray (header : list HeaderField) (record : Row) : list string :=
  map (fun f => cell (lookup record (id f))) header.

(** The header line; none when the header has no field. *)
Definition getHeaderString (header : list HeaderField) : string :=
  match header with
  | [] => EmptyString
  | _ => joinRecords [getCsvLine (map (fun f => quoteField (title f)) header)]
  end.

Definition stringifyRecords (header : list HeaderField) (records : list Row) : string :=
  joinRecords (map (fun r => getCsvLine (getRecordAsArray header r)) records).

(** What [writeRecords(records)] writes to a fresh file. *)
Definition fileContent (header : list HeaderField) (records : list Row) : string :=
  getHeaderString header ++ stringifyRecords header records.

End CsvWriter.

(** ** The environment and the world *)

(** How the pipeline [fs.createReadStream(path).pipe(csv(...))] fails:
    the read stream cannot open or read the file, or the parser gives up
    on what it reads. *)
Inductive StreamError :=
| ReadError (e : Error)
| ParserError (e : Error).

(** What the outside answers.  [D] is the state of the database. *)
Record Env (D : Type) := {
  (** [__dirname] of the server file. *)
  server_dirname : string;
  (** [createClient(cfg)] throws this error, if any. *)
  createClientThrows : ConnectionConfig -> option Error;
  (** [client.query({query, format: "JSONEachRow"})] followed by [.json()]. *)
  dbQuery : Client -> string -> D -> (Error + list Row) * D;
  (** [client.exec({query})]: the error it rejects with, if any. *)
  dbExec : Client -> string -> D -> option Error * D;
  (** [fs.createReadStream(path).pipe(csv({separator}))]: the records
      the parser emitted until its [end], or the error of the stream that
      failed. *)
  parseCsv : string -> string -> Disk -> StreamError + list CsvRecord;
  (** Which [send] serves the files for Express: from its version 1 (with
      Express 5) a dot file in any segment of the path counts; before
      (with Express 4), when no [dotfiles] option is given, the path must
      have one and only the last segment decides. *)
  dotfilesEverySegment : bool
}.

Arguments server_dirname {D}.
Arguments createClientThrows {D}.
Arguments dbQuery {D}.
Arguments dbExec {D}.
Arguments parseCsv {D}.
Arguments dotfilesEverySegment {D}.

(** The two module variables, the database, the disk and the log. *)
Record World (D : Type) := {
  client : option Client;
  connectionConfig : option ConnectionConfig;
  db : D;
  disk : Disk;
  log : list Event
}.

Arguments client {D}.
Arguments connectionConfig {D}.
Arguments db {D}.
Arguments disk {D}.
Arguments log {D}.

(** How a computation ends: it returns, it throws (or its promise is
    rejected), or an error is raised where nothing catches it (an [error]
    event without a listener, a throw inside a callback of a library) and
    the process ends. *)
Inductive Outcome (A : Type) :=
| Returned (a : A)
| Thrown (e : Error)
| Died (e : Error).

Arguments Returned {A}.
Arguments Thrown {A}.
Arguments Died {A}.

(** ** The server *)

Section Server.

Context {D : Type} (env : Env D).

(** A computation: it reads and changes the world, and returns or throws. *)
Definition M (A : Type) : Type := World D -> Outcome A * World D.

(** A request handler: the response, and the world afterwards. *)
Definition Handler : Type := World D -> Response * World D.

Definition ret {A : Type} (a : A) : M A := fun w => (Returned a, w).

Definition throw {A : Type} (e : Error) : M A := fun w => (Thrown e, w).

Definition bind {A B : Type} (m : M A) (k : A -> M B) : M B :=
  fun w =>
    match m w with
    | (Returned a, w') => k a w'
    | (Thrown e, w') => (Thrown e, w')
    | (Died e, w') => (Died e, w')
    end.

(** [try { m } catch (err) { h err }]. *)
Definition tryCatch {A : Type} (m : M A) (h : Error -> M A) : M A :=
  fun w =>
    match m w with
    | (Returned a, w') => (Returned a, w')
    | (Thrown e, w') => h e w'
    | (Died e, w') => (Died e, w')
    end.

Notation "x <- m ;; k" := (bind m (fun x => k))
  (at level 61, m at next level, right associativity).
Notation "m ;; k" := (bind m (fun _ => k))
  (at level 61, right associativity).

Definition emit (e : Event) (w : World D) : World D :=
  {| client := client w; connectionConfig := connectionConfig w;
     db := db w; disk := disk w; log := log w ++ [e] |}.

Definition setClient (c : option Client) : M unit :=
  fun w =>
    (Returned tt,
     {| client := c; connectionConfig := connectionConfig w;
        db := db w; disk := disk w; log := log w |}).

Definition setConnectionConfig (cfg : option ConnectionConfig) : M unit :=
  fun w =>
    (Returned tt,
     {| client := client w; connectionConfig := cfg;
        db := db w; disk := disk w; log := log w |}).

Definition setDb (d : D) (w : World D) : World D :=
  {| client := client w; connectionConfig := connectionConfig w;
     db := d; disk := disk w; log := log w |}.

Definition setDisk (k : Disk) (w : World D) : World D :=
  {| client := client w; connectionConfig := connectionConfig w;
     db := db w; disk := k; log := log w |}.

(** *** The client library *)

Definition createClient (cfg : ConnectionConfig) : M Client :=
  fun w =>
    match createClientThrows env cfg with
    | Some e => (Thrown e, emit (CreateClient cfg) w)
    | None => (Returned {| boundTo := cfg |}, emit (CreateClient cfg) w)
    end.

(** What calling a method on the [client] that was never assigned
    throws.  (Only the handlers of the file without [ensureConnection]
    can do that; there [client] is never [null].) *)
Definition nullClient (method : string) : Error :=
  "Cannot read properties of undefined (reading '" ++ method ++ "')".

(** [await client.query({query: sql, format: "JSONEachRow"})] and [.json()]
    on the module variable [client]. *)
Definition clientQuery (sql : string) : M (list Row) :=
  fun w =>
    match client w with
    | None => (Thrown (nullClient "query"), w)
    | Some c =>
        let (r, d) := dbQuery env c sql (db w) in
        let w' := emit (Query c sql) (setDb d w) in
        match r with
        | inl e => (Thrown e, w')
        | inr rows => (Returned rows, w')
        end
    end.

(** [client.query({query: sql, format: "JSONEachRow"})] without [await]:
    the statement is sent, the promise is dropped and what the store
    answers is never looked at.  What the runtime does later with a
    dropped promise that the store rejects happens after the caller has
    gone on, and is not part of the model. *)
Definition clientQueryUnawaited (sql : string) : M unit :=
  fun w =>
    match client w with
    | None => (Thrown (nullClient "query"), w)
    | Some c =>
        let (_, d) := dbQuery env c sql (db w) in
        (Returned tt, emit (Query c sql) (setDb d w))
    end.

(** [await client.exec({query: sql})] on the module variable [client]. *)
Definition clientExec (sql : string) : M unit :=
  fun w =>
    match client w with
    | None => (Thrown (nullClient "exec"), w)
    | Some c =>
        let (r, d) := dbExec env c sql (db w) in
        let w' := emit (Exec c sql) (setDb d w) in
        match r with
        | Some e => (Thrown e, w')
        | None => (Returned tt, w')
        end
    end.

(** *** The file system *)

Definition isDir (k : Disk) (p : string) : bool := existsb (String.eqb p) (dirs k).

Definition isFile (k : Disk) (p : string) : bool :=
  existsb (fun f => String.eqb p (fst f)) (files k).

Definition existsSync (p : string) : M bool :=
  fun w => (Returned (isDir (disk w) p || isFile (disk w) p), emit (ExistsSync p) w).

(** Why an entry cannot be made at [p]: the directory that is to hold it
    is a file, or is not there. *)
Definition parentMissing (k : Disk) (syscall p : string) : option Error :=
  let parent := Path.dirname p in
  if isDir k parent then None
  else if isFile k parent then
    Some ("ENOTDIR: not a directory, " ++ syscall ++ " '" ++ p ++ "'")
  else
    Some ("ENOENT: no such file or directory, " ++ syscall ++ " '" ++ p ++ "'").

(** [fs.mkdirSync(p)], not recursive: [p] must not exist and the
    directory above it must. *)
Definition mkdirSync (p : string) : M unit :=
  fun w =>
    let k := disk w in
    if isDir k p || isFile k p then
      (Thrown ("EEXIST: file already exists, mkdir '" ++ p ++ "'"), emit (MkdirSync p) w)
    else
      match parentMissing k "mkdir" p with
      | Some e => (Thrown e, emit (MkdirSync p) w)
      | None =>
          (Returned tt,
           emit (MkdirSync p) (setDisk {| dirs := p :: dirs k; files := files k |} w))
      end.

(** Opening a file for writing (flag [w]) and writing [content]: a
    directory cannot be opened, the directory that holds the file must be
    there, an existing file is replaced. *)
Definition writeFile (p content : string) : M unit :=
  fun w =>
    let k := disk w in
    if isDir k p then
      (Thrown ("EISDIR: illegal operation on a directory, open '" ++ p ++ "'"),
       emit (WriteFile p content) w)
    else
      match parentMissing k "open" p with
      | Some e => (Thrown e, emit (WriteFile p content) w)
      | None =>
          (Returned tt,
           emit (WriteFile p content)
             (setDisk {| dirs := dirs k;
                         files := (p, content)
                                  :: filter (fun f => negb (String.eqb p (fst f)))
                                       (files k) |} w))
      end.

(** [createObjectCsvWriter({path, header}).writeRecords(records)]. *)
Definition writeRecords (path : string) (header : list CsvWriter.HeaderField)
           (records : list Row) : M unit :=
  writeFile path (CsvWriter.fileContent header records).

(** Lines 273-276 and 317-319: the records of the file at [path], parsed
    with [separator].  The [error] listener is on the parser that
    [pipe] returns, so an error of the parser rejects the promise; the
    read stream has no listener, so its error ends the process. *)
Definition readRecords (path separator : string) : M (list CsvRecord) :=
  fun w =>
    match parseCsv env separator path (disk w) with
    | inl (ParserError e) => (Thrown e, emit (ReadStream path) w)
    | inl (ReadError e) => (Died e, emit (ReadStream path) w)
    | inr rows => (Returned rows, emit (ReadStream path) w)
    end.

(** *** [POST /connect] *)

Definition json (code : nat) (b : Json) : Response := {| status := code; body := b |}.

(** No response: the process ended on [e] before the request was
    answered.  (The status 0 stands for the absence of one.) *)
Definition noAnswer (e : Error) : Response := {| status := 0; body := ProcessDied e |}.

(** Lines 53-56: the host, trimmed, and without its scheme. *)
Definition cleanHost (host : string) : string :=
  let cleanHost := JS.trim host in
  if JS.startsWith cleanHost "https://" || JS.startsWith cleanHost "http://"
  then JS.removeFirst "http://" (JS.removeFirst "https://" cleanHost)
  else cleanHost.

(** Lines 60-65: the configuration built from the request. *)
Definition configOf (b : ConnectBody.t) : ConnectionConfig :=
  {| url := "https://" ++ cleanHost (ConnectBody.host b) ++ ":" ++ ConnectBody.port b;
     username := ConnectBody.username b;
     password := ConnectBody.password b;
     database := ConnectBody.database b |}.

Definition connect (b : ConnectBody.t) : Handler :=
  fun w =>
    let attempt : M Response :=
      setConnectionConfig (Some (configOf b)) ;;
      c <- createClient (configOf b) ;;
      setClient (Some c) ;;
      _ <- clientQuery liveness ;;
      ret (json 200 (ConnectOk "Connected to ClickHouse")) in
    let handler (err : Error) : M Response :=
      setClient None ;;
      ret (json 500 (ConnectFailed "Failed to connect" err)) in
    match tryCatch attempt handler w with
    | (Returned r, w') => (r, w')
    | (Thrown e, w') => (json 500 (ErrorBody e), w')
    | (Died e, w') => (noAnswer e, w')
    end.

(** The same handler in the other server file, which has no
    [connectionConfig]: the client is created from the same object, and
    [client] is not cleared when the attempt fails. *)
Definition connectEarlier (b : ConnectBody.t) : Handler :=
  fun w =>
    let attempt : M Response :=
      c <- createClient (configOf b) ;;
      setClient (Some c) ;;
      _ <- clientQuery liveness ;;
      ret (json 200 (ConnectOk "Connected to ClickHouse")) in
    let handler (err : Error) : M Response :=
      ret (json 500 (ConnectFailed "Failed to connect" err)) in
    match tryCatch attempt handler w with
    | (Returned r, w') => (r, w')
    | (Thrown e, w') => (json 500 (ErrorBody e), w')
    | (Died e, w') => (noAnswer e, w')
    end.

(** *** [ensureConnection] *)

(** What line 96 throws: [client.query(...)] is a promise, and a promise
    has no [json]. *)
Definition jsonOfPromise : Error := "client.query(...).json is not a function".

(** Lines 90-110.  In the reconnection branch [await] applies to
    [client.query({...}).json()] as a whole: the query is sent, [.json()]
    is called on the promise that [query] returns and throws, and the
    [catch] clears [client] and returns [false]; the [return true] of the
    branch is never reached. *)
Definition ensureConnection : World D -> bool * World D :=
  fun w =>
    match client w, connectionConfig w with
    | None, Some cfg =>
        let attempt : M bool :=
          c <- createClient cfg ;;
          setClient (Some c) ;;
          clientQueryUnawaited liveness ;;
          (throw jsonOfPromise : M unit) ;;
          ret true in
        let handler (err : Error) : M bool :=
          setClient None ;;
          ret false in
        match tryCatch attempt handler w with
        | (Returned ok, w') => (ok, w')
        | (Thrown _, w') => (false, w')
        | (Died _, w') => (false, w')
        end
    | Some _, _ => (true, w)
    | None, None => (false, w)
    end.

(** [await ensureConnection()] inside a computation. *)
Definition ensure : M bool :=
  fun w => let (ok, w') := ensureConnection w in (Returned ok, w').

(** *** [GET /tables] and [GET /columns/:table] *)

(** [rows.map((row) => row.name)]. *)
Definition namesOf (rows : list Row) : list (option JsonValue) :=
  map (fun row => getProp row "name") rows.

Definition tables : Handler :=
  fun w =>
    let (ok, w1) := ensureConnection w in
    if negb ok then (json 400 (ErrorBody "Not connected to ClickHouse"), w1)
    else
      match clientQuery "SHOW TABLES" w1 with
      | (Returned rows, w2) => (json 200 (NamesBody (namesOf rows)), w2)
      | (Thrown _, w2) => (json 500 (ErrorBody "Failed to fetch tables"), w2)
      | (Died e, w2) => (noAnswer e, w2)
      end.

Definition columnsOf (table : string) : Handler :=
  fun w =>
    let (ok, w1) := ensureConnection w in
    if negb ok then (json 400 (ErrorBody "Not connected to ClickHouse"), w1)
    else
      match clientQuery ("DESCRIBE TABLE " ++ table) w1 with
      | (Returned rows, w2) => (json 200 (NamesBody (namesOf rows)), w2)
      | (Thrown _, w2) =>
          (json 500 (ErrorBody ("Failed to fetch columns for " ++ table)), w2)
      | (Died e, w2) => (noAnswer e, w2)
      end.

(** *** [POST /preview] *)

(** [cols.length > 0 ? cols.join(", ") : "*"]. *)
Definition projection (cols : list string) : string :=
  match cols with
  | [] => "*"
  | _ => JS.join ", " cols
  end.

Definition previewQuery (table : string) (cols : list string) : string :=
  "SELECT " ++ projection cols ++ " FROM " ++ table ++ " LIMIT 100".

Definition preview (table : string) (cols : list string) : Handler :=
  fun w =>
    let (ok, w1) := ensureConnection w in
    if negb ok then (json 400 (ErrorBody "Not connected to ClickHouse"), w1)
    else
      match clientQuery (previewQuery table cols) w1 with
      | (Returned rows, w2) => (json 200 (RowsBody rows), w2)
      | (Thrown _, w2) => (json 500 (ErrorBody "Failed to fetch preview"), w2)
      | (Died e, w2) => (noAnswer e, w2)
      end.

(** *** [POST /upload] *)

Definition uploadsDir : string := Path.join [server_dirname env; "uploads"].

(** A throw inside a callback the upload middleware calls: nothing
    catches it. *)
Definition uncaught {A : Type} (m : M A) : M A :=
  fun w =>
    match m w with
    | (Thrown e, w') => (Died e, w')
    | r => r
    end.

(** The disk storage of the upload middleware and the handler after it.
    [now] is [Date.now()]; [file] is the multipart field [file], its
    original name (the middleware keeps the last segment of the name the
    request gives) and its content, if the request has one.  The
    [destination] callback of lines 23-29 runs first, then [filename],
    then the middleware writes the file; when the write fails the
    middleware hands the error to Express, which answers with its own
    error page. *)
Definition upload (now : nat) (file : option (string * string)) : Handler :=
  fun w =>
    match file with
    | None => (json 400 (ErrorBody "No file uploaded"), w)
    | Some (originalname, content) =>
        let filename := JS.ofNat now ++ "-" ++ originalname in
        let path := Path.join [uploadsDir; filename] in
        let stored : M Response :=
          uncaught
            (present <- existsSync uploadsDir ;;
             if negb present then mkdirSync uploadsDir else ret tt) ;;
          writeFile path content ;;
          ret (json 200 (UploadOk filename originalname path (String.length content))) in
        match stored w with
        | (Returned r, w') => (r, w')
        | (Thrown e, w') => (json 500 (ErrorPage e), w')
        | (Died e, w') => (noAnswer e, w')
        end
    end.

(** *** [clickhouseToFlatFile] *)

(** [columns[table] || []] when [columns] has the property itself or
    nothing is found under that key. *)
Definition tableColumns (columns : list (string * list string)) (table : string)
  : list string :=
  match getProp columns table with
  | Some cols => cols
  | None => []
  end.

(** What line 212 throws when [tableColumns] is a function. *)
Definition joinOfFunction : Error := "tableColumns.join is not a function".

(** Lines 211-212: [columns[table] || []], then
    [tableColumns.length > 0 ? tableColumns.join(", ") : "*"].  An array
    of the request is joined when it has an element.  When the key is not
    the object's own, [columns[table]] is what every object inherits
    under it, if anything: a function with parameters has a positive
    [length] and no [join], so the call throws; a function without
    parameters and the prototype object (whose [length] is [undefined])
    give [*]. *)
Definition columnsStr (columns : list (string * list string)) (table : string)
  : M string :=
  match lookup columns table with
  | Own cols => ret (projection cols)
  | Undefined => ret "*"
  | Inherited (JS.ProtoFunction _ (S _)) => throw joinOfFunction
  | Inherited _ => ret "*"
  end.

(** The loop over [tables]: [results] and [recordCount] are the two
    accumulators. *)
Fixpoint fetchTables (tables : list string) (columns : list (string * list string))
         (results : list Row) (recordCount : nat) : M (list Row * nat) :=
  match tables with
  | [] => ret (results, recordCount)
  | table :: rest =>
      str <- columnsStr columns table ;;
      rows <- clientQuery ("SELECT " ++ str ++ " FROM " ++ table) ;;
      fetchTables rest columns (results ++ rows) (recordCount + List.length rows)
  end.

(** Line 244: the header is made from the keys of [results[0]]. *)
Definition headerOf (first : Row) : list CsvWriter.HeaderField :=
  map (fun key => {| CsvWriter.id := key; CsvWriter.title := key |}) (keys first).

Definition exportsDir : string := Path.join [server_dirname env; "exports"].

(** Line 241. *)
Definition safeFileName (targetFile : option string) : string :=
  Path.basename (JS.orElse targetFile "export.csv").

Definition notConnected : Error := "Not connected to ClickHouse. Please connect first.".

Definition clickhouseToFlatFile (tables : list string)
           (columns : list (string * list string))
           (targetFile : option string) (delimiter : option string)
  : M TransferResult :=
  ok <- ensure ;;
  if negb ok then throw notConnected
  else
    fetched <- fetchTables tables columns [] 0 ;;
    let (results, recordCount) := fetched in
    match results with
    | [] =>
        ret {| recordCount := 0; message := "No records found to export";
               filePath := None |}
    | first :: _ =>
        let dirPath := exportsDir in
        present <- existsSync dirPath ;;
        (if negb present then mkdirSync dirPath else ret tt) ;;
        let safeFileName := safeFileName targetFile in
        let filePath := Path.join [dirPath; safeFileName] in
        writeRecords filePath (headerOf first) results ;;
        ret {| recordCount := recordCount;
               filePath := Some safeFileName;
               message := "Successfully exported " ++ JS.ofNat recordCount
                          ++ " records to " ++ safeFileName |}
    end.

(** *** [flatFileToClickhouse] *)

Definition nl : string := String (ascii_of_nat 10) EmptyString.

Fixpoint spaces (n : nat) : string :=
  match n with
  | O => EmptyString
  | S n' => String " "%char (spaces n')
  end.

(** Line 285. *)
Definition columnDefs (columns : list string) : string :=
  JS.join ", " (map (fun col => col ++ " String") columns).

(** Lines 288-293, the template literal with its line breaks. *)
Definition createTableQuery (targetTable : string) (columns : list string) : string :=
  nl ++ spaces 14 ++ "CREATE TABLE IF NOT EXISTS " ++ targetTable ++ " ("
  ++ nl ++ spaces 16 ++ columnDefs columns
  ++ nl ++ spaces 14 ++ ") ENGINE = MergeTree()"
  ++ nl ++ spaces 14 ++ "ORDER BY tuple()"
  ++ nl ++ spaces 12.

(** Lines 298-304. *)
Definition insertQuery (targetTable : string) (row : CsvRecord) : string :=
  let columnNames := JS.join ", " (keys row) in
  let vals := JS.join ", " (map (fun val => "'" ++ JS.doubleQuotes val ++ "'") (values row)) in
  "INSERT INTO " ++ targetTable ++ " (" ++ columnNames ++ ") VALUES (" ++ vals ++ ")".

(** The loop of lines 297-306. *)
Fixpoint insertRows (targetTable : string) (rows : list CsvRecord) : M unit :=
  match rows with
  | [] => ret tt
  | row :: rest =>
      clientExec (insertQuery targetTable row) ;;
      insertRows targetTable rest
  end.

(** The default of a parameter declared [delimiter = ","]. *)
Definition delimiterOr (delimiter : option string) : string :=
  match delimiter with
  | Some d => d
  | None => ","
  end.

Definition flatFileToClickhouse (filePath targetTable : string)
           (delimiter : option string) : M TransferResult :=
  ok <- ensure ;;
  if negb ok then throw notConnected
  else
    rows <- readRecords filePath (delimiterOr delimiter) ;;
    match rows with
    | [] =>
        ret {| recordCount := 0; message := "No records found in file";
               filePath := None |}
    | first :: _ =>
        clientExec (createTableQuery targetTable (keys first)) ;;
        insertRows targetTable rows ;;
        ret {| recordCount := List.length rows;
               message := "Successfully imported " ++ JS.ofNat (List.length rows)
                          ++ " records to " ++ targetTable;
               filePath := None |}
    end.

(** *** [POST /ingest] *)

Definition notConnectedResponse : Response :=
  json 400 (ErrorMessage "Not connected to ClickHouse"
              "Please connect to ClickHouse before performing data operations").

Definition invalidCombination : Response :=
  json 400 (ErrorBody "Invalid source or target combination").

(** Lines 375-380; [result.filePath || null]. *)
Definition ingestOk (result : TransferResult) : Response :=
  json 200 (IngestOk (recordCount result) (message result)
              (if JS.truthy (filePath result) then filePath result else None)).

Definition ingest (b : IngestBody.t) : Handler :=
  fun w =>
    let source := IngestBody.source b in
    let target := IngestBody.target b in
    let attempt : M Response :=
      disconnected <-
        (if String.eqb source "clickhouse" || String.eqb target "clickhouse"
         then ok <- ensure ;; ret (negb ok)
         else ret false) ;;
      if (disconnected : bool) then ret notConnectedResponse
      else if String.eqb source "clickhouse" && String.eqb target "flatfile" then
        result <- clickhouseToFlatFile (IngestBody.tables b) (IngestBody.columns b)
                    (IngestBody.targetFile b) (IngestBody.delimiter b) ;;
        ret (ingestOk result)
      else if String.eqb source "flatfile" && String.eqb target "clickhouse" then
        if negb (JS.truthy (IngestBody.filePath b)) then
          ret (json 400 (ErrorBody "No file path provided"))
        else if negb (JS.truthy (IngestBody.targetTable b)) then
          ret (json 400 (ErrorBody "No target table specified"))
        else
          result <- flatFileToClickhouse
                      (JS.orElse (IngestBody.filePath b) EmptyString)
                      (JS.orElse (IngestBody.targetTable b) EmptyString)
                      (IngestBody.delimiter b) ;;
          ret (ingestOk result)
      else ret invalidCombination in
    match attempt w with
    | (Returned r, w') => (r, w')
    | (Thrown e, w') =>
        (json 500 (ErrorMessage "Failed to perform data ingestion" e), w')
    | (Died e, w') => (noAnswer e, w')
    end.

(** *** [GET /download/:filename] *)

Definition downloadPath (filename : string) : string :=
  Path.join [server_dirname env; "exports"; Path.basename filename].

(** Whether [send] ignores [path] as a dot file: no [root] is given, so
    all the segments of the path are looked at, and no [dotfiles] option
    either. *)
Definition ignoredAsDotFile (path : string) : bool :=
  Path.containsDotFile path
  && (dotfilesEverySegment env
      || Path.startsWithDot (last (Path.segments EmptyString path) EmptyString)).

(** [res.download(path)] without options or callback, for a path that
    [existsSync] found.  A path ignored as a dot file is not served: the
    error goes to Express's error handler, which answers 404.  A
    directory is not sent: the request goes on to the next route, there
    is none, and Express answers 404.  Anything else is sent. *)
Definition resDownload (k : Disk) (path : string) : Response :=
  if ignoredAsDotFile path then json 404 (ErrorPage "Not Found")
  else if isDir k path then json 404 CannotGet
  else json 200 (SendFile path).

Definition download (filename : string) : Handler :=
  fun w =>
    match existsSync (downloadPath filename) w with
    | (Returned true, w') => (resDownload (disk w') (downloadPath filename), w')
    | (Returned false, w') => (json 404 (ErrorBody "File not found"), w')
    | (Thrown e, w') => (json 500 (ErrorPage e), w')
    | (Died e, w') => (noAnswer e, w')
    end.

End Server.

Arguments Path.join : simpl never.
Arguments Path.normalize : simpl never.
Arguments Path.basename : simpl never.
Arguments exportsDir : simpl never.
Arguments uploadsDir : simpl never.
Arguments safeFileName : simpl never.
Arguments downloadPath : simpl never.
Arguments createTableQuery : simpl never.
Arguments insertQuery : simpl never.
Arguments previewQuery : simpl never.
Arguments CsvWriter.fileContent : simpl never.
Arguments JS.ofNat : simpl never.

Arguments ret {D A} a w /.
Arguments throw {D A} e w /.
Arguments bind {D A B} m k w /.
Arguments tryCatch {D A} m h w /.

(** ** Notions the statements below are written with *)

Section Notions.

Context {D : Type} (env : Env D).

(** The two directions [/ingest] accepts. *)
Definition validPair (source target : string) : bool :=
  (String.eqb source "clickhouse" && String.eqb target "flatfile")
  || (String.eqb source "flatfile" && String.eqb target "clickhouse").

(** Whether [/ingest] looks at the connection at all (line 339). *)
Definition touchesStore (source target : string) : bool :=
  String.eqb source "clickhouse" || String.eqb target "clickhouse".

(** The statements [sqls] executed in turn through client [c]: the final
    database state when every one of them succeeds. *)
Fixpoint runExecs (c : Client) (sqls : list string) (d : D) : option D :=
  match sqls with
  | [] => Some d
  | sql :: rest =>
      match dbExec env c sql d with
      | (None, d') => runExecs c rest d'
      | (Some _, _) => None
      end
  end.

(** [n] consecutive calls of [ensureConnection]: what each returned, and
    the world after the last. *)
Fixpoint ensureTimes (n : nat) (w : World D) : list bool * World D :=
  match n with
  | O => ([], w)
  | S n' =>
      let (ok, w') := ensureConnection env w in
      let (oks, w'') := ensureTimes n' w' in
      (ok :: oks, w'')
  end.

(** A request to the server. *)
Inductive Request :=
| PostConnect (b : ConnectBody.t)
| GetTables
| GetColumns (table : string)
| PostPreview (table : string) (cols : list string)
| PostUpload (now : nat) (file : option (string * string))
| PostIngest (b : IngestBody.t)
| GetDownload (filename : string).

Definition handle (r : Request) : @Handler D :=
  match r with
  | PostConnect b => connect env b
  | GetTables => tables env
  | GetColumns table => columnsOf env table
  | PostPreview table cols => preview env table cols
  | PostUpload now file => upload env now file
  | PostIngest b => ingest env b
  | GetDownload filename => download env filename
  end.

(** The worlds the server can be in: it starts with both module variables
    unset, and every request is handled to its end. *)
Inductive reachable : World D -> Prop :=
| reachable_start (d : D) (k : Disk) :
    reachable {| client := None; connectionConfig := None; db := d; disk := k; log := [] |}
| reachable_step (w : World D) (r : Request) :
    reachable w -> reachable (snd (handle r w)).

(** A live client was created from the stored configuration. *)
Definition clientFromConfig (w : World D) : Prop :=
  forall c, client w = Some c -> connectionConfig w = Some (boundTo c).

(** A computation that leaves [client] and [connectionConfig] alone. *)
Definition keepsVars {A : Type} (m : @M D A) : Prop :=
  forall w r w', m w = (r, w') ->
    client w' = client w /\ connectionConfig w' = connectionConfig w.

(** A computation that leaves the disk alone and logs no file event. *)
Definition keepsDisk {A : Type} (m : @M D A) : Prop :=
  forall w r w', m w = (r, w') ->
    disk w' = disk w /\
    filter isFileEvent (log w') = filter isFileEvent (log w).

(** A computation that keeps a live client tied to the stored
    configuration. *)
Definition keepsInv {A : Type} (m : @M D A) : Prop :=
  forall w r w', m w = (r, w') -> clientFromConfig w -> clientFromConfig w'.

(** Whether one (re)connection attempt with [cfg] succeeds on database
    state [d]: the client is created and the liveness query answers. *)
Definition connects (cfg : ConnectionConfig) (d : D) : bool :=
  match createClientThrows env cfg with
  | Some _ => false
  | None =>
      match fst (dbQuery env {| boundTo := cfg |} liveness d) with
      | inl _ => false
      | inr _ => true
      end
  end.

(** What one (re)connection attempt with [cfg] issues: the client is
    created once and, unless that throws, the liveness query is sent once. *)
Definition attemptEvents (cfg : ConnectionConfig) : list Event :=
  CreateClient cfg
  :: match createClientThrows env cfg with
     | Some _ => []
     | None => [Query {| boundTo := cfg |} liveness]
     end.

(** The world [w] after the database moved to [d] and [evs] were issued. *)
Definition advance (w : World D) (d : D) (evs : list Event) : World D :=
  {| client := client w; connectionConfig := connectionConfig w;
     db := d; disk := disk w; log := (log w ++ evs)%list |}.

(** The event of inserting [row] into [targetTable] through client [c]. *)
Definition insertEvent (c : Client) (targetTable : string) (row : CsvRecord) : Event :=
  Exec c (insertQuery targetTable row).

(** The order of [Object.keys]: every key that is an array index before
    every key that is not, and the index keys by ascending index. *)
Definition keyOrder (a b : string) : Prop :=
  match JS.arrayIndex a, JS.arrayIndex b with
  | Some x, Some y => (x <= y)%N
  | Some _, None => True
  | None, Some _ => False
  | None, None => True
  end.

(** Two rows that agree on every field of [header]. *)
Definition agreeOn (header : list string) (r r' : Row) : Prop :=
  forall k, In k header -> getProp r k = getProp r' k.

(** A string without a path separator. *)
Definition noSep (s : string) : Prop :=
  Forall (fun c => Path.isSep c = false) (list_ascii_of_string s).

(** A path segment that names an entry: no separator, not empty, and
    neither [.] nor [..]. *)
Definition plain (s : string) : Prop :=
  noSep s /\ s <> EmptyString /\ s <> "."%string /\ s <> ".."%string.

(** The absolute path made of the segments [segs]. *)
Definition absolutePath (segs : list string) : string :=
  ("/" ++ JS.join "/" segs)%string.

End Notions.

(** ** A small concrete environment, to run the server on *)

Module Toy.

(** The database: the statements executed so far, oldest first. *)
Definition Db : Type := list string.

Definition people : list CsvRecord :=
  [ [("name", "Alice"); ("age", "30")];
    [("name", "Bob"); ("age", "25")];
    [("name", "Carol"); ("age", "41")];
    [("name", "Dave"); ("age", "19")];
    [("name", "Eve"); ("age", "52")] ].

Definition upload : string := "/srv/app/uploads/1700000000000-people.csv".

(** Table [t] holds two rows, the second with one field more; table
    [teams] has a column named [constructor] and table [drivers] has
    none; table [marks] has a column named [7] after its column [pupil];
    every other table is empty. *)
Definition answer (sql : string) : list Row :=
  if String.eqb sql "SELECT * FROM t" || String.eqb sql "SELECT * FROM t LIMIT 100"
     || String.eqb sql "SELECT a, b FROM t"
  then [ [("a", JNum 1); ("b", JNum 2)];
         [("a", JNum 3); ("b", JNum 4); ("c", JNum 5)] ]
  else if String.eqb sql "SELECT * FROM teams"
  then [ [("constructor", JStr "Ferrari"); ("wins", JNum 3)] ]
  else if String.eqb sql "SELECT * FROM drivers"
  then [ [("name", JStr "Sainz"); ("wins", JNum 5)] ]
  else if String.eqb sql "SELECT * FROM marks"
  then [ [("pupil", JStr "Ann"); ("7", JNum 15)] ]
  else if String.eqb sql liveness then [ [("1", JNum 1)] ]
  else [].

(** The password is [secret]; a statement that mentions [Carol] is
    refused; a refused statement changes nothing. *)
Definition env : Env Db :=
  {| server_dirname := "/srv/app";
     createClientThrows := fun _ => None;
     dbQuery := fun c sql d =>
       if String.eqb (password (boundTo c)) "secret"
       then (inr (answer sql), d)
       else (inl "Authentication failed", d);
     dbExec := fun c sql (d : Db) =>
       if CsvWriter.includes "Carol" sql
       then (Some "Code: 62. DB::Exception: Syntax error", d)
       else (None, (d ++ [sql])%list);
     dotfilesEverySegment := true;
     parseCsv := fun separator path k =>
       if String.eqb path upload && String.eqb separator ","
       then inr people
       else inl (ReadError ("ENOENT: no such file or directory, open '" ++ path ++ "'")) |}.

Definition goodBody : ConnectBody.t :=
  {| ConnectBody.host := " http://db.local ";
     ConnectBody.port := "8443";
     ConnectBody.database := "default";
     ConnectBody.username := "default";
     ConnectBody.password := "secret" |}.

Definition badBody : ConnectBody.t :=
  {| ConnectBody.host := "db.local";
     ConnectBody.port := "8443";
     ConnectBody.database := "default";
     ConnectBody.username := "default";
     ConnectBody.password := "guess" |}.

Definition good : ConnectionConfig := configOf goodBody.
Definition bad : ConnectionConfig := configOf badBody.

(** The server just started. *)
Definition start : World Db :=
  {| client := None; connectionConfig := None; db := [];
     disk := {| dirs := ["/"; "/srv"; "/srv/app"; "/srv/app/uploads"]; files := [] |};
     log := [] |}.

(** After a successful [/connect]. *)
Definition connected : World Db := snd (connect env goodBody start).

(** After a successful [/connect] followed by a failed one. *)
Definition refused : World Db := snd (connect env badBody connected).

Definition ingestBody (source target : string) (tables : list string)
           (targetFile : option string) : IngestBody.t :=
  {| IngestBody.source := source;
     IngestBody.target := target;
     IngestBody.tables := tables;
     IngestBody.columns := [];
     IngestBody.filePath := Some upload;
     IngestBody.targetFile := targetFile;
     IngestBody.targetTable := Some "t1";
     IngestBody.delimiter := Some "," |}.

End Toy.

(** ** The other server file *)

Section EarlierServer.

Context {D : Type} (env : Env D).

Notation "x <- m ;; k" := (bind m (fun x => k))
  (at level 61, m at next level, right associativity).
Notation "m ;; k" := (bind m (fun _ => k))
  (at level 61, right associativity).

(** [`${o}`] for an optional string: [undefined] prints as its name. *)
Definition templateOf (o : option string) : string :=
  match o with
  | Some s => s
  | None => "undefined"
  end.

(** [GET /tables]: guarded by [!client] alone. *)
Definition tablesEarlier : @Handler D :=
  fun w =>
    match client w with
    | None => (json 400 (ErrorBody "Not connected to ClickHouse"), w)
    | Some _ =>
        match clientQuery env "SHOW TABLES" w with
        | (Returned rows, w') => (json 200 (NamesBody (namesOf rows)), w')
        | (Thrown _, w') => (json 500 (ErrorBody "Failed to fetch tables"), w')
        | (Died e, w') => (noAnswer e, w')
        end
    end.

(** [GET /columns/:table]. *)
Definition columnsEarlier (table : string) : @Handler D :=
  fun w =>
    match client w with
    | None => (json 400 (ErrorBody "Not connected to ClickHouse"), w)
    | Some _ =>
        match clientQuery env ("DESCRIBE TABLE " ++ table) w with
        | (Returned rows, w') => (json 200 (NamesBody (namesOf rows)), w')
        | (Thrown _, w') =>
            (json 500 (ErrorBody ("Failed to fetch columns for " ++ table)), w')
        | (Died e, w') => (noAnswer e, w')
        end
    end.

(** [POST /preview]. *)
Definition previewEarlier (table : string) (cols : list string) : @Handler D :=
  fun w =>
    match client w with
    | None => (json 400 (ErrorBody "Not connected"), w)
    | Some _ =>
        match clientQuery env (previewQuery table cols) w with
        | (Returned rows, w') => (json 200 (RowsBody rows), w')
        | (Thrown _, w') => (json 500 (ErrorBody "Failed to fetch preview"), w')
        | (Died e, w') => (noAnswer e, w')
        end
    end.

(** The file the export writes: the target name is joined as it is. *)
Definition exportPathEarlier (targetFile : option string) : string :=
  Path.join [exportsDir env; JS.orElse targetFile "export.csv"].

(** [clickhouseToFlatFile]: no connection check, no [path.basename]; the
    result carries the whole path and the message the raw target name. *)
Definition clickhouseToFlatFileEarlier (tables : list string)
           (columns : list (string * list string))
           (targetFile : option string) (delimiter : option string)
  : @M D TransferResult :=
  fetched <- fetchTables env tables columns [] 0 ;;
  let (results, recordCount) := fetched in
  match results with
  | [] =>
      ret {| recordCount := 0; message := "No records found to export";
             filePath := None |}
  | first :: _ =>
      let dirPath := exportsDir env in
      present <- existsSync dirPath ;;
      (if negb present then mkdirSync dirPath else ret tt) ;;
      let filePath := exportPathEarlier targetFile in
      writeRecords filePath (headerOf first) results ;;
      ret {| recordCount := recordCount;
             filePath := Some filePath;
             message := "Successfully exported " ++ JS.ofNat recordCount
                        ++ " records to " ++ templateOf targetFile |}
  end.

(** [flatFileToClickhouse]: guarded by [!client] alone. *)
Definition flatFileToClickhouseEarlier (filePath targetTable : string)
           (delimiter : option string) : @M D TransferResult :=
  fun w =>
    match client w with
    | None => (Thrown "Not connected to ClickHouse", w)
    | Some _ =>
        (rows <- readRecords env filePath (delimiterOr delimiter) ;;
         match rows with
         | [] =>
             ret {| recordCount := 0; message := "No records found in file";
                    filePath := None |}
         | first :: _ =>
             clientExec env (createTableQuery targetTable (keys first)) ;;
             insertRows env targetTable rows ;;
             ret {| recordCount := List.length rows;
                    message := "Successfully imported " ++ JS.ofNat (List.length rows)
                               ++ " records to " ++ targetTable;
                    filePath := None |}
         end) w
    end.

(** [POST /ingest]: the direction is looked at first; the answer has no
    [filePath]. *)
Definition ingestEarlier (b : IngestBody.t) : @Handler D :=
  fun w =>
    let source := IngestBody.source b in
    let target := IngestBody.target b in
    let attempt : M Response :=
      if String.eqb source "clickhouse" && String.eqb target "flatfile" then
        result <- clickhouseToFlatFileEarlier (IngestBody.tables b) (IngestBody.columns b)
                    (IngestBody.targetFile b) (IngestBody.delimiter b) ;;
        ret (json 200 (IngestOk (recordCount result) (message result) None))
      else if String.eqb source "flatfile" && String.eqb target "clickhouse" then
        if negb (JS.truthy (IngestBody.filePath b)) then
          ret (json 400 (ErrorBody "No file path provided"))
        else if negb (JS.truthy (IngestBody.targetTable b)) then
          ret (json 400 (ErrorBody "No target table specified"))
        else
          result <- flatFileToClickhouseEarlier
                      (JS.orElse (IngestBody.filePath b) EmptyString)
                      (JS.orElse (IngestBody.targetTable b) EmptyString)
                      (IngestBody.delimiter b) ;;
          ret (json 200 (IngestOk (recordCount result) (message result) None))
      else ret invalidCombination in
    match attempt w with
    | (Returned r, w') => (r, w')
    | (Thrown e, w') =>
        (json 500 (ErrorMessage "Failed to perform data ingestion" e), w')
    | (Died e, w') => (noAnswer e, w')
    end.

(** [GET /download/:filename]: the name is joined as it is. *)
Definition downloadPathEarlier (filename : string) : string :=
  Path.join [server_dirname env; "exports"; filename].

Definition downloadEarlier (filename : string) : @Handler D :=
  fun w =>
    match existsSync (downloadPathEarlier filename) w with
    | (Returned true, w') => (resDownload env (disk w') (downloadPathEarlier filename), w')
    | (Returned false, w') => (json 404 (ErrorBody "File not found"), w')
    | (Thrown e, w') => (json 500 (ErrorPage e), w')
    | (Died e, w') => (noAnswer e, w')
    end.

End EarlierServer.

Arguments exportPathEarlier : simpl never.
Arguments downloadPathEarlier : simpl never.

(** ** The client of the server: [apiService] *)

Module Api.

(** [response.ok]: a status from 200 to 299. *)
Definition ok (r : Response) : bool :=
  Nat.leb 200 (status r) && Nat.leb (status r) 299.

(** The message of the error [fetch] rejects with when no response
    comes (the wording is the browser's). *)
Definition fetchFailed : Error := "Failed to fetch".

(** What every function of [apiService] does with the outcome of
    [fetch]: the body when the status is [ok], an error that names the
    status otherwise, and the error of [fetch] itself, thrown again by
    the [catch], when the server did not answer. *)
Definition unwrap (r : Response) : Outcome Json :=
  match body r with
  | ProcessDied _ => Thrown fetchFailed
  | _ =>
      if ok r then Returned (body r)
      else Thrown ("Server responded with status: " ++ JS.ofNat (status r))
  end.

Definition connectToClickHouse {D : Type} (env : Env D) (config : ConnectBody.t)
  : World D -> Outcome Json * World D :=
  fun w => let (r, w') := connect env config w in (unwrap r, w').

Definition getTables {D : Type} (env : Env D)
  : World D -> Outcome Json * World D :=
  fun w => let (r, w') := tables env w in (unwrap r, w').

Definition previewData {D : Type} (env : Env D) (table : string) (cols : list string)
  : World D -> Outcome Json * World D :=
  fun w => let (r, w') := preview env table cols w in (unwrap r, w').


End Api.

(** ** The connection form, [ClickHouseConfig] *)

Module ConfigForm.

Record State := {
  host : string;
  port : string;
  database : string;
  username : string;
  password : string;
  isConnecting : bool;
  internalIsConnected : bool
}.

(** The values of the [useState] calls. *)
Definition initial : State :=
  {| host := "localhost"; port := "8443"; database := "default";
     username := "default"; password := EmptyString;
     isConnecting := false; internalIsConnected := false |}.

Definition configOfState (s : State) : ConnectBody.t :=
  {| ConnectBody.host := host s;
     ConnectBody.port := port s;
     ConnectBody.database := database s;
     ConnectBody.username := username s;
     ConnectBody.password := password s |}.

(** [!x] for a string. *)
Definition blank (x : string) : bool := String.eqb x EmptyString.

(** [result.success]. *)
Definition success (result : Json) : bool :=
  match result with
  | ConnectOk _ => true
  | _ => false
  end.

Definition settle (s : State) (connected : bool) : State :=
  {| host := host s; port := port s; database := database s;
     username := username s; password := password s;
     isConnecting := false;
     internalIsConnected := connected |}.

(** [handleConnect]: the state of the form afterwards, what [onConnected]
    was called with, if it was, and the world of the server. *)
Definition handleConnect {D : Type} (env : Env D) (s : State)
  : World D -> State * option bool * World D :=
  fun w =>
    if blank (host s) || blank (port s) || blank (database s) || blank (username s)
    then (s, None, w)
    else
      match Api.connectToClickHouse env (configOfState s) w with
      | (Returned result, w') =>
          if success result
          then (settle s true, Some true, w')
          else (settle s (internalIsConnected s), Some false, w')
      | (Thrown _, w') => (settle s (internalIsConnected s), Some false, w')
      | (Died _, w') => (settle s (internalIsConnected s), Some false, w')
      end.

(** The [handleReset] of the form. *)
Definition handleReset (s : State) : State * option bool :=
  (settle s false, Some false).

End ConfigForm.

(** ** The page, [DataIngestionTool] *)

Module Page.

Record State := {
  source : string;
  target : string;
  selectedTables : list string;
  selectedColumns : list (string * list string);
  status : string;
  progress : nat;
  recordsIngested : nat;
  isLoading : bool;
  isClickHouseConnected : bool
}.

Definition initial : State :=
  {| source := EmptyString; target := EmptyString;
     selectedTables := []; selectedColumns := [];
     status := "Ready"; progress := 0; recordsIngested := 0;
     isLoading := false; isClickHouseConnected := false |}.

(** [{...o, [k]: v}]: the property keeps its place when [o] has it and
    comes last when it has not. *)
Fixpoint setProp {V : Type} (o : list (string * V)) (k : string) (v : V)
  : list (string * V) :=
  match o with
  | [] => [(k, v)]
  | (k', v') :: o' =>
      if String.eqb k' k then (k', v) :: o' else (k', v') :: setProp o' k v
  end.

(** [arr.includes(x)]. *)
Definition includes (arr : list string) (x : string) : bool :=
  existsb (String.eqb x) arr.

(** [arr.filter((y) => y !== x)]. *)
Definition without (arr : list string) (x : string) : list string :=
  filter (fun y => negb (String.eqb y x)) arr.

Definition withEnds (s : State) (src tgt : string) : State :=
  {| source := src; target := tgt;
     selectedTables := selectedTables s; selectedColumns := selectedColumns s;
     status := status s; progress := progress s;
     recordsIngested := recordsIngested s;
     isLoading := isLoading s; isClickHouseConnected := isClickHouseConnected s |}.

Definition other (value : string) : string :=
  if String.eqb value "clickhouse" then "flatfile" else "clickhouse".

Definition handleSourceChange (value : string) (s : State) : State :=
  withEnds s value (other value).

Definition handleTargetChange (value : string) (s : State) : State :=
  withEnds s (other value) value.

Definition withSelection (s : State) (tables : list string)
           (columns : list (string * list string)) : State :=
  {| source := source s; target := target s;
     selectedTables := tables; selectedColumns := columns;
     status := status s; progress := progress s;
     recordsIngested := recordsIngested s;
     isLoading := isLoading s; isClickHouseConnected := isClickHouseConnected s |}.

Definition handleTableSelect (table : string) (s : State) : State :=
  if includes (selectedTables s) table
  then withSelection s (without (selectedTables s) table)
         (deleteProp table (selectedColumns s))
  else withSelection s (selectedTables s ++ [table])%list
         (setProp (selectedColumns s) table []).

Definition handleColumnSelect (table column : string) (s : State) : State :=
  match getProp (selectedColumns s) table with
  | Some cols =>
      if includes cols column
      then withSelection s (selectedTables s)
             (setProp (selectedColumns s) table (without cols column))
      else withSelection s (selectedTables s)
             (setProp (selectedColumns s) table (cols ++ [column])%list)
  | None =>
      withSelection s (selectedTables s)
        (setProp (selectedColumns s) table [column])
  end.

Definition withRun (s : State) (st : string) (p r : nat) (loading : bool) : State :=
  {| source := source s; target := target s;
     selectedTables := selectedTables s; selectedColumns := selectedColumns s;
     status := st; progress := p; recordsIngested := r;
     isLoading := loading; isClickHouseConnected := isClickHouseConnected s |}.

(** [handleStartIngestion], up to the start of the interval. *)
Definition handleStartIngestion (s : State) : State :=
  withRun s "Ingestion in progress..." 0 0 true.

(** One firing of the interval: the state afterwards and whether the
    interval was cleared. *)
Definition tick (s : State) : State * bool :=
  let newProgress := progress s + 10 in
  if Nat.leb 100 newProgress
  then (withRun s "Ingestion completed" 100 (recordsIngested s) false, true)
  else (withRun s (status s) newProgress (newProgress * 15) (isLoading s), false).

(** The interval firing up to [n] times: it fires no more once cleared. *)
Fixpoint ticks (n : nat) (s : State) : State * bool :=
  match n with
  | O => (s, false)
  | S n' =>
      let (s', cleared) := tick s in
      if cleared then (s', true) else ticks n' s'
  end.

(** The request [/ingest] gets from the selections of the page. *)
Definition ingestBodyOf (s : State) (filePath targetFile targetTable : option string)
  : IngestBody.t :=
  {| IngestBody.source := source s;
     IngestBody.target := target s;
     IngestBody.tables := selectedTables s;
     IngestBody.columns := selectedColumns s;
     IngestBody.filePath := filePath;
     IngestBody.targetFile := targetFile;
     IngestBody.targetTable := targetTable;
     IngestBody.delimiter := None |}.

End Page.

(** ** Further notions *)

Section MoreNotions.

Context {D : Type} (env : Env D).

(** The queries [sqls] sent in turn through client [c]: the rows of each
    and the final database state, when every one of them is answered. *)
Fixpoint runQueries (c : Client) (sqls : list string) (d : D)
  : option (list (list Row) * D) :=
  match sqls with
  | [] => Some ([], d)
  | sql :: rest =>
      match dbQuery env c sql d with
      | (inr rows, d') =>
          match runQueries c rest d' with
          | Some (rowss, d'') => Some (rows :: rowss, d'')
          | None => None
          end
      | (inl _, _) => None
      end
  end.

(** The statement the export is to send for [table]: the columns chosen
    for it joined with a comma and a space, [*] when [columns] has no
    entry for the table or an empty one. *)
Definition selectFrom (columns : list (string * list string)) (table : string) : string :=
  "SELECT "
  ++ match getProp columns table with
     | Some (col :: cols) => JS.join ", " (col :: cols)
     | _ => "*"
     end
  ++ " FROM " ++ table.

(** The steps of the export after the rows are fetched (lines 235-253):
    the exports directory is looked for and made if it is not there, then
    the file is written. *)
Definition writeExport (targetFile : option string)
           (first : Row) (results : list Row) : @M D unit :=
  bind (existsSync (exportsDir env))
    (fun present =>
       bind (if negb present then mkdirSync (exportsDir env) else ret tt)
         (fun _ =>
            writeRecords (Path.join [exportsDir env; safeFileName targetFile])
              (headerOf first) results)).

(** Lines 24-27 and 235-238: the directory is made when nothing is at
    its path. *)
Definition ensureDir (dir : string) : @M D unit :=
  bind (existsSync dir)
    (fun present => if negb present then mkdirSync dir else ret tt).

(** A computation that leaves the disk as it is. *)
Definition diskFixed {A : Type} (m : @M D A) : Prop :=
  forall w r w', m w = (r, w') -> disk w' = disk w.

(** The content of the file at [p], if the disk has one. *)
Definition fileAt (k : Disk) (p : string) : option string := getProp (files k) p.

(** The requests that can write to the disk: an upload that carries a
    file and an export. *)
Definition writesDisk (r : Request) : bool :=
  match r with
  | PostUpload _ (Some _) => true
  | PostIngest b =>
      String.eqb (IngestBody.source b) "clickhouse"
      && String.eqb (IngestBody.target b) "flatfile"
  | _ => false
  end.

(** The number of single quotes in a string. *)
Fixpoint quotes (s : string) : nat :=
  match s with
  | EmptyString => 0
  | String c s' => (if Ascii.eqb c "'"%char then 1 else 0) + quotes s'
  end.

End MoreNotions.

(** ** Notions about the page and the form *)

(** Every selected table is selected once and has its entry in the
    column selection. *)
Definition selectionConsistent (s : Page.State) : Prop :=
  NoDup (Page.selectedTables s)
  /\ forall t, In t (Page.selectedTables s) -> getProp (Page.selectedColumns s) t <> None.

(** A required field of the form is empty. *)
Definition requiredBlank (s : ConfigForm.State) : bool :=
  ConfigForm.blank (ConfigForm.host s) || ConfigForm.blank (ConfigForm.port s)
  || ConfigForm.blank (ConfigForm.database s) || ConfigForm.blank (ConfigForm.username s).




(** The stored configuration after request [r], given the one before. *)
Definition configAfter (r : Request) (before : option ConnectionConfig)
  : option ConnectionConfig :=
  match r with
  | PostConnect b => Some (configOf b)
  | _ => before
  end.

(** ** Variants of the toy server *)

Module ToyMore.

(** The toy server when every file parses to [records]. *)
Definition envReading (records : list CsvRecord) : Env Toy.Db :=
  {| server_dirname := server_dirname Toy.env;
     createClientThrows := createClientThrows Toy.env;
     dbQuery := dbQuery Toy.env;
     dbExec := dbExec Toy.env;
     parseCsv := fun _ _ _ => inr records;
     dotfilesEverySegment := dotfilesEverySegment Toy.env |}.

(** The toy server when the store knows no table whose name holds
    [missing]. *)
Definition envMissing : Env Toy.Db :=
  {| server_dirname := server_dirname Toy.env;
     createClientThrows := createClientThrows Toy.env;
     dbQuery := fun c sql d =>
       if CsvWriter.includes "missing" sql
       then (inl "Code: 60. DB::Exception: Unknown table", d)
       else dbQuery Toy.env c sql d;
     dbExec := dbExec Toy.env;
     parseCsv := parseCsv Toy.env;
     dotfilesEverySegment := dotfilesEverySegment Toy.env |}.

(** The segments of [__dirname] of the toy server. *)
Definition rootSegments : list string := ["srv"; "app"].

(** The toy server started on a disk that has a file named [exports]
    and no uploads directory, after a successful [/connect]. *)
Definition blocked : World Toy.Db :=
  snd (connect Toy.env Toy.goodBody
         {| client := None; connectionConfig := None; db := [];
            disk := {| dirs := ["/"; "/srv"; "/srv/app"];
                       files := [("/srv/app/exports", "not a directory")] |};
            log := [] |}).

(** A store that is down until it has refused one query and up from
    then on; the state of the database is whether it is up. *)
Definition envWaking : Env bool :=
  {| server_dirname := server_dirname Toy.env;
     createClientThrows := fun _ => None;
     dbQuery := fun c sql (up : bool) =>
       if up then (inr (Toy.answer sql), true)
       else (inl "connect ECONNREFUSED 10.0.0.5:8443", true);
     dbExec := fun c sql (up : bool) =>
       if up then (None, true)
       else (Some "connect ECONNREFUSED 10.0.0.5:8443", true);
     parseCsv := fun _ _ _ => inr [];
     dotfilesEverySegment := dotfilesEverySegment Toy.env |}.

(** The server just started while the store is down. *)
Definition asleep : World bool :=
  {| client := None; connectionConfig := None; db := false;
     disk := disk Toy.start; log := [] |}.

(** After a [/connect] that the store, down, refused. *)
Definition woken : World bool := snd (connect envWaking Toy.goodBody asleep).

End ToyMore.

(** * Properties *)

Local Open Scope list_scope.

(** ** Executable checks of the string and path operations *)

Example basename_passwd : Path.basename "../../etc/passwd" = "passwd".
Proof. reflexivity. Qed.

Example basename_trailing_separator : Path.basename "reports/2024/" = "2024".
Proof. reflexivity. Qed.

Example join_exports :
  Path.join ["/srv/app"; "exports"; "passwd"] = "/srv/app/exports/passwd".
Proof. reflexivity. Qed.

Example trim_host : JS.trim "  http://db.local  " = "http://db.local".
Proof. reflexivity. Qed.

(** A no-break space, U+00A0, before the host and a line feed after it. *)
Example trim_no_break_space :
  JS.trim (String (ascii_of_nat 194) (String (ascii_of_nat 160)
             ("db.local" ++ String (ascii_of_nat 10) EmptyString)))
  = "db.local".
Proof. reflexivity. Qed.

Example removeFirst_inner : JS.removeFirst "b" "abcb" = "acb".
Proof. reflexivity. Qed.

Example insert_escapes_quotes :
  insertQuery "t1" [("name", "O'Neil")] = "INSERT INTO t1 (name) VALUES ('O''Neil')".
Proof. reflexivity. Qed.

(** ** The order of the keys of an object *)

Section ObjectFacts.

Context {V : Type}.

Implicit Types (o : list (string * V)) (kv : string * V).

Lemma insertIndexed_perm (n : N) kv (l : list (N * (string * V))) :
  Permutation (insertIndexed n kv l) ((n, kv) :: l).
Proof.
  induction l as [|[m kv'] l IH]; simpl; [reflexivity|].
  destruct (N.ltb n m); [reflexivity|].
  rewrite IH. apply perm_swap.
Qed.

Lemma insertIndexed_sorted (n : N) kv (l : list (N * (string * V))) :
  StronglySorted (fun a b => (fst a <= fst b)%N) l ->
  StronglySorted (fun a b => (fst a <= fst b)%N) (insertIndexed n kv l).
Proof.
  induction l as [|[m kv'] l IH]; intros Hs; simpl.
  - constructor; constructor.
  - inversion Hs as [|? ? Hs' Hall]; subst.
    destruct (N.ltb_spec n m) as [Hlt|Hge].
    + constructor; [exact Hs|]. constructor; [simpl; lia|].
      eapply Forall_impl; [|exact Hall]. simpl. intros a Ha. lia.
    + constructor; [apply IH; exact Hs'|].
      eapply Permutation_Forall; [symmetry; apply insertIndexed_perm|].
      constructor; [exact Hge|exact Hall].
Qed.

Lemma indexed_sorted o : StronglySorted (fun a b => (fst a <= fst b)%N) (indexed o).
Proof.
  induction o as [|[k v] o IH]; simpl; [constructor|].
  destruct (JS.arrayIndex k); [apply insertIndexed_sorted|]; exact IH.
Qed.

Lemma indexed_index o :
  Forall (fun i => JS.arrayIndex (fst (snd i)) = Some (fst i)) (indexed o).
Proof.
  induction o as [|[k v] o IH]; simpl; [constructor|].
  destruct (JS.arrayIndex k) as [n|] eqn:E; [|exact IH].
  eapply Permutation_Forall; [symmetry; apply insertIndexed_perm|].
  constructor; [exact E|exact IH].
Qed.

Lemma indexed_perm o :
  Permutation (map snd (indexed o)) (filter (fun kv => JS.isIndexKey (fst kv)) o).
Proof.
  induction o as [|[k v] o IH]; simpl; [reflexivity|].
  unfold JS.isIndexKey at 1. cbn [fst].
  destruct (JS.arrayIndex k) as [n|]; [|exact IH].
  rewrite (Permutation_map snd (insertIndexed_perm n (k, v) (indexed o))).
  simpl. constructor. exact IH.
Qed.

Lemma filter_split_perm {A : Type} (p : A -> bool) (l : list A) :
  Permutation (filter p l ++ filter (fun x => negb (p x)) l) l.
Proof.
  induction l as [|x l IH]; simpl; [reflexivity|].
  destruct (p x); simpl.
  - constructor. exact IH.
  - rewrite <- Permutation_middle. constructor. exact IH.
Qed.

Lemma entries_perm o : Permutation (entries o) o.
Proof.
  unfold entries. rewrite indexed_perm.
  apply (filter_split_perm (fun kv => JS.isIndexKey (fst kv))).
Qed.

Lemma keys_perm o : Permutation (keys o) (map fst o).
Proof. unfold keys. apply Permutation_map. apply entries_perm. Qed.

Lemma indexed_plain o :
  (forall k, In k (map fst o) -> JS.isIndexKey k = false) -> indexed o = [].
Proof.
  induction o as [|[k v] o IH]; intros H; simpl; [reflexivity|].
  assert (Hk : JS.isIndexKey k = false) by (apply H; left; reflexivity).
  unfold JS.isIndexKey in Hk. destruct (JS.arrayIndex k); [discriminate|].
  apply IH. intros k' Hin. apply H. right. exact Hin.
Qed.

(** An object without an index key lists its properties as they were
    created. *)
Lemma entries_plain o :
  (forall k, In k (map fst o) -> JS.isIndexKey k = false) -> entries o = o.
Proof.
  intros H. unfold entries. rewrite (indexed_plain o H). simpl.
  induction o as [|[k v] o IH]; simpl; [reflexivity|].
  rewrite (H k (or_introl eq_refl)). simpl. f_equal.
  apply IH. intros k' Hin. apply H. right. exact Hin.
Qed.

Lemma keys_plain o :
  (forall k, In k (map fst o) -> JS.isIndexKey k = false) -> keys o = map fst o.
Proof. intros H. unfold keys. rewrite (entries_plain o H). reflexivity. Qed.

Lemma keys_others o :
  filter (fun k => negb (JS.isIndexKey k)) (keys o)
  = filter (fun k => negb (JS.isIndexKey k)) (map fst o).
Proof.
  unfold keys, entries. rewrite map_app, filter_app.
  assert (H1 : filter (fun k => negb (JS.isIndexKey k)) (map fst (map snd (indexed o))) = []).
  { pose proof (indexed_index o) as H. induction H as [|i l Hi _ IH]; simpl; [reflexivity|].
    unfold JS.isIndexKey at 1. rewrite Hi. simpl. exact IH. }
  rewrite H1. simpl. clear H1.
  induction o as [|[k v] o IH]; simpl; [reflexivity|].
  destruct (JS.isIndexKey k) eqn:E; simpl; [exact IH|].
  rewrite E. simpl. f_equal. exact IH.
Qed.

Lemma keys_ordered o : StronglySorted keyOrder (keys o).
Proof.
  unfold keys, entries. rewrite map_app.
  assert (Hothers : Forall (fun k => JS.arrayIndex k = None)
                      (map fst (filter (fun kv => negb (JS.isIndexKey (fst kv))) o))).
  { induction o as [|[k v] o IH]; simpl; [constructor|].
    unfold JS.isIndexKey at 1. cbn [fst].
    destruct (JS.arrayIndex k) eqn:E; simpl; [exact IH|]. constructor; assumption. }
  set (others := map fst (filter (fun kv => negb (JS.isIndexKey (fst kv))) o)) in *.
  assert (Hso : StronglySorted keyOrder others).
  { clearbody others. induction Hothers as [|k l Hk Hl IH]; constructor; [exact IH|].
    eapply Forall_impl; [|exact Hl]. intros b Hb. unfold keyOrder. rewrite Hk, Hb. exact I. }
  pose proof (indexed_sorted o) as Hs. pose proof (indexed_index o) as Hi.
  induction Hs as [|i l Hs IH Hall]; simpl; [exact Hso|].
  inversion Hi as [|? ? Hi1 Hi2]; subst.
  constructor; [apply IH; exact Hi2|].
  apply Forall_app. split.
  - rewrite Forall_forall in Hall, Hi2. apply Forall_forall. intros k Hin.
    rewrite map_map in Hin. apply in_map_iff in Hin. destruct Hin as (j & <- & Hj).
    unfold keyOrder. rewrite Hi1, (Hi2 j Hj). exact (Hall j Hj).
  - eapply Forall_impl; [|exact Hothers]. intros b Hb. unfold keyOrder.
    rewrite Hi1, Hb. exact I.
Qed.

End ObjectFacts.

(** ** Frame lemmas: what each computation leaves alone *)

Section Frames.

Context {D : Type} (env : Env D).

Lemma keepsVars_ret {A : Type} (a : A) : keepsVars (D := D) (ret a).
Proof. intros w r w' H. inversion H; subst. auto. Qed.

Lemma keepsVars_throw {A : Type} (e : Error) : keepsVars (D := D) (A := A) (throw e).
Proof. intros w r w' H. inversion H; subst. auto. Qed.

Lemma keepsVars_bind {A B : Type} (m : M A) (k : A -> M B) :
  keepsVars (D := D) m -> (forall a, keepsVars (k a)) -> keepsVars (bind m k).
Proof.
  intros Hm Hk w r w' H. simpl in H.
  destruct (m w) as [[a|e|e] w1] eqn:E.
  - destruct (Hm _ _ _ E) as [H1 H2]. destruct (Hk a _ _ _ H) as [H3 H4].
    split; congruence.
  - inversion H; subst. exact (Hm _ _ _ E).
  - inversion H; subst. exact (Hm _ _ _ E).
Qed.

Lemma keepsDisk_ret {A : Type} (a : A) : keepsDisk (D := D) (ret a).
Proof. intros w r w' H. inversion H; subst. auto. Qed.

Lemma keepsDisk_throw {A : Type} (e : Error) : keepsDisk (D := D) (A := A) (throw e).
Proof. intros w r w' H. inversion H; subst. auto. Qed.

Lemma keepsDisk_bind {A B : Type} (m : M A) (k : A -> M B) :
  keepsDisk (D := D) m -> (forall a, keepsDisk (k a)) -> keepsDisk (bind m k).
Proof.
  intros Hm Hk w r w' H. simpl in H.
  destruct (m w) as [[a|e|e] w1] eqn:E.
  - destruct (Hm _ _ _ E) as [H1 H2]. destruct (Hk a _ _ _ H) as [H3 H4].
    split; congruence.
  - inversion H; subst. exact (Hm _ _ _ E).
  - inversion H; subst. exact (Hm _ _ _ E).
Qed.

Lemma filter_file_statement (l : list Event) (e : Event) :
  isFileEvent e = false ->
  filter isFileEvent (l ++ [e]) = filter isFileEvent l.
Proof.
  intros H. rewrite filter_app. simpl. rewrite H. apply app_nil_r.
Qed.

Lemma clientQuery_keepsVars (sql : string) : keepsVars (clientQuery env sql).
Proof.
  intros w r w' H. unfold clientQuery in H.
  destruct (client w) as [c|] eqn:Ec.
  - destruct (dbQuery env c sql (db w)) as [[e|rows] d]; inversion H; subst;
      simpl; auto.
  - inversion H; subst; auto.
Qed.

Lemma clientQuery_keepsDisk (sql : string) : keepsDisk (clientQuery env sql).
Proof.
  intros w r w' H. unfold clientQuery in H.
  destruct (client w) as [c|].
  - destruct (dbQuery env c sql (db w)) as [[e|rows] d]; inversion H; subst;
      (split; [reflexivity | apply filter_file_statement; reflexivity]).
  - inversion H; subst; auto.
Qed.

Lemma clientExec_keepsVars (sql : string) : keepsVars (clientExec env sql).
Proof.
  intros w r w' H. unfold clientExec in H.
  destruct (client w) as [c|] eqn:Ec.
  - destruct (dbExec env c sql (db w)) as [[e|] d]; inversion H; subst;
      simpl; auto.
  - inversion H; subst; auto.
Qed.

Lemma existsSync_keepsVars (p : string) : keepsVars (D := D) (existsSync p).
Proof. intros w r w' H. inversion H; subst; auto. Qed.

Lemma mkdirSync_keepsVars (p : string) : keepsVars (D := D) (mkdirSync p).
Proof.
  intros w r w' H. unfold mkdirSync in H.
  destruct (isDir (disk w) p || isFile (disk w) p);
    [|destruct (parentMissing (disk w) "mkdir" p)]; inversion H; subst; auto.
Qed.

Lemma writeFile_keepsVars (p content : string) : keepsVars (D := D) (writeFile p content).
Proof.
  intros w r w' H. unfold writeFile in H.
  destruct (isDir (disk w) p);
    [|destruct (parentMissing (disk w) "open" p)]; inversion H; subst; auto.
Qed.

Lemma readRecords_keepsVars (p separator : string) :
  keepsVars (readRecords env p separator).
Proof.
  intros w r w' H. unfold readRecords in H.
  destruct (parseCsv env separator p (disk w)) as [[e|e]|rows];
    inversion H; subst; auto.
Qed.

Lemma columnsStr_pure (columns : list (string * list string)) (table : string)
      (w : World D) :
  snd (columnsStr columns table w) = w.
Proof.
  unfold columnsStr.
  destruct (lookup columns table) as [cols|[name [|n]|]|]; reflexivity.
Qed.

Lemma columnsStr_keepsVars (columns : list (string * list string)) (table : string) :
  keepsVars (D := D) (columnsStr columns table).
Proof.
  intros w r w' H. pose proof (columnsStr_pure columns table w) as P.
  rewrite H in P. simpl in P. subst. auto.
Qed.

Lemma columnsStr_keepsDisk (columns : list (string * list string)) (table : string) :
  keepsDisk (D := D) (columnsStr columns table).
Proof.
  intros w r w' H. pose proof (columnsStr_pure columns table w) as P.
  rewrite H in P. simpl in P. subst. auto.
Qed.

Lemma fetchTables_keepsVars (tables : list string) (columns : list (string * list string)) :
  forall results n, keepsVars (fetchTables env tables columns results n).
Proof.
  induction tables as [|table rest IH]; intros results n; cbn [fetchTables].
  - apply keepsVars_ret.
  - apply keepsVars_bind; [apply columnsStr_keepsVars | intro].
    apply keepsVars_bind; [apply clientQuery_keepsVars | intro; apply IH].
Qed.

Lemma fetchTables_keepsDisk (tables : list string) (columns : list (string * list string)) :
  forall results n, keepsDisk (fetchTables env tables columns results n).
Proof.
  induction tables as [|table rest IH]; intros results n; cbn [fetchTables].
  - apply keepsDisk_ret.
  - apply keepsDisk_bind; [apply columnsStr_keepsDisk | intro].
    apply keepsDisk_bind; [apply clientQuery_keepsDisk | intro; apply IH].
Qed.

Lemma insertRows_keepsVars (targetTable : string) (rows : list CsvRecord) :
  keepsVars (insertRows env targetTable rows).
Proof.
  induction rows as [|row rest IH]; simpl.
  - apply keepsVars_ret.
  - apply keepsVars_bind; [apply clientExec_keepsVars | intro; apply IH].
Qed.

End Frames.

(** ** The connection manager *)

Section ConnectionManager.

Context {D : Type} (env : Env D).

Lemma ensureConnection_live (w : World D) (c : Client) :
  client w = Some c -> ensureConnection env w = (true, w).
Proof. intros H. unfold ensureConnection. rewrite H. reflexivity. Qed.

Lemma ensureConnection_unset (w : World D) :
  client w = None -> connectionConfig w = None ->
  ensureConnection env w = (false, w).
Proof. intros H1 H2. unfold ensureConnection. rewrite H1, H2. reflexivity. Qed.

(** The reconnection branch: whatever the store answers, the answer is
    [false] and [client] is unset again. *)
Lemma ensureConnection_reconnect (w : World D) (cfg : ConnectionConfig) :
  client w = None -> connectionConfig w = Some cfg ->
  exists w',
    ensureConnection env w = (false, w')
    /\ log w' = log w ++ attemptEvents env cfg
    /\ connectionConfig w' = Some cfg
    /\ disk w' = disk w
    /\ client w' = None.
Proof.
  intros H1 H2. unfold ensureConnection, attemptEvents.
  rewrite H1, H2. simpl. unfold createClient.
  destruct (createClientThrows env cfg) as [e|]; simpl.
  - eexists. repeat split; simpl; auto.
  - unfold clientQueryUnawaited. simpl.
    destruct (dbQuery env {| boundTo := cfg |} liveness (db w)) as [r d]; simpl.
    eexists. repeat split; simpl; auto. rewrite <- app_assoc. reflexivity.
Qed.

(** What [ensureConnection] does in any world. *)
Lemma ensureConnection_effect (w : World D) :
  forall ok w', ensureConnection env w = (ok, w') ->
    connectionConfig w' = connectionConfig w
    /\ disk w' = disk w
    /\ (ok = true -> exists c, client w' = Some c)
    /\ (ok = false -> client w' = None)
    /\ (clientFromConfig w -> clientFromConfig w')
    /\ exists evs, log w' = log w ++ evs
         /\ (evs = [] \/ exists cfg, connectionConfig w = Some cfg /\ evs = attemptEvents env cfg).
Proof.
  intros ok w' H.
  destruct (client w) as [c|] eqn:Ec.
  - rewrite (ensureConnection_live w c Ec) in H. inversion H; subst.
    repeat split; auto.
    + intros _. eauto.
    + discriminate.
    + exists []. rewrite app_nil_r. auto.
  - destruct (connectionConfig w) as [cfg|] eqn:Ek.
    + destruct (ensureConnection_reconnect w cfg Ec Ek) as (w1 & E & Hl & Hk & Hd & Hc).
      rewrite E in H. inversion H; subst.
      repeat split; auto.
      * discriminate.
      * intros _ c Hs. rewrite Hc in Hs. discriminate.
      * exists (attemptEvents env cfg). eauto.
    + rewrite (ensureConnection_unset w Ec Ek) in H. inversion H; subst.
      repeat split; auto.
      * discriminate.
      * exists []. rewrite app_nil_r. auto.
Qed.

(** [ensureConnection] answers [true] only when [client] is set, and
    then it does nothing. *)
Lemma ensureConnection_true (w w1 : World D) :
  ensureConnection env w = (true, w1) -> w1 = w /\ exists c, client w = Some c.
Proof.
  intros E. destruct (client w) as [c|] eqn:Ec.
  - rewrite (ensureConnection_live w c Ec) in E. inversion E. eauto.
  - destruct (connectionConfig w) as [cfg|] eqn:Ek.
    + destruct (ensureConnection_reconnect w cfg Ec Ek) as (w' & E' & _).
      rewrite E' in E. discriminate.
    + rewrite (ensureConnection_unset w Ec Ek) in E. discriminate.
Qed.

Lemma attemptEvents_no_file (cfg : ConnectionConfig) :
  filter isFileEvent (attemptEvents env cfg) = [].
Proof.
  unfold attemptEvents. destruct (createClientThrows env cfg); reflexivity.
Qed.

Lemma attemptEvents_statements (cfg : ConnectionConfig) :
  Forall (fun e => isStatement e = true -> isLivenessQuery e = true) (attemptEvents env cfg)
  /\ List.length (filter isStatement (attemptEvents env cfg)) <= 1.
Proof.
  unfold attemptEvents. destruct (createClientThrows env cfg); simpl; split;
    repeat constructor; simpl; auto; discriminate.
Qed.

Lemma ensure_keepsDisk : keepsDisk (ensure env).
Proof.
  intros w r w' H. unfold ensure in H.
  destruct (ensureConnection env w) as [ok w1] eqn:E. inversion H; subst.
  destruct (ensureConnection_effect w _ _ E) as (_ & Hd & _ & _ & _ & evs & Hl & Hev).
  split; [exact Hd|]. rewrite Hl, filter_app.
  destruct Hev as [-> | (cfg & _ & ->)].
  - apply app_nil_r.
  - rewrite attemptEvents_no_file. apply app_nil_r.
Qed.

Lemma ensure_keepsInv : keepsInv (ensure env).
Proof.
  intros w r w' H. unfold ensure in H.
  destruct (ensureConnection env w) as [ok w1] eqn:E. inversion H; subst.
  destruct (ensureConnection_effect w _ _ E) as (_ & _ & _ & _ & Hi & _). exact Hi.
Qed.

(** What [/connect] does in any world. *)
Lemma connect_effect (b : ConnectBody.t) (w : World D) :
  connectionConfig (snd (connect env b w)) = Some (configOf b)
  /\ disk (snd (connect env b w)) = disk w
  /\ log (snd (connect env b w)) = log w ++ attemptEvents env (configOf b)
  /\ ((status (fst (connect env b w)) = 200
       /\ client (snd (connect env b w)) = Some {| boundTo := configOf b |})
      \/ (status (fst (connect env b w)) = 500
          /\ client (snd (connect env b w)) = None)).
Proof.
  unfold connect, attemptEvents. simpl. unfold createClient. simpl.
  destruct (createClientThrows env (configOf b)) as [e|]; simpl.
  - repeat split; auto.
  - unfold clientQuery. simpl.
    destruct (dbQuery env {| boundTo := configOf b |} liveness (db w)) as [[e|rows] d];
      simpl; repeat split; auto; rewrite <- app_assoc; reflexivity.
Qed.

End ConnectionManager.

(** ** The invariant of the two module variables *)

Section Invariant.

Context {D : Type} (env : Env D).

Lemma keepsInv_of_vars {A : Type} (m : M A) : keepsVars (D := D) m -> keepsInv m.
Proof.
  intros Hm w r w' H Hinv c Hc.
  destruct (Hm _ _ _ H) as [H1 H2]. rewrite H2. apply Hinv. congruence.
Qed.

Lemma keepsInv_bind {A B : Type} (m : M A) (k : A -> M B) :
  keepsInv (D := D) m -> (forall a, keepsInv (k a)) -> keepsInv (bind m k).
Proof.
  intros Hm Hk w r w' H Hinv. simpl in H.
  destruct (m w) as [[a|e|e] w1] eqn:E.
  - exact (Hk a _ _ _ H (Hm _ _ _ E Hinv)).
  - inversion H; subst. exact (Hm _ _ _ E Hinv).
  - inversion H; subst. exact (Hm _ _ _ E Hinv).
Qed.

Lemma keepsInv_uncaught {A : Type} (m : M A) :
  keepsInv (D := D) m -> keepsInv (uncaught m).
Proof.
  intros Hm w r w' H. unfold uncaught in H.
  destruct (m w) as [[a|e|e] w1] eqn:E; inversion H; subst; exact (Hm _ _ _ E).
Qed.

Create HintDb frames.

Hint Resolve keepsVars_ret keepsVars_throw clientQuery_keepsVars clientExec_keepsVars
  existsSync_keepsVars mkdirSync_keepsVars writeFile_keepsVars readRecords_keepsVars
  fetchTables_keepsVars insertRows_keepsVars columnsStr_keepsVars : frames.

Ltac frame :=
  repeat
    (intros;
     match goal with
     | |- keepsInv (bind _ _) => apply keepsInv_bind
     | |- keepsInv (uncaught _) => apply keepsInv_uncaught
     | |- keepsInv (ensure _) => apply ensure_keepsInv
     | |- keepsInv (if ?b then _ else _) => destruct b
     | |- keepsInv (match ?x with _ => _ end) => destruct x
     | |- keepsInv _ => apply keepsInv_of_vars; solve [auto with frames]
     end).

(** A handler that ensures the connection and sends one query. *)
Ltac query_handler Hinv :=
  match goal with
  | |- context [ensureConnection ?e ?w] =>
      let ok := fresh "ok" in
      let w1 := fresh "w1" in
      let E := fresh "E" in
      let Hi := fresh "Hi" in
      destruct (ensureConnection e w) as [ok w1] eqn:E;
      destruct (ensureConnection_effect e w _ _ E) as (_ & _ & _ & _ & Hi & _);
      specialize (Hi Hinv);
      destruct ok; simpl; [|exact Hi];
      match goal with
      | |- context [clientQuery e ?sql w1] =>
          let Q := fresh "Q" in
          destruct (clientQuery e sql w1) as [[?|?|?] ?] eqn:Q; simpl;
          exact (keepsInv_of_vars _ (clientQuery_keepsVars e _) _ _ _ Q Hi)
      end
  end.

Lemma clickhouseToFlatFile_keepsInv
      (tables : list string) (columns : list (string * list string))
      (targetFile delimiter : option string) :
  keepsInv (clickhouseToFlatFile env tables columns targetFile delimiter).
Proof.
  unfold clickhouseToFlatFile, writeRecords. frame.
Qed.

Lemma flatFileToClickhouse_keepsInv (path targetTable : string) (delimiter : option string) :
  keepsInv (flatFileToClickhouse env path targetTable delimiter).
Proof.
  unfold flatFileToClickhouse. frame.
Qed.

Lemma handle_keeps_invariant (r : Request) (w : World D) :
  clientFromConfig w -> clientFromConfig (snd (handle env r w)).
Proof.
  intros Hinv.
  destruct r as [b| |table|table cols|now file|b|filename]; simpl.
  - destruct (connect_effect env b w) as (Hk & _ & _ & [[_ Hc]|[_ Hc]]);
      intros c Hs; rewrite Hk; rewrite Hc in Hs; inversion Hs; reflexivity.
  - unfold tables. query_handler Hinv.
  - unfold columnsOf. query_handler Hinv.
  - unfold preview. query_handler Hinv.
  - unfold upload. destruct file as [[originalname content]|]; [|exact Hinv].
    match goal with
    | |- clientFromConfig (snd (match ?m w with _ => _ end)) =>
        assert (Hm : keepsInv m) by frame;
        destruct (m w) as [[resp|e|e] w1] eqn:E
    end; simpl; exact (Hm _ _ _ E Hinv).
  - unfold ingest.
    match goal with
    | |- clientFromConfig (snd (match ?m w with _ => _ end)) =>
        assert (Hm : keepsInv m)
    end.
    { frame;
        first [apply clickhouseToFlatFile_keepsInv | apply flatFileToClickhouse_keepsInv]. }
    match goal with
    | |- clientFromConfig (snd (match ?m w with _ => _ end)) =>
        destruct (m w) as [[resp|e|e] w1] eqn:E
    end; simpl; exact (Hm _ _ _ E Hinv).
  - unfold download.
    destruct (existsSync (downloadPath env filename) w) as [[[|]|e|e] w1] eqn:E; simpl;
      exact (keepsInv_of_vars _ (existsSync_keepsVars _) _ _ _ E Hinv).
Qed.

Lemma reachable_invariant (w : World D) : reachable env w -> clientFromConfig w.
Proof.
  induction 1 as [d k|w r Hr IH].
  - intros c Hc. discriminate.
  - apply handle_keeps_invariant. exact IH.
Qed.

End Invariant.

(** ** Claims about the connection manager *)

Section ConnectionClaims.

Context {D : Type} (env : Env D).

Lemma ensureTimes_live (n : nat) (w : World D) (c : Client) :
  client w = Some c -> ensureTimes env n w = (repeat true n, w).
Proof.
  intros Hc. induction n as [|n IH]; simpl.
  - reflexivity.
  - rewrite (ensureConnection_live env w c Hc), IH. reflexivity.
Qed.

(** C6, as the code has it.  [ensureConnection] answers [true] at once,
    changing nothing and issuing nothing, when [client] is set.  When
    [client] is unset and a configuration is stored, it makes one attempt
    with that configuration: the client is created once and, unless that
    throws, the liveness query is sent once, and is the only statement
    sent.  But the answer of the store is never awaited: [.json()] is
    called on the promise, which throws, so the attempt ends in the
    [catch] whatever the store answers; [client] is unset afterwards and
    the answer is [false].  Hence [ensureConnection] answers [true] only
    when [client] was set already.  In a world the server can reach in
    which no configuration was ever stored it answers [false], changing
    and issuing nothing.  After a [/connect] answered with 200, any
    number of consecutive calls all answer [true] and leave the world,
    its log included, as it was. *)
Theorem ensure_connection_contract :
  (forall (w : World D) (c : Client),
      client w = Some c -> ensureConnection env w = (true, w))
  /\ (forall (w : World D) (cfg : ConnectionConfig),
         client w = None -> connectionConfig w = Some cfg ->
         exists w',
           ensureConnection env w = (false, w')
           /\ log w' = log w ++ attemptEvents env cfg
           /\ List.length (filter isStatement (attemptEvents env cfg)) <= 1
           /\ Forall (fun e => isStatement e = true -> isLivenessQuery e = true)
                (attemptEvents env cfg)
           /\ connectionConfig w' = Some cfg
           /\ client w' = None)
  /\ (forall w w1 : World D,
         ensureConnection env w = (true, w1) -> w1 = w /\ exists c, client w = Some c)
  /\ (forall w : World D,
         reachable env w -> connectionConfig w = None ->
         ensureConnection env w = (false, w))
  /\ (forall (b : ConnectBody.t) (w : World D) (n : nat),
         status (fst (connect env b w)) = 200 ->
         ensureTimes env n (snd (connect env b w))
         = (repeat true n, snd (connect env b w))).
Proof.
  split; [|split; [|split; [|split]]].
  - intros w c Hc. exact (ensureConnection_live env w c Hc).
  - intros w cfg Hc Hk.
    destruct (ensureConnection_reconnect env w cfg Hc Hk) as (w' & E & Hl & Hk' & _ & Hc').
    destruct (attemptEvents_statements env cfg) as [Hall Hlen].
    exists w'. repeat split; assumption.
  - intros w w1 E. exact (ensureConnection_true env w w1 E).
  - intros w Hr Hk. apply ensureConnection_unset; [|exact Hk].
    destruct (client w) as [c|] eqn:Ec; [|reflexivity].
    pose proof (reachable_invariant env w Hr c Ec) as Hinv. congruence.
  - intros b w n Hs.
    destruct (connect_effect env b w) as (_ & _ & _ & [[_ Hc]|[Hs' _]]).
    + exact (ensureTimes_live n _ _ Hc).
    + rewrite Hs in Hs'. discriminate.
Qed.

(** C2, as the code has it.  [/connect] stores the configuration built
    from the request before it tries anything, so after every call,
    answered with 200 or with 500, [connectionConfig] is that
    configuration; the call makes one connection attempt with it; on 200
    [client] is the client created from it, on 500 [client] is unset; and
    after a 500 the next [ensureConnection] makes its attempt with the
    configuration of the failed request. *)
Theorem connect_stores_attempted_config :
  forall (b : ConnectBody.t) (w : World D),
    connectionConfig (snd (connect env b w)) = Some (configOf b)
    /\ log (snd (connect env b w)) = log w ++ attemptEvents env (configOf b)
    /\ ((status (fst (connect env b w)) = 200
         /\ client (snd (connect env b w)) = Some {| boundTo := configOf b |})
        \/ (status (fst (connect env b w)) = 500
            /\ client (snd (connect env b w)) = None))
    /\ (status (fst (connect env b w)) = 500 ->
        log (snd (ensureConnection env (snd (connect env b w))))
        = log (snd (connect env b w)) ++ attemptEvents env (configOf b)).
Proof.
  intros b w.
  destruct (connect_effect env b w) as (Hk & Hd & Hl & Hcases).
  repeat split; try assumption.
  intros Hs. destruct Hcases as [[Hs' _]|[_ Hc]].
  - rewrite Hs in Hs'. discriminate.
  - destruct (ensureConnection_reconnect env _ _ Hc Hk) as (w' & E & Hl' & _).
    rewrite E. exact Hl'.
Qed.

Lemma startsWith_append (prefix rest : string) :
  JS.startsWith (prefix ++ rest)%string prefix = true.
Proof.
  unfold JS.startsWith. induction prefix as [|c prefix IH]; simpl.
  - destruct rest; reflexivity.
  - rewrite Ascii.eqb_refl. exact IH.
Qed.

Lemma cleanHost_http (host rest : string) :
  JS.trim host = ("http://" ++ rest)%string ->
  cleanHost host = JS.removeFirst "https://" rest.
Proof.
  intros H. unfold cleanHost, JS.startsWith. rewrite H. simpl.
  replace (substring 0 0 rest) with EmptyString by (destruct rest; reflexivity).
  simpl.
  destruct (JS.removeFirst "https://" rest); reflexivity.
Qed.

(** C10.  The URL of the configuration [/connect] builds, stores and
    creates its client from always starts with [https://], and so never
    with [http://], whatever the host; a host that after trimming starts
    with [http://] loses that prefix (and the first [https://] further
    on, if any) and is then bound over [https://].  The handler of the
    other server file creates its client from the same configuration. *)
Theorem connect_always_https :
  forall (b : ConnectBody.t) (w : World D),
    JS.startsWith (url (configOf b)) "https://" = true
    /\ JS.startsWith (url (configOf b)) "http://" = false
    /\ connectionConfig (snd (connect env b w)) = Some (configOf b)
    /\ (exists evs,
           log (snd (connect env b w)) = log w ++ CreateClient (configOf b) :: evs
           /\ forall c sql, In (Query c sql) evs -> boundTo c = configOf b)
    /\ (exists evs,
           log (snd (connectEarlier env b w)) = log w ++ CreateClient (configOf b) :: evs
           /\ forall c sql, In (Query c sql) evs -> boundTo c = configOf b)
    /\ (forall rest : string,
           JS.trim (ConnectBody.host b) = ("http://" ++ rest)%string ->
           url (configOf b)
           = ("https://" ++ JS.removeFirst "https://" rest ++ ":" ++ ConnectBody.port b)%string).
Proof.
  intros b w.
  destruct (connect_effect env b w) as (Hk & _ & Hl & _).
  split; [apply (startsWith_append "https://")|].
  split; [reflexivity|]. split; [exact Hk|]. split.
  - rewrite Hl. unfold attemptEvents. eexists. split; [reflexivity|].
    intros c sql Hin.
    destruct (createClientThrows env (configOf b)); simpl in Hin.
    + contradiction.
    + destruct Hin as [Hq|[]]. inversion Hq; subst. reflexivity.
  - split.
    { unfold connectEarlier. simpl. unfold createClient.
      destruct (createClientThrows env (configOf b)) as [e|]; simpl.
      - exists []. split; [reflexivity|]. intros c sql [].
      - unfold clientQuery. simpl.
        exists [Query {| boundTo := configOf b |} liveness].
        split.
        + destruct (dbQuery env {| boundTo := configOf b |} liveness (db w))
            as [[e|rows] d]; simpl; rewrite <- app_assoc; reflexivity.
        + intros c sql [Hq|[]]. inversion Hq; subst. reflexivity. }
    intros rest Hrest. unfold configOf; simpl.
    rewrite (cleanHost_http _ _ Hrest). reflexivity.
Qed.

End ConnectionClaims.

(** C6 on the toy servers.  A live client.  The store that was down
    when [/connect] was tried and is up since: a connection attempt with
    the stored configuration would succeed, yet [ensureConnection] sends
    the liveness query, answers [false] and leaves [client] unset, and
    [/tables] is answered with 400.  The server just started.  Three
    calls after a successful [/connect]. *)
Lemma ensure_connection_contract_witness :
  ensureConnection Toy.env Toy.connected = (true, Toy.connected)
  /\ (reachable ToyMore.envWaking ToyMore.woken
      /\ connects ToyMore.envWaking Toy.good (db ToyMore.woken) = true
      /\ exists w',
           ensureConnection ToyMore.envWaking ToyMore.woken = (false, w')
           /\ log w' = log ToyMore.woken
                       ++ [CreateClient Toy.good; Query {| boundTo := Toy.good |} liveness]
           /\ client w' = None
           /\ fst (tables ToyMore.envWaking ToyMore.woken)
              = json 400 (ErrorBody "Not connected to ClickHouse"))
  /\ ensureConnection Toy.env Toy.start = (false, Toy.start)
  /\ ensureTimes Toy.env 3 Toy.connected = ([true; true; true], Toy.connected).
Proof.
  destruct (ensure_connection_contract Toy.env) as (H1 & _ & _ & H3 & H4).
  destruct (ensure_connection_contract ToyMore.envWaking) as (_ & H2 & _).
  split; [|split; [|split]].
  - apply (H1 Toy.connected {| boundTo := Toy.good |}). reflexivity.
  - split; [|split; [reflexivity|]].
    + apply (reachable_step ToyMore.envWaking ToyMore.asleep (PostConnect Toy.goodBody)).
      apply (reachable_start ToyMore.envWaking).
    + destruct (H2 ToyMore.woken Toy.good eq_refl eq_refl)
        as (w' & E & Hl & _ & _ & _ & Hc).
      exists w'. split; [exact E|]. split; [exact Hl|]. split; [exact Hc|].
      unfold tables. rewrite E. reflexivity.
  - apply H3; [|reflexivity]. apply (reachable_start Toy.env).
  - apply (H4 Toy.goodBody Toy.start 3). reflexivity.
Defined.

(** C2 as claimed fails: on the toy server a [/connect] with a wrong
    password, after a successful one, is answered with 500 and leaves
    the wrong configuration stored in place of the good one; the next
    [ensureConnection] sends its liveness query with the wrong
    credentials. *)
Lemma connect_failure_replaces_config :
  connectionConfig Toy.connected = Some Toy.good
  /\ client Toy.connected = Some {| boundTo := Toy.good |}
  /\ status (fst (connect Toy.env Toy.badBody Toy.connected)) = 500
  /\ client (snd (connect Toy.env Toy.badBody Toy.connected)) = None
  /\ connectionConfig (snd (connect Toy.env Toy.badBody Toy.connected)) = Some Toy.bad
  /\ connectionConfig (snd (connect Toy.env Toy.badBody Toy.connected))
     <> connectionConfig Toy.connected
  /\ log (snd (ensureConnection Toy.env Toy.refused))
     = log Toy.refused ++ [CreateClient Toy.bad; Query {| boundTo := Toy.bad |} liveness].
Proof.
  repeat split; try reflexivity. vm_compute. discriminate.
Qed.

(** C2 as the code has it, on the same run. *)
Lemma connect_stores_attempted_config_witness :
  connectionConfig Toy.refused = Some Toy.bad
  /\ log (snd (ensureConnection Toy.env Toy.refused))
     = log Toy.refused ++ attemptEvents Toy.env Toy.bad.
Proof.
  destruct (connect_stores_attempted_config Toy.env Toy.badBody Toy.connected)
    as (Hk & _ & _ & He).
  split; [exact Hk|]. apply He. reflexivity.
Defined.

(** C10 on the toy server: the host [ http://db.local ] is bound as
    [https://db.local:8443]. *)
Lemma connect_always_https_witness :
  url (configOf Toy.goodBody) = "https://db.local:8443"%string.
Proof.
  destruct (connect_always_https Toy.env Toy.goodBody Toy.start)
    as (_ & _ & _ & _ & _ & H).
  exact (H "db.local"%string eq_refl).
Defined.

(** ** Claims about [/ingest] and [/preview] *)

Section TransportClaims.

Context {D : Type} (env : Env D).

(** [/ingest] on a pair that is neither of the two directions. *)
Lemma ingest_invalid (b : IngestBody.t) (w : World D) :
  validPair (IngestBody.source b) (IngestBody.target b) = false ->
  ingest env b w
  = if touchesStore (IngestBody.source b) (IngestBody.target b)
    then (if fst (ensureConnection env w) then invalidCombination else notConnectedResponse,
          snd (ensureConnection env w))
    else (invalidCombination, w).
Proof.
  unfold validPair, touchesStore, ingest, ensure. intros Hv.
  destruct (String.eqb (IngestBody.source b) "clickhouse");
    destruct (String.eqb (IngestBody.target b) "clickhouse");
    destruct (String.eqb (IngestBody.source b) "flatfile");
    destruct (String.eqb (IngestBody.target b) "flatfile");
    simpl in *; try discriminate; try reflexivity;
    destruct (ensureConnection env w) as [[|] w1]; reflexivity.
Qed.

(** C1, as the code has it.  For a pair that is neither
    (clickhouse, flatfile) nor (flatfile, clickhouse): when neither side
    is [clickhouse] the request is rejected as an invalid combination and
    nothing at all is issued or changed; when one side is [clickhouse],
    [ensureConnection] runs first, and the request is rejected as not
    connected when it answers [false] and as an invalid combination when
    it answers [true].  In both cases no file is read or written, the
    disk is unchanged, and the only statement that can be sent is the
    liveness query, at most once. *)
Theorem ingest_invalid_pair_rejected :
  forall (b : IngestBody.t) (w : World D),
    validPair (IngestBody.source b) (IngestBody.target b) = false ->
    ingest env b w
    = (if touchesStore (IngestBody.source b) (IngestBody.target b)
       then (if fst (ensureConnection env w)
             then invalidCombination else notConnectedResponse,
             snd (ensureConnection env w))
       else (invalidCombination, w))
    /\ disk (snd (ingest env b w)) = disk w
    /\ filter isFileEvent (log (snd (ingest env b w))) = filter isFileEvent (log w)
    /\ exists evs,
         log (snd (ingest env b w)) = log w ++ evs
         /\ Forall (fun e => isStatement e = true -> isLivenessQuery e = true) evs
         /\ List.length (filter isStatement evs) <= 1
         /\ (touchesStore (IngestBody.source b) (IngestBody.target b) = false -> evs = []).
Proof.
  intros b w Hv. rewrite (ingest_invalid b w Hv). split; [reflexivity|].
  destruct (touchesStore (IngestBody.source b) (IngestBody.target b)); simpl.
  - destruct (ensureConnection env w) as [ok w1] eqn:E. simpl.
    destruct (ensureConnection_effect env w _ _ E) as (_ & Hd & _ & _ & _ & evs & Hl & Hev).
    split; [exact Hd|]. rewrite Hl, filter_app.
    destruct Hev as [-> | (cfg & _ & ->)].
    + split; [apply app_nil_r|]. exists []. repeat split; auto.
    + rewrite attemptEvents_no_file.
      destruct (attemptEvents_statements env cfg) as [Hall Hlen].
      split; [apply app_nil_r|]. exists (attemptEvents env cfg).
      repeat split; auto; discriminate.
  - repeat split. exists []. rewrite app_nil_r. repeat split; auto.
Qed.

(** C9.  [/preview] answers 400, sending nothing to the table, when
    [ensureConnection] answers [false].  The projection is [*] for an
    empty column list and the columns joined with a comma otherwise; the
    statement ends with the row limit 100.  When [ensureConnection]
    answers [true], exactly that one statement is sent, and the answer
    carries the rows the store returned, unchanged and in the store's
    order (500 when the store refuses the statement). *)
Theorem preview_contract :
  forall (table : string) (cols : list string) (w : World D),
    (fst (ensureConnection env w) = false ->
     preview env table cols w
     = (json 400 (ErrorBody "Not connected to ClickHouse"),
        snd (ensureConnection env w)))
    /\ projection [] = "*"%string
    /\ (cols <> [] -> projection cols = JS.join ", " cols)
    /\ previewQuery table cols
       = ("SELECT " ++ projection cols ++ " FROM " ++ table ++ " LIMIT 100")%string
    /\ (fst (ensureConnection env w) = true ->
        exists c,
          client (snd (ensureConnection env w)) = Some c
          /\ log (snd (preview env table cols w))
             = log (snd (ensureConnection env w)) ++ [Query c (previewQuery table cols)]
          /\ fst (preview env table cols w)
             = match fst (dbQuery env c (previewQuery table cols)
                            (db (snd (ensureConnection env w)))) with
               | inr rows => json 200 (RowsBody rows)
               | inl _ => json 500 (ErrorBody "Failed to fetch preview")
               end).
Proof.
  intros table cols w. unfold preview.
  destruct (ensureConnection env w) as [ok w1] eqn:E. simpl.
  split; [intros ->; reflexivity|].
  split; [reflexivity|].
  split; [destruct cols; [congruence|reflexivity]|].
  split; [reflexivity|].
  intros ->. simpl.
  destruct (ensureConnection_effect env w _ _ E) as (_ & _ & Hc & _).
  destruct (Hc eq_refl) as [c Ec]. exists c. split; [exact Ec|].
  unfold clientQuery. rewrite Ec.
  destruct (dbQuery env c (previewQuery table cols) (db w1)) as [[e|rows] d];
    simpl; split; reflexivity.
Qed.

End TransportClaims.

(** C1 as claimed fails: on the toy server, after a refused [/connect],
    a request from [clickhouse] to [clickhouse] makes a reconnection
    attempt, liveness query included, and is rejected as not connected,
    not as an invalid combination. *)
Lemma ingest_invalid_pair_queries_store :
  validPair "clickhouse" "clickhouse" = false
  /\ reachable Toy.env Toy.refused
  /\ fst (ingest Toy.env (Toy.ingestBody "clickhouse" "clickhouse" [] None) Toy.refused)
     = notConnectedResponse
  /\ fst (ingest Toy.env (Toy.ingestBody "clickhouse" "clickhouse" [] None) Toy.refused)
     <> invalidCombination
  /\ log (snd (ingest Toy.env (Toy.ingestBody "clickhouse" "clickhouse" [] None) Toy.refused))
     = log Toy.refused ++ [CreateClient Toy.bad; Query {| boundTo := Toy.bad |} liveness].
Proof.
  split; [reflexivity|]. split.
  - apply (reachable_step Toy.env Toy.connected (PostConnect Toy.badBody)).
    apply (reachable_step Toy.env Toy.start (PostConnect Toy.goodBody)).
    apply (reachable_start Toy.env).
  - repeat split; try reflexivity. vm_compute. discriminate.
Qed.

(** C1 as the code has it, on the toy server: a request from [flatfile]
    to [flatfile] is rejected with nothing issued. *)
Lemma ingest_invalid_pair_rejected_witness :
  ingest Toy.env (Toy.ingestBody "flatfile" "flatfile" [] None) Toy.refused
  = (invalidCombination, Toy.refused).
Proof.
  apply (ingest_invalid_pair_rejected Toy.env
           (Toy.ingestBody "flatfile" "flatfile" [] None) Toy.refused).
  reflexivity.
Defined.

(** C9 on the toy server: the preview of table [t] with no column chosen. *)
Lemma preview_contract_witness :
  exists c,
    client (snd (ensureConnection Toy.env Toy.connected)) = Some c
    /\ log (snd (preview Toy.env "t" [] Toy.connected))
       = log (snd (ensureConnection Toy.env Toy.connected))
         ++ [Query c "SELECT * FROM t LIMIT 100"]
    /\ fst (preview Toy.env "t" [] Toy.connected)
       = json 200 (RowsBody [ [("a", JNum 1); ("b", JNum 2)]%string;
                              [("a", JNum 3); ("b", JNum 4); ("c", JNum 5)]%string ]).
Proof.
  destruct (preview_contract Toy.env "t" [] Toy.connected) as (_ & _ & _ & _ & H).
  destruct (H eq_refl) as (c & Hc & Hl & Hr).
  exists c. split; [exact Hc|]. split; [exact Hl|].
  rewrite Hr. vm_compute in Hc. inversion Hc; subst. reflexivity.
Defined.

(** ** Steps on the disk *)

Section DiskSteps.

Context {D : Type}.

Lemma getProp_files_other (p q content : string) (fs : list (string * string)) :
  q <> p ->
  getProp ((p, content) :: filter (fun f => negb (String.eqb p (fst f))) fs) q
  = getProp fs q.
Proof.
  intros Hne. cbn [getProp].
  destruct (String.eqb_spec p q) as [->|_]; [contradiction|].
  induction fs as [|[k v] fs IH]; simpl; [reflexivity|].
  destruct (String.eqb_spec p k) as [->|Hk]; simpl.
  - destruct (String.eqb_spec k q) as [->|_]; [contradiction|exact IH].
  - rewrite IH. reflexivity.
Qed.

Lemma parentMissing_none (k : Disk) (syscall p : string) :
  parentMissing k syscall p = None <-> isDir k (Path.dirname p) = true.
Proof.
  unfold parentMissing. destruct (isDir k (Path.dirname p)).
  - split; reflexivity.
  - destruct (isFile k (Path.dirname p)); split; discriminate.
Qed.


(** A write that returns: the target was no directory, the directory
    that holds it was there, and the file now has the content. *)
Lemma writeFile_returned (p content : string) (w w' : World D) (u : unit) :
  writeFile p content w = (Returned u, w') ->
  isDir (disk w) p = false
  /\ isDir (disk w) (Path.dirname p) = true
  /\ fileAt (disk w') p = Some content
  /\ (forall q, q <> p -> fileAt (disk w') q = fileAt (disk w) q)
  /\ dirs (disk w') = dirs (disk w)
  /\ client w' = client w /\ connectionConfig w' = connectionConfig w
  /\ db w' = db w
  /\ log w' = log w ++ [WriteFile p content].
Proof.
  unfold writeFile. intros H.
  destruct (isDir (disk w) p) eqn:Hd; [discriminate|].
  destruct (parentMissing (disk w) "open" p) as [e|] eqn:Hp; [discriminate|].
  apply parentMissing_none in Hp. inversion H; subst.
  unfold fileAt. cbn [disk emit setDisk files dirs client connectionConfig db log].
  split; [reflexivity|]. split; [exact Hp|].
  split; [cbn [getProp]; rewrite String.eqb_refl; reflexivity|].
  split; [intros q Hq; apply getProp_files_other; exact Hq|].
  repeat split.
Qed.

(** Writing a file into a directory that is there, where no directory
    is. *)
Lemma writeFile_ok (p content : string) (w : World D) :
  isDir (disk w) p = false ->
  isDir (disk w) (Path.dirname p) = true ->
  exists w', writeFile p content w = (Returned tt, w').
Proof.
  intros Hd Hp. unfold writeFile. rewrite Hd.
  apply (parentMissing_none (disk w) "open" p) in Hp. rewrite Hp. eauto.
Qed.


(** Making a directory that is not there, below one that is. *)
Lemma mkdirSync_ok (p : string) (w : World D) :
  isDir (disk w) p = false -> isFile (disk w) p = false ->
  isDir (disk w) (Path.dirname p) = true ->
  mkdirSync p w
  = (Returned tt,
     emit (MkdirSync p) (setDisk {| dirs := p :: dirs (disk w); files := files (disk w) |} w)).
Proof.
  intros Hd Hf Hp. unfold mkdirSync. rewrite Hd, Hf. cbn [orb].
  apply (parentMissing_none (disk w) "mkdir" p) in Hp. rewrite Hp. reflexivity.
Qed.

(** What a [mkdirSync] that returns leaves: one directory more. *)
Lemma mkdirSync_returned (p : string) (w w' : World D) (u : unit) :
  mkdirSync p w = (Returned u, w') ->
  dirs (disk w') = p :: dirs (disk w)
  /\ files (disk w') = files (disk w)
  /\ db w' = db w
  /\ log w' = log w ++ [MkdirSync p].
Proof.
  unfold mkdirSync. intros H.
  destruct (isDir (disk w) p || isFile (disk w) p); [discriminate|].
  destruct (parentMissing (disk w) "mkdir" p); [discriminate|].
  inversion H; subst. repeat split.
Qed.

End DiskSteps.

(** ** Claims about the export, [clickhouseToFlatFile] *)

Section ExportClaims.

Context {D : Type} (env : Env D).

Lemma ensure_again (w w1 : World D) :
  ensureConnection env w = (true, w1) -> ensureConnection env w1 = (true, w1).
Proof.
  intros E.
  destruct (ensureConnection_effect env w _ _ E) as (_ & _ & Hc & _).
  destruct (Hc eq_refl) as [c Ec]. exact (ensureConnection_live env w1 c Ec).
Qed.

(** The export once the connection is ensured and the tables are fetched. *)
Lemma clickhouseToFlatFile_fetched
      (tables : list string) (columns : list (string * list string))
      (targetFile delimiter : option string) (w w1 w2 : World D)
      (results : list Row) (n : nat) :
  ensureConnection env w = (true, w1) ->
  fetchTables env tables columns [] 0 w1 = (Returned (results, n), w2) ->
  clickhouseToFlatFile env tables columns targetFile delimiter w
  = match results with
    | [] => (Returned {| recordCount := 0; message := "No records found to export";
                         filePath := None |}, w2)
    | first :: _ =>
        match writeExport env targetFile first results w2 with
        | (Returned _, w5) =>
            (Returned {| recordCount := n;
                         filePath := Some (safeFileName targetFile);
                         message := ("Successfully exported " ++ JS.ofNat n
                                     ++ " records to " ++ safeFileName targetFile)%string |},
             w5)
        | (Thrown e, w5) => (Thrown e, w5)
        | (Died e, w5) => (Died e, w5)
        end
    end.
Proof.
  intros E F. unfold clickhouseToFlatFile, ensure. cbn [bind]. rewrite E.
  cbn [negb bind]. rewrite F.
  destruct results as [|first rest]; [reflexivity|].
  unfold writeExport. cbn [bind existsSync].
  destruct (negb (isDir (disk w2) (exportsDir env) || isFile (disk w2) (exportsDir env)));
    match goal with
    | |- context [?m (emit (ExistsSync ?p) w2)] =>
        destruct (m (emit (ExistsSync p) w2)) as [[u|e|e] w4]
    end;
    try reflexivity;
    match goal with
    | |- context [writeRecords ?p ?h ?r ?x] =>
        destruct (writeRecords p h r x) as [[u'|e|e] w5]
    end; reflexivity.
Qed.

(** What the steps after the fetch leave when they return: the file is
    written last, it holds the records under the header, the exports
    directory is there, and nothing else changed. *)
Lemma writeExport_returned (targetFile : option string) (first : Row)
      (results : list Row) (w w' : World D) (u : unit) :
  writeExport env targetFile first results w = (Returned u, w') ->
  let path := Path.join [exportsDir env; safeFileName targetFile] in
  let content := CsvWriter.fileContent (headerOf first) results in
  fileAt (disk w') path = Some content
  /\ (forall q, q <> path -> fileAt (disk w') q = fileAt (disk w) q)
  /\ isDir (disk w') (Path.dirname path) = true
  /\ (isDir (disk w) (exportsDir env) = true \/ isFile (disk w) (exportsDir env) = true
      \/ isDir (disk w') (exportsDir env) = true)
  /\ db w' = db w
  /\ (log w' = log w ++ [ExistsSync (exportsDir env); WriteFile path content]
      \/ log w' = log w ++ [ExistsSync (exportsDir env); MkdirSync (exportsDir env);
                            WriteFile path content]).
Proof.
  unfold writeExport, writeRecords. cbn [bind existsSync]. intros H. cbv zeta.
  set (path := Path.join [exportsDir env; safeFileName targetFile]) in *.
  set (content := CsvWriter.fileContent (headerOf first) results) in *.
  set (w3 := emit (ExistsSync (exportsDir env)) w) in *.
  destruct (isDir (disk w) (exportsDir env) || isFile (disk w) (exportsDir env)) eqn:Hp;
    cbn [negb] in H.
  - cbn [ret] in H.
    destruct (writeFile_returned path content w3 w' u H)
      as (_ & Hpar & Hat & Hother & Hdirs & _ & _ & Hdb & Hl).
    split; [exact Hat|]. split; [exact Hother|].
    split; [unfold isDir in *; rewrite Hdirs; exact Hpar|].
    split; [apply orb_true_iff in Hp; tauto|].
    split; [exact Hdb|]. left. rewrite Hl. unfold w3. cbn [log emit].
    rewrite <- app_assoc. reflexivity.
  - destruct (mkdirSync (exportsDir env) w3) as [[u1|e|e] w4] eqn:Hm; try discriminate.
    destruct (mkdirSync_returned _ _ _ _ Hm) as (Hd4 & Hf4 & Hdb4 & Hl4).
    destruct (writeFile_returned path content w4 w' u H)
      as (_ & Hpar & Hat & Hother & Hdirs & _ & _ & Hdb & Hl).
    split; [exact Hat|].
    split; [intros q Hq; rewrite (Hother q Hq); unfold fileAt; rewrite Hf4; reflexivity|].
    split; [unfold isDir in *; rewrite Hdirs; exact Hpar|].
    split.
    { right. right. unfold isDir. rewrite Hdirs, Hd4. cbn [existsb].
      rewrite String.eqb_refl. reflexivity. }
    split; [rewrite Hdb, Hdb4; reflexivity|]. right. rewrite Hl, Hl4. unfold w3.
    cbn [log emit].
    rewrite <- !app_assoc. reflexivity.
Qed.

(** C8.  When the connection is ensured and the queries of all tables
    together return no row, the export returns a result with
    [recordCount] 0 and no file reference; since the call began the disk
    is unchanged and no file-system action was issued (the exports
    directory is neither looked for nor created, nothing is written);
    [/ingest] answers with 0 records and no file. *)
Theorem export_of_nothing_writes_nothing :
  forall (tables : list string) (columns : list (string * list string))
         (targetFile delimiter : option string) (w w1 w2 : World D) (n : nat),
    ensureConnection env w = (true, w1) ->
    fetchTables env tables columns [] 0 w1 = (Returned ([], n), w2) ->
    clickhouseToFlatFile env tables columns targetFile delimiter w
    = (Returned {| recordCount := 0; message := "No records found to export";
                   filePath := None |}, w2)
    /\ disk w2 = disk w
    /\ filter isFileEvent (log w2) = filter isFileEvent (log w)
    /\ ingestOk {| recordCount := 0; message := "No records found to export";
                   filePath := None |}
       = json 200 (IngestOk 0 "No records found to export" None).
Proof.
  intros tables columns targetFile delimiter w w1 w2 n E F.
  split; [exact (clickhouseToFlatFile_fetched _ _ _ _ _ _ _ _ _ E F)|].
  destruct (ensureConnection_effect env w _ _ E) as (_ & Hd & _ & _ & _ & evs & Hl & Hev).
  destruct (fetchTables_keepsDisk env tables columns [] 0 _ _ _ F) as [Hd2 Hf2].
  split; [congruence|]. split; [|reflexivity].
  rewrite Hf2, Hl, filter_app.
  destruct Hev as [-> | (cfg & _ & ->)].
  - apply app_nil_r.
  - rewrite attemptEvents_no_file. apply app_nil_r.
Qed.

Lemma getProp_deleteProp (c k : string) (r : Row) :
  c <> k -> getProp (deleteProp c r) k = getProp r k.
Proof.
  intros Hne. induction r as [|[k' v] r IH]; simpl; [reflexivity|].
  destruct (String.eqb_spec k' c) as [->|Hc]; simpl.
  - destruct (String.eqb_spec c k) as [->|_]; [contradiction|exact IH].
  - rewrite IH. reflexivity.
Qed.

Lemma getRecordAsArray_headerOf (first r : Row) :
  CsvWriter.getRecordAsArray (headerOf first) r
  = map (fun k => CsvWriter.cell (lookup r k)) (keys first).
Proof.
  unfold CsvWriter.getRecordAsArray, headerOf. rewrite map_map. reflexivity.
Qed.

Lemma lookup_agree (r r' : Row) (k : string) :
  getProp r k = getProp r' k -> lookup r k = lookup r' k.
Proof. intros H. unfold lookup. rewrite H. reflexivity. Qed.

Lemma getRecordAsArray_agree (first r r' : Row) :
  agreeOn (keys first) r r' ->
  CsvWriter.getRecordAsArray (headerOf first) r
  = CsvWriter.getRecordAsArray (headerOf first) r'.
Proof.
  intros H. rewrite !getRecordAsArray_headerOf.
  apply map_ext_in. intros k Hk. rewrite (lookup_agree r r' k (H k Hk)). reflexivity.
Qed.

Lemma fileContent_agree (first : Row) (rows rows' : list Row) :
  Forall2 (agreeOn (keys first)) rows rows' ->
  CsvWriter.fileContent (headerOf first) rows
  = CsvWriter.fileContent (headerOf first) rows'.
Proof.
  intros H. unfold CsvWriter.fileContent, CsvWriter.stringifyRecords.
  assert (E : map (fun r => CsvWriter.getCsvLine
                              (CsvWriter.getRecordAsArray (headerOf first) r)) rows
              = map (fun r => CsvWriter.getCsvLine
                                (CsvWriter.getRecordAsArray (headerOf first) r)) rows').
  { induction H as [|r r' rows rows' Hr _ IH]; simpl; [reflexivity|].
    rewrite (getRecordAsArray_agree _ _ _ Hr), IH. reflexivity. }
  rewrite E. reflexivity.
Qed.

Lemma agreeOn_deleteProp (first : Row) (c : string) (rows : list Row) :
  ~ In c (keys first) ->
  Forall2 (agreeOn (keys first)) (map (deleteProp c) rows) rows.
Proof.
  intros Hc. induction rows as [|r rows IH]; simpl; constructor; [|exact IH].
  intros k Hk. apply getProp_deleteProp. intros ->. contradiction.
Qed.

End ExportClaims.

(** ** Claims about the exported file and its name *)

Section ExportFileClaims.

Context {D : Type} (env : Env D).

Lemma headerOf_ids (first : Row) :
  map CsvWriter.id (headerOf first) = keys first
  /\ map CsvWriter.title (headerOf first) = keys first.
Proof.
  unfold headerOf. rewrite !map_map. simpl. rewrite map_id. auto.
Qed.

Lemma getHeaderString_headerOf (first : Row) :
  keys first <> [] ->
  CsvWriter.getHeaderString (headerOf first)
  = (CsvWriter.getCsvLine (map CsvWriter.quoteField (keys first)) ++ CsvWriter.lf)%string.
Proof.
  intros Hne. unfold headerOf, CsvWriter.getHeaderString.
  destruct (keys first) as [|k ks]; [congruence|].
  simpl map. unfold CsvWriter.joinRecords. simpl JS.join.
  rewrite map_map. reflexivity.
Qed.

Lemma agreeOn_refl (header : list string) (r : Row) : agreeOn header r r.
Proof. intros k _. reflexivity. Qed.

Lemma quoteField_not_empty (field : string) :
  field <> EmptyString -> CsvWriter.quoteField field <> EmptyString.
Proof.
  intros Hne. unfold CsvWriter.quoteField.
  destruct (CsvWriter.needsQuote field); [discriminate|exact Hne].
Qed.

(** C4, as the code has it.  When the connection is ensured and the
    tables return the rows [first :: rest], an export that returns has
    written, as its last action, the content produced from the header
    made of the keys of [first] and from all the rows, and the file holds
    it.  The header is exactly the keys of [first], each once for each
    time [first] has it, in the order of [Object.keys]: the keys that are
    array indices first, by ascending index, then the other keys in the
    order they were created; so it is the creation order when no key of
    [first] is an array index.  Every data line has one cell per key of
    [first], the cell of key [k] being made of [row[k]]: it is empty when
    the row has no field [k] and no object inherits a property [k], and
    it is the printed form of the inherited property, not empty, when the
    row has no field [k] and [k] is a key of [Object.prototype].  What a
    later row holds under a key that [first] does not have never reaches
    the file: deleting such a field from the later rows, or replacing the
    later rows by rows that agree with them on the keys of [first], gives
    the same content. *)
Theorem export_header_from_first_row :
  forall (tables : list string) (columns : list (string * list string))
         (targetFile delimiter : option string) (w w1 w2 : World D)
         (first : Row) (rest : list Row) (n : nat),
    ensureConnection env w = (true, w1) ->
    fetchTables env tables columns [] 0 w1 = (Returned (first :: rest, n), w2) ->
    (forall (res : TransferResult) (w' : World D),
        clickhouseToFlatFile env tables columns targetFile delimiter w = (Returned res, w') ->
        fileAt (disk w') (Path.join [exportsDir env; safeFileName targetFile])
        = Some (CsvWriter.fileContent (headerOf first) (first :: rest))
        /\ exists evs,
             log w' = log w2 ++ evs
                      ++ [WriteFile (Path.join [exportsDir env; safeFileName targetFile])
                            (CsvWriter.fileContent (headerOf first) (first :: rest))])
    /\ map CsvWriter.id (headerOf first) = keys first
    /\ map CsvWriter.title (headerOf first) = keys first
    /\ Permutation (keys first) (map fst first)
    /\ StronglySorted keyOrder (keys first)
    /\ filter (fun k => negb (JS.isIndexKey k)) (keys first)
       = filter (fun k => negb (JS.isIndexKey k)) (map fst first)
    /\ ((forall k, In k (map fst first) -> JS.isIndexKey k = false) ->
        keys first = map fst first)
    /\ (keys first <> [] ->
        CsvWriter.getHeaderString (headerOf first)
        = (CsvWriter.getCsvLine (map CsvWriter.quoteField (keys first))
           ++ CsvWriter.lf)%string)
    /\ CsvWriter.fileContent (headerOf first) (first :: rest)
       = (CsvWriter.getHeaderString (headerOf first)
          ++ CsvWriter.joinRecords
               (map (fun r => CsvWriter.getCsvLine
                                (map (fun k => CsvWriter.cell (lookup r k))
                                     (keys first)))
                    (first :: rest)))%string
    /\ (forall (r : Row) (k : string),
           getProp r k = None -> JS.inherited JS.objectPrototype k = None ->
           CsvWriter.cell (lookup r k) = EmptyString)
    /\ (forall (r : Row) (k : string) (m : JS.ProtoMember),
           getProp r k = None -> JS.inherited JS.objectPrototype k = Some m ->
           CsvWriter.cell (lookup r k) = CsvWriter.quoteField (JS.protoText m)
           /\ CsvWriter.cell (lookup r k) <> EmptyString)
    /\ (forall c : string,
           ~ In c (keys first) ->
           CsvWriter.fileContent (headerOf first) (first :: map (deleteProp c) rest)
           = CsvWriter.fileContent (headerOf first) (first :: rest))
    /\ (forall rest' : list Row,
           Forall2 (agreeOn (keys first)) rest' rest ->
           CsvWriter.fileContent (headerOf first) (first :: rest')
           = CsvWriter.fileContent (headerOf first) (first :: rest)).
Proof.
  intros tables columns targetFile delimiter w w1 w2 first rest n E F.
  split.
  { intros res w' H.
    rewrite (clickhouseToFlatFile_fetched env _ _ targetFile delimiter _ _ _ _ _ E F) in H.
    destruct (writeExport env targetFile first (first :: rest) w2) as [[u|e|e] w5] eqn:Hw;
      try discriminate.
    inversion H; subst.
    destruct (writeExport_returned env _ _ _ _ _ _ Hw) as (Hat & _ & _ & _ & _ & Hl).
    split; [exact Hat|].
    destruct Hl as [Hl|Hl]; rewrite Hl.
    - exists [ExistsSync (exportsDir env)]. reflexivity.
    - exists [ExistsSync (exportsDir env); MkdirSync (exportsDir env)]. reflexivity. }
  destruct (headerOf_ids first) as [Hid Htitle].
  split; [exact Hid|]. split; [exact Htitle|].
  split; [apply keys_perm|]. split; [apply keys_ordered|].
  split; [apply keys_others|]. split; [apply keys_plain|].
  split; [exact (getHeaderString_headerOf first)|].
  split.
  { unfold CsvWriter.fileContent, CsvWriter.stringifyRecords.
    apply f_equal. apply (f_equal CsvWriter.joinRecords).
    apply map_ext. intros r. rewrite getRecordAsArray_headerOf. reflexivity. }
  split; [intros r k H1 H2; unfold lookup; rewrite H1, H2; reflexivity|].
  split.
  { intros r k m H1 H2. unfold lookup. rewrite H1, H2. cbn [CsvWriter.cell].
    split; [reflexivity|]. apply quoteField_not_empty. destruct m; discriminate. }
  split.
  - intros c Hc. apply fileContent_agree. constructor; [apply agreeOn_refl|].
    apply agreeOn_deleteProp. exact Hc.
  - intros rest' H. apply fileContent_agree. constructor; [apply agreeOn_refl|exact H].
Qed.

Lemma takeWhile_all (p : ascii -> bool) (l : list ascii) :
  Forall (fun c => p c = true) (Path.takeWhile p l).
Proof.
  induction l as [|c l IH]; simpl; [constructor|].
  destruct (p c) eqn:E; constructor; assumption.
Qed.

(** The name [path.basename] returns holds no separator. *)
Lemma basename_no_separator (p : string) :
  Forall (fun c => Path.isSep c = false) (list_ascii_of_string (Path.basename p)).
Proof.
  unfold Path.basename. rewrite list_ascii_of_string_of_list_ascii.
  apply Forall_rev.
  eapply Forall_impl; [|apply takeWhile_all].
  intros c H. simpl in H. destruct (Path.isSep c); [discriminate|reflexivity].
Qed.

Lemma safeFileName_default :
  safeFileName None = "export.csv"%string
  /\ safeFileName (Some EmptyString) = "export.csv"%string.
Proof. split; reflexivity. Qed.

(** The result of an export names no file or the sanitized name, never a
    path. *)
Lemma export_result_names_file
      (tables : list string) (columns : list (string * list string))
      (targetFile delimiter : option string) (w w' : World D) (res : TransferResult) :
  clickhouseToFlatFile env tables columns targetFile delimiter w = (Returned res, w') ->
  filePath res = None \/ filePath res = Some (safeFileName targetFile).
Proof.
  intros H. destruct (ensureConnection env w) as [[|] w1] eqn:E.
  - destruct (fetchTables env tables columns [] 0 w1) as [[[results n]|e|e] w2] eqn:F.
    + rewrite (clickhouseToFlatFile_fetched env _ _ targetFile delimiter _ _ _ _ _ E F)
        in H.
      destruct results as [|first rest].
      * inversion H; subst. left. reflexivity.
      * destruct (writeExport env targetFile first (first :: rest) w2) as [[u|e|e] w5];
          inversion H; subst. right. reflexivity.
    + unfold clickhouseToFlatFile, ensure in H. cbn [bind] in H. rewrite E in H.
      cbn [negb bind] in H. rewrite F in H. discriminate.
    + unfold clickhouseToFlatFile, ensure in H. cbn [bind] in H. rewrite E in H.
      cbn [negb bind] in H. rewrite F in H. discriminate.
  - unfold clickhouseToFlatFile, ensure in H. cbn [bind] in H. rewrite E in H.
    discriminate.
Qed.

End ExportFileClaims.

(** C8 on the toy server: the export of the empty table [u]. *)
Lemma export_of_nothing_writes_nothing_witness :
  exists w2,
    clickhouseToFlatFile Toy.env ["u"%string] [] None None Toy.connected
    = (Returned {| recordCount := 0; message := "No records found to export";
                   filePath := None |}, w2)
    /\ disk w2 = disk Toy.connected
    /\ filter isFileEvent (log w2) = filter isFileEvent (log Toy.connected).
Proof.
  eexists.
  refine (let H := export_of_nothing_writes_nothing Toy.env ["u"%string] [] None None
                     Toy.connected Toy.connected _ 0 eq_refl eq_refl in _).
  destruct H as (H1 & H2 & H3 & _). repeat split; eassumption.
Defined.

(** C4 as claimed fails on the toy server.  Table [marks] returns the row
    [{"pupil": "Ann", "7": 15}]: the header of the exported file is
    [7,pupil], not the keys as the row lists them.  Tables [teams] and
    [drivers] return [{"constructor": "Ferrari", "wins": 3}] and
    [{"name": "Sainz", "wins": 5}]: the second row has no field
    [constructor], and its cell in that column is not empty. *)
Lemma export_header_not_creation_order :
  map fst (hd [] (Toy.answer "SELECT * FROM marks")) = ["pupil"; "7"]%string
  /\ fileAt (disk (snd (ingest Toy.env
                          (Toy.ingestBody "clickhouse" "flatfile" ["marks"%string] None)
                          Toy.connected)))
       "/srv/app/exports/export.csv"
     = Some ("7,pupil" ++ CsvWriter.lf ++ "15,Ann" ++ CsvWriter.lf)%string
  /\ getProp (hd [] (Toy.answer "SELECT * FROM drivers")) "constructor" = None
  /\ fileAt (disk (snd (ingest Toy.env
                          (Toy.ingestBody "clickhouse" "flatfile"
                             ["teams"; "drivers"]%string None)
                          Toy.connected)))
       "/srv/app/exports/export.csv"
     = Some ("constructor,wins" ++ CsvWriter.lf
             ++ "Ferrari,3" ++ CsvWriter.lf
             ++ "function Object() { [native code] },5" ++ CsvWriter.lf)%string.
Proof. repeat split. Qed.

(** C4 on the toy server: table [t] holds [{a:1,b:2}] and
    [{a:3,b:4,c:5}]; the file has the header [a,b] and no trace of [c]. *)
Lemma export_header_from_first_row_witness :
  exists (w' : World Toy.Db) evs,
    fileAt (disk w') "/srv/app/exports/export.csv"
    = Some ("a,b" ++ CsvWriter.lf ++ "1,2" ++ CsvWriter.lf ++ "3,4" ++ CsvWriter.lf)%string
    /\ log w'
       = log Toy.connected
         ++ [Query {| boundTo := Toy.good |} "SELECT * FROM t"] ++ evs
         ++ [WriteFile "/srv/app/exports/export.csv"
               ("a,b" ++ CsvWriter.lf ++ "1,2" ++ CsvWriter.lf ++ "3,4" ++ CsvWriter.lf)%string].
Proof.
  refine (let H := export_header_from_first_row Toy.env ["t"%string] [] None None
                     Toy.connected Toy.connected _ _ _ 2 eq_refl eq_refl in _).
  destruct H as (H & _).
  set (r := clickhouseToFlatFile Toy.env ["t"%string] [] None None Toy.connected) in H.
  assert (Ex : r = (Returned {| recordCount := 2;
                               filePath := Some "export.csv"%string;
                               message := "Successfully exported 2 records to export.csv" |},
                    snd r)) by (vm_compute; reflexivity).
  destruct (H _ _ Ex) as (Hat & evs & Hl).
  exists (snd r), evs. split; [exact Hat|exact Hl].
Defined.

(** C5 at the failing input [..]: [path.basename] returns [..] itself,
    and joined to the exports directory it names the directory above it,
    [__dirname].  The export attempts its write there; the target being
    a directory, the write fails, [/ingest] answers 500 and no file is
    changed.  The download looks there and finds it; being a directory
    it is not sent, and the answer is the 404 of Express itself. *)
Theorem export_dotdot_leaves_exports_directory :
  exportsDir Toy.env = "/srv/app/exports"%string
  /\ safeFileName (Some ".."%string) = ".."%string
  /\ Path.join [exportsDir Toy.env; safeFileName (Some ".."%string)] = "/srv/app"%string
  /\ Path.inside (exportsDir Toy.env)
       (Path.join [exportsDir Toy.env; safeFileName (Some ".."%string)]) = false
  /\ In (WriteFile "/srv/app"
           ("a,b" ++ CsvWriter.lf ++ "1,2" ++ CsvWriter.lf ++ "3,4" ++ CsvWriter.lf)%string)
        (log (snd (ingest Toy.env
                     (Toy.ingestBody "clickhouse" "flatfile" ["t"%string] (Some ".."%string))
                     Toy.connected)))
  /\ fst (ingest Toy.env
            (Toy.ingestBody "clickhouse" "flatfile" ["t"%string] (Some ".."%string))
            Toy.connected)
     = json 500 (ErrorMessage "Failed to perform data ingestion"
                   "EISDIR: illegal operation on a directory, open '/srv/app'")
  /\ files (disk (snd (ingest Toy.env
                         (Toy.ingestBody "clickhouse" "flatfile" ["t"%string]
                            (Some ".."%string))
                         Toy.connected)))
     = files (disk Toy.connected)
  /\ downloadPath Toy.env ".." = "/srv/app"%string
  /\ Path.inside (exportsDir Toy.env) (downloadPath Toy.env "..") = false
  /\ existsb (String.eqb (downloadPath Toy.env "..")) (dirs (disk Toy.connected)) = true
  /\ fst (download Toy.env ".." Toy.connected) = json 404 CannotGet.
Proof.
  repeat split; vm_compute; auto 10.
Qed.

(** For contrast, the name of the specification's example stays inside. *)
Example export_passwd_stays_inside :
  safeFileName (Some "../../etc/passwd"%string) = "passwd"%string
  /\ Path.join [exportsDir Toy.env; safeFileName (Some "../../etc/passwd"%string)]
     = "/srv/app/exports/passwd"%string
  /\ downloadPath Toy.env "../../etc/passwd" = "/srv/app/exports/passwd"%string.
Proof. repeat split. Qed.

(** ** Claims about the import, [flatFileToClickhouse] *)

Section ImportClaims.

Context {D : Type} (env : Env D).

Lemma advance_emit (w : World D) (c : Client) (sql : string) (d d' : D)
      (evs : list Event) :
  advance (emit (Exec c sql) (setDb d w)) d' evs = advance w d' (Exec c sql :: evs).
Proof.
  unfold advance, emit, setDb. simpl. rewrite <- app_assoc. reflexivity.
Qed.

(** The insert loop when the insert of record number [k] (counting from
    0) is the first to fail. *)
Lemma insertRows_fails_at (targetTable : string) (c : Client) :
  forall (rows : list CsvRecord) (k : nat) (row : CsvRecord) (w : World D)
         (err : Error) (dk d' : D),
    client w = Some c ->
    nth_error rows k = Some row ->
    runExecs env c (map (insertQuery targetTable) (firstn k rows)) (db w) = Some dk ->
    dbExec env c (insertQuery targetTable row) dk = (Some err, d') ->
    insertRows env targetTable rows w
    = (Thrown err,
       advance w d' (map (insertEvent c targetTable) (firstn (S k) rows))).
Proof.
  induction rows as [|row0 rest IH]; intros k row w err dk d' Hc Hn Hrun Hfail.
  - destruct k; discriminate.
  - destruct k as [|k].
    + simpl in Hn, Hrun. inversion Hn; subst. inversion Hrun; subst.
      simpl. unfold clientExec. rewrite Hc, Hfail. reflexivity.
    + simpl in Hn. cbn [firstn map runExecs] in Hrun.
      destruct (dbExec env c (insertQuery targetTable row0) (db w)) as [[e|] d1] eqn:E0;
        [discriminate|].
      cbn [insertRows]. simpl. unfold clientExec at 1. rewrite Hc, E0.
      rewrite (IH k row _ err dk d'); auto.
      cbn [firstn map]. rewrite advance_emit. reflexivity.
Qed.

(** The insert loop sends inserts only: those of the first records, in
    file order. *)
Lemma insertRows_log (targetTable : string) (c : Client) :
  forall (rows : list CsvRecord) (w : World D),
    client w = Some c ->
    exists k,
      log (snd (insertRows env targetTable rows w))
      = log w ++ map (insertEvent c targetTable) (firstn k rows).
Proof.
  induction rows as [|row0 rest IH]; intros w Hc.
  - exists 0. simpl. rewrite app_nil_r. reflexivity.
  - cbn [insertRows]. simpl. unfold clientExec at 1. rewrite Hc.
    destruct (dbExec env c (insertQuery targetTable row0) (db w)) as [[e|] d1].
    + exists 1. reflexivity.
    + destruct (IH (emit (Exec c (insertQuery targetTable row0)) (setDb d1 w)) Hc)
        as [k Hk].
      exists (S k). rewrite Hk. simpl. rewrite <- app_assoc. reflexivity.
Qed.

(** The import once the connection is ensured and the file is parsed. *)
Lemma flatFileToClickhouse_parsed
      (path targetTable : string) (delimiter : option string)
      (w w1 : World D) (c : Client) (first : CsvRecord) (rest : list CsvRecord) :
  ensureConnection env w = (true, w1) ->
  client w1 = Some c ->
  parseCsv env (delimiterOr delimiter) path (disk w1) = inr (first :: rest) ->
  flatFileToClickhouse env path targetTable delimiter w
  = let create := createTableQuery targetTable (keys first) in
    let w3 := advance w1 (snd (dbExec env c create (db w1)))
                [ReadStream path; Exec c create] in
    match fst (dbExec env c create (db w1)) with
    | Some e => (Thrown e, w3)
    | None =>
        match insertRows env targetTable (first :: rest) w3 with
        | (Returned _, w4) =>
            (Returned {| recordCount := List.length (first :: rest);
                         message := ("Successfully imported "
                                     ++ JS.ofNat (List.length (first :: rest))
                                     ++ " records to " ++ targetTable)%string;
                         filePath := None |}, w4)
        | (Thrown e, w4) => (Thrown e, w4)
        | (Died e, w4) => (Died e, w4)
        end
    end.
Proof.
  intros E Ec P. unfold flatFileToClickhouse, ensure.
  cbn [bind]. rewrite E. cbn [negb bind].
  unfold readRecords at 1. rewrite P.
  unfold clientExec at 1. cbn [bind client emit db]. rewrite Ec.
  cbv zeta.
  destruct (dbExec env c (createTableQuery targetTable (keys first)) (db w1))
    as [[e|] d1]; cbn [fst snd].
  - unfold advance, emit, setDb. cbn. rewrite <- app_assoc. reflexivity.
  - replace (emit (Exec c (createTableQuery targetTable (keys first)))
               (setDb d1 (emit (ReadStream path) w1)))
      with (advance w1 d1 [ReadStream path;
                           Exec c (createTableQuery targetTable (keys first))]).
    + cbn [bind]. destruct (insertRows env targetTable (first :: rest) _) as [[u|e|e] w4];
        reflexivity.
    + unfold advance, emit, setDb. cbn. rewrite <- app_assoc. reflexivity.
Qed.

(** C7.  When the connection is ensured and the file parses to the
    records [first :: rest], the first statement the import sends is the
    create-table statement built from the keys of [first] alone; it is
    the only statement that is not an insert of one of the records.  Its
    text is [CREATE TABLE IF NOT EXISTS], the target table, one column
    definition [<key> String] per key of [first], in key order, the
    engine, and [ORDER BY tuple()]. *)
Theorem import_creates_table_from_first_record :
  forall (path targetTable : string) (delimiter : option string)
         (w w1 : World D) (first : CsvRecord) (rest : list CsvRecord),
    ensureConnection env w = (true, w1) ->
    parseCsv env (delimiterOr delimiter) path (disk w1) = inr (first :: rest) ->
    exists c,
      client w1 = Some c
      /\ (exists k,
             log (snd (flatFileToClickhouse env path targetTable delimiter w))
             = log w1
               ++ ReadStream path
               :: Exec c (createTableQuery targetTable (keys first))
               :: map (insertEvent c targetTable) (firstn k (first :: rest)))
      /\ createTableQuery targetTable (keys first)
         = (nl ++ spaces 14 ++ "CREATE TABLE IF NOT EXISTS " ++ targetTable ++ " ("
            ++ nl ++ spaces 16
            ++ JS.join ", " (map (fun col => col ++ " String") (keys first))
            ++ nl ++ spaces 14 ++ ") ENGINE = MergeTree()"
            ++ nl ++ spaces 14 ++ "ORDER BY tuple()"
            ++ nl ++ spaces 12)%string.
Proof.
  intros path targetTable delimiter w w1 first rest E P.
  destruct (ensureConnection_effect env w _ _ E) as (_ & _ & Hc & _).
  destruct (Hc eq_refl) as [c Ec]. exists c. split; [exact Ec|].
  split; [|reflexivity].
  rewrite (flatFileToClickhouse_parsed path targetTable delimiter w w1 c first rest E Ec P).
  cbv zeta.
  set (create := createTableQuery targetTable (keys first)).
  set (w3 := advance w1 (snd (dbExec env c create (db w1)))
               [ReadStream path; Exec c create]).
  destruct (fst (dbExec env c create (db w1))) as [e|].
  - exists 0. reflexivity.
  - assert (Hc3 : client w3 = Some c) by exact Ec.
    destruct (insertRows_log targetTable c (first :: rest) w3 Hc3) as [k Hk].
    exists k.
    destruct (insertRows env targetTable (first :: rest) w3) as [[u|e|e] w4];
      cbn [snd] in Hk |- *; rewrite Hk; unfold w3, advance; cbn [log];
      rewrite <- app_assoc; reflexivity.
Qed.

(** The import when the insert of record number [k] is the first
    statement to be refused. *)
Lemma flatFileToClickhouse_refused
      (path targetTable : string) (delimiter : option string)
      (w w1 : World D) (c : Client) (rows : list CsvRecord)
      (k : nat) (row : CsvRecord) (err : Error) (dk d' : D) :
  ensureConnection env w = (true, w1) ->
  client w1 = Some c ->
  parseCsv env (delimiterOr delimiter) path (disk w1) = inr rows ->
  nth_error rows k = Some row ->
  runExecs env c
    (createTableQuery targetTable (keys (hd [] rows))
     :: map (insertQuery targetTable) (firstn k rows)) (db w1) = Some dk ->
  dbExec env c (insertQuery targetTable row) dk = (Some err, d') ->
  flatFileToClickhouse env path targetTable delimiter w
  = (Thrown err,
     advance w1 d'
       (ReadStream path
        :: Exec c (createTableQuery targetTable (keys (hd [] rows)))
        :: map (insertEvent c targetTable) (firstn (S k) rows))).
Proof.
  intros E Ec P Hn Hrun Hfail.
  destruct rows as [|first rest]; [destruct k; discriminate|].
  cbn [hd] in *. cbn [runExecs] in Hrun.
  rewrite (flatFileToClickhouse_parsed path targetTable delimiter w w1 c first rest E Ec P).
  cbv zeta.
  destruct (dbExec env c (createTableQuery targetTable (keys first)) (db w1))
    as [[e|] d1] eqn:E0; [discriminate|]. cbn [fst snd].
  rewrite (insertRows_fails_at targetTable c (first :: rest) k row _ err dk d');
    auto.
  unfold advance. cbn [client connectionConfig db disk log].
  rewrite <- app_assoc. reflexivity.
Qed.

(** C3.  When the connection is ensured, the file parses to [rows], the
    create-table statement and the inserts of the records before record
    number [k] (counting from 0) succeed, in file order, and the insert
    of record number [k] is refused with [err]: the import throws [err]
    and returns no result; the statements it sent are the create-table
    statement and the inserts of records 0 to [k], one per record, in
    file order, and nothing after the refused one, so the inserts of the
    later records are never sent and nothing is taken back; the database
    is left as the refused insert left it, on top of the inserts that
    succeeded. *)
Theorem import_aborts_at_failing_insert :
  forall (path targetTable : string) (delimiter : option string)
         (w w1 : World D) (c : Client) (rows : list CsvRecord)
         (k : nat) (row : CsvRecord) (err : Error) (dk d' : D),
    ensureConnection env w = (true, w1) ->
    client w1 = Some c ->
    parseCsv env (delimiterOr delimiter) path (disk w1) = inr rows ->
    nth_error rows k = Some row ->
    runExecs env c
      (createTableQuery targetTable (keys (hd [] rows))
       :: map (insertQuery targetTable) (firstn k rows)) (db w1) = Some dk ->
    dbExec env c (insertQuery targetTable row) dk = (Some err, d') ->
    flatFileToClickhouse env path targetTable delimiter w
    = (Thrown err,
       advance w1 d'
         (ReadStream path
          :: Exec c (createTableQuery targetTable (keys (hd [] rows)))
          :: map (insertEvent c targetTable) (firstn (S k) rows)))
    /\ firstn (S k) rows = firstn k rows ++ [row]
    /\ List.length (firstn (S k) rows) = S k.
Proof.
  intros path targetTable delimiter w w1 c rows k row err dk d' E Ec P Hn Hrun Hfail.
  assert (Hlen : k < List.length rows) by (apply nth_error_Some; congruence).
  split; [|split].
  - exact (flatFileToClickhouse_refused path targetTable delimiter w w1 c rows k row
             err dk d' E Ec P Hn Hrun Hfail).
  - clear - Hn. revert k Hn. induction rows as [|r rows IH]; intros [|k] Hn;
      try discriminate; simpl in *.
    + inversion Hn; reflexivity.
    + rewrite (IH k Hn). reflexivity.
  - rewrite length_firstn. lia.
Qed.

End ImportClaims.

(** C7 on the toy server: the table is made of the two columns of the
    first record, both [String], although [age] holds digits only. *)
Lemma import_creates_table_from_first_record_witness :
  exists c k,
    client Toy.connected = Some c
    /\ log (snd (flatFileToClickhouse Toy.env Toy.upload "t1" (Some ","%string) Toy.connected))
       = log Toy.connected
         ++ ReadStream Toy.upload
         :: Exec c (nl ++ spaces 14 ++ "CREATE TABLE IF NOT EXISTS t1 ("
                    ++ nl ++ spaces 16 ++ "name String, age String"
                    ++ nl ++ spaces 14 ++ ") ENGINE = MergeTree()"
                    ++ nl ++ spaces 14 ++ "ORDER BY tuple()"
                    ++ nl ++ spaces 12)%string
         :: map (insertEvent c "t1") (firstn k Toy.people).
Proof.
  destruct (import_creates_table_from_first_record Toy.env Toy.upload "t1"
              (Some ","%string) Toy.connected Toy.connected
              (hd [] Toy.people) (tl Toy.people) eq_refl eq_refl)
    as (c & Hc & (k & Hl) & _).
  exists c, k. split; [exact Hc|]. exact Hl.
Defined.

(** C3 on the toy server: five records, the insert of the third (Carol)
    refused.  The import throws; the table and the first two records are
    in the database; nothing was sent for the last two. *)
Lemma import_aborts_at_failing_insert_witness :
  exists w',
    flatFileToClickhouse Toy.env Toy.upload "t1" (Some ","%string) Toy.connected
    = (Thrown "Code: 62. DB::Exception: Syntax error"%string, w')
    /\ db w' = [ createTableQuery "t1" ["name"; "age"]%string;
                 "INSERT INTO t1 (name, age) VALUES ('Alice', '30')"%string;
                 "INSERT INTO t1 (name, age) VALUES ('Bob', '25')"%string ]
    /\ filter isStatement (skipn 2 (log w'))
       = [ Exec {| boundTo := Toy.good |} (createTableQuery "t1" ["name"; "age"]%string);
           Exec {| boundTo := Toy.good |}
             "INSERT INTO t1 (name, age) VALUES ('Alice', '30')";
           Exec {| boundTo := Toy.good |}
             "INSERT INTO t1 (name, age) VALUES ('Bob', '25')";
           Exec {| boundTo := Toy.good |}
             "INSERT INTO t1 (name, age) VALUES ('Carol', '41')" ].
Proof.
  eexists.
  refine (let H := import_aborts_at_failing_insert Toy.env Toy.upload "t1"
                     (Some ","%string) Toy.connected Toy.connected
                     {| boundTo := Toy.good |} Toy.people 2
                     [("name", "Carol"); ("age", "41")]%string
                     "Code: 62. DB::Exception: Syntax error"%string
                     _ _ eq_refl eq_refl eq_refl eq_refl eq_refl eq_refl in _).
  destruct H as (H & _ & _). split; [exact H|]. split; reflexivity.
Defined.

(** ** Where a sanitized name lands *)

Section PathFacts.

Local Open Scope string_scope.

Lemma append_nil_r (s : string) : s ++ EmptyString = s.
Proof. induction s as [|c s IH]; simpl; [|rewrite IH]; reflexivity. Qed.

Lemma append_assoc (a b c : string) : (a ++ b) ++ c = a ++ (b ++ c).
Proof. induction a as [|x a IH]; simpl; [|rewrite IH]; reflexivity. Qed.

Lemma list_ascii_of_string_append (a b : string) :
  list_ascii_of_string (a ++ b)
  = (list_ascii_of_string a ++ list_ascii_of_string b)%list.
Proof. induction a as [|x a IH]; simpl; [|rewrite IH]; reflexivity. Qed.

Lemma noSep_cons (c : ascii) (s : string) :
  noSep (String c s) -> Path.isSep c = false /\ noSep s.
Proof. intros H. inversion H; subst. split; assumption. Qed.

Lemma segments_noSep (b : string) :
  noSep b -> forall cur, Path.segments cur b = [cur ++ b].
Proof.
  induction b as [|c b IH]; intros Hb cur; simpl.
  - rewrite append_nil_r. reflexivity.
  - destruct (noSep_cons _ _ Hb) as [Hc Hb']. rewrite Hc.
    rewrite (IH Hb'), append_assoc. reflexivity.
Qed.

Lemma segments_sep (s t : string) :
  noSep s -> forall cur,
    Path.segments cur (s ++ String "/" t) = (cur ++ s) :: Path.segments EmptyString t.
Proof.
  induction s as [|c s IH]; intros Hs cur; simpl.
  - rewrite append_nil_r. reflexivity.
  - destruct (noSep_cons _ _ Hs) as [Hc Hs']. rewrite Hc.
    rewrite (IH Hs'), append_assoc. reflexivity.
Qed.

Lemma segments_join (rest : list string) :
  Forall noSep rest -> forall s cur,
    noSep s ->
    Path.segments cur (JS.join "/" (s :: rest)) = (cur ++ s) :: rest.
Proof.
  unfold JS.join. induction rest as [|s2 rest IH]; intros Hrest s cur Hs.
  - simpl. apply segments_noSep. exact Hs.
  - inversion Hrest; subst.
    change (String.concat "/" (s :: s2 :: rest)) with (s ++ String "/" (String.concat "/" (s2 :: rest))).
    rewrite (segments_sep _ _ Hs), (IH H2 s2 EmptyString H1). reflexivity.
Qed.

Lemma join_snoc (E : list string) (b : string) :
  E <> [] -> JS.join "/" (E ++ [b]) = JS.join "/" E ++ "/" ++ b.
Proof.
  unfold JS.join. induction E as [|s E IH]; intros Hne; [congruence|].
  destruct E as [|s2 E].
  - reflexivity.
  - change (String.concat "/" ((s :: s2 :: E) ++ [b]))
      with (s ++ "/" ++ String.concat "/" ((s2 :: E) ++ [b])).
    rewrite IH by discriminate.
    change (String.concat "/" (s :: s2 :: E)) with (s ++ "/" ++ String.concat "/" (s2 :: E)).
    rewrite !append_assoc. reflexivity.
Qed.

Lemma absolutePath_snoc (E : list string) (b : string) :
  E <> [] -> absolutePath (E ++ [b]) = absolutePath E ++ "/" ++ b.
Proof.
  intros Hne. unfold absolutePath. rewrite (join_snoc E b Hne). reflexivity.
Qed.

Lemma plain_eqb (s : string) :
  plain s ->
  String.eqb s EmptyString = false /\ String.eqb s "." = false
  /\ String.eqb s ".." = false.
Proof.
  intros (_ & H1 & H2 & H3). repeat split; apply String.eqb_neq; assumption.
Qed.

Lemma normalizeSegs_plain (allow : bool) (L1 : list string) :
  Forall plain L1 -> forall acc L2,
    Path.normalizeSegs allow acc (L1 ++ L2)
    = Path.normalizeSegs allow (rev L1 ++ acc) L2.
Proof.
  induction L1 as [|s L1 IH]; intros HL acc L2; [reflexivity|].
  inversion HL; subst.
  destruct (plain_eqb s H1) as (E1 & E2 & E3).
  simpl. rewrite E1, E2, E3. simpl.
  rewrite (IH H2). rewrite <- app_assoc. reflexivity.
Qed.

Lemma endsWithSep_snoc (x b : string) :
  noSep b -> b <> EmptyString -> Path.endsWithSep (x ++ b) = false.
Proof.
  intros Hb Hne. unfold Path.endsWithSep.
  rewrite list_ascii_of_string_append, rev_app_distr.
  unfold noSep in Hb. apply Forall_rev in Hb.
  destruct (rev (list_ascii_of_string b)) as [|c l] eqn:E.
  - destruct b; [congruence|]. simpl in E.
    apply (f_equal (@List.length ascii)) in E. rewrite length_app in E.
    simpl in E. lia.
  - simpl. inversion Hb; assumption.
Qed.

(** The normal form of an absolute path whose last segment is not empty. *)
Lemma normalize_rooted (E : list string) (b : string) :
  Forall noSep E -> noSep b -> b <> EmptyString ->
  Path.normalize (absolutePath (E ++ [b]))
  = absolutePath (Path.normalizeSegs false [] (E ++ [b])).
Proof.
  intros HE Hb Hne.
  assert (Hall : Forall noSep (E ++ [b])) by (apply Forall_app; auto).
  assert (Htrail : Path.endsWithSep (absolutePath (E ++ [b])) = false).
  { destruct E as [|s E].
    - apply (endsWithSep_snoc "/" b Hb Hne).
    - rewrite absolutePath_snoc by discriminate.
      rewrite <- !append_assoc. apply endsWithSep_snoc; assumption. }
  assert (Hsegs : Path.segments EmptyString (absolutePath (E ++ [b]))
                  = EmptyString :: E ++ [b]).
  { destruct (E ++ [b])%list as [|s L] eqn:EL.
    - destruct E; discriminate.
    - inversion Hall; subst. unfold absolutePath.
      change ("/" ++ JS.join "/" (s :: L)) with (String "/" (JS.join "/" (s :: L))).
      cbn [Path.segments Path.isSep Ascii.eqb Bool.eqb].
      rewrite (segments_join L H2 s EmptyString H1). reflexivity. }
  unfold Path.normalize.
  change (absolutePath (E ++ [b])) with (String "/" (JS.join "/" (E ++ [b]))) at 1.
  cbv beta iota zeta.
  rewrite Htrail, Hsegs.
  change (Path.isSep "/") with true. cbn [negb].
  cbn [Path.normalizeSegs String.eqb orb].
  unfold absolutePath at 1.
  destruct (JS.join "/" (Path.normalizeSegs false [] (E ++ [b]))); reflexivity.
Qed.

Lemma segments_absolutePath (L : list string) :
  Forall noSep L -> L <> [] ->
  Path.segments EmptyString (absolutePath L) = EmptyString :: L.
Proof.
  intros Hall Hne. destruct L as [|s L]; [congruence|].
  inversion Hall; subst. unfold absolutePath.
  change ("/" ++ JS.join "/" (s :: L)) with (String "/" (JS.join "/" (s :: L))).
  cbn [Path.segments Path.isSep Ascii.eqb Bool.eqb].
  rewrite (segments_join L H2 s EmptyString H1). reflexivity.
Qed.

(** Joining a plain segment to an absolute path in normal form. *)
Lemma join_plain_segment (L : list string) (b : string) :
  Forall plain L -> L <> [] -> plain b ->
  Path.join [absolutePath L; b] = absolutePath L ++ "/" ++ b.
Proof.
  intros HL Hne Hb. unfold Path.join. cbn [filter].
  change (String.eqb (absolutePath L) EmptyString) with false.
  destruct (plain_eqb b Hb) as (E0 & _ & _). rewrite E0. cbn [negb].
  change (JS.join "/" [absolutePath L; b]) with (absolutePath L ++ "/" ++ b).
  rewrite <- (absolutePath_snoc L b Hne).
  assert (HLn : Forall noSep L).
  { eapply Forall_impl; [|exact HL]. intros s H. exact (proj1 H). }
  rewrite (normalize_rooted L b HLn (proj1 Hb) (proj1 (proj2 Hb))).
  assert (Hall : Forall plain (L ++ [b])).
  { apply Forall_app. split; [exact HL|]. constructor; [exact Hb|constructor]. }
  rewrite <- (app_nil_r (L ++ [b])) at 1.
  rewrite (normalizeSegs_plain false (L ++ [b]) Hall). cbn [Path.normalizeSegs].
  rewrite app_nil_r, rev_involutive. reflexivity.
Qed.

Lemma dropWhile_app (p : ascii -> bool) (l1 l2 : list ascii) :
  Forall (fun c => p c = true) l1 ->
  Path.dropWhile p (l1 ++ l2)%list = Path.dropWhile p l2.
Proof.
  induction 1 as [|c l Hc Hl IH]; simpl; [reflexivity|]. rewrite Hc. exact IH.
Qed.

(** [path.dirname] of an entry of a directory is the directory. *)
Lemma dirname_child (c0 : ascii) (d b : string) :
  d <> EmptyString -> noSep b -> b <> EmptyString ->
  Path.dirname (String c0 d ++ "/" ++ b) = String c0 d.
Proof.
  intros Hd Hb Hne. unfold Path.dirname.
  change (String c0 d ++ "/" ++ b) with (String c0 (d ++ String "/" b)).
  cbv beta iota.
  rewrite list_ascii_of_string_append. cbn [list_ascii_of_string].
  rewrite rev_app_distr. cbn [rev]. rewrite <- app_assoc. cbn [app].
  assert (Hrb : Forall (fun c => Path.isSep c = false) (rev (list_ascii_of_string b))).
  { apply Forall_rev. exact Hb. }
  assert (H1 : Path.dropWhile Path.isSep
                 (rev (list_ascii_of_string b) ++ "/"%char :: rev (list_ascii_of_string d))%list
               = (rev (list_ascii_of_string b)
                  ++ "/"%char :: rev (list_ascii_of_string d))%list).
  { destruct (rev (list_ascii_of_string b)) as [|x l] eqn:E.
    - destruct b; [congruence|]. simpl in E.
      apply (f_equal (@List.length ascii)) in E. rewrite length_app in E.
      simpl in E. lia.
    - inversion Hrb; subst. simpl. rewrite H1. reflexivity. }
  rewrite H1.
  rewrite (dropWhile_app (fun c => negb (Path.isSep c))).
  2:{ eapply Forall_impl; [|exact Hrb]. intros c Hc. simpl. rewrite Hc. reflexivity. }
  cbn [Path.dropWhile Path.isSep Ascii.eqb Bool.eqb negb].
  destruct (rev (list_ascii_of_string d)) as [|x l] eqn:E.
  - destruct d; [congruence|]. simpl in E.
    apply (f_equal (@List.length ascii)) in E. rewrite length_app in E.
    simpl in E. lia.
  - rewrite <- E, rev_involutive, string_of_list_ascii_of_string. reflexivity.
Qed.

Lemma absolutePath_cons (L : list string) :
  Forall plain L -> L <> [] ->
  exists d, absolutePath L = String "/" d /\ d <> EmptyString.
Proof.
  intros HL Hne. destruct L as [|s L]; [congruence|].
  inversion HL as [|? ? Hs _]; subst.
  exists (JS.join "/" (s :: L)). split; [reflexivity|].
  destruct Hs as (_ & Hs & _). unfold JS.join.
  destruct s; [congruence|]. destruct L; discriminate.
Qed.

(** The directory that holds an entry of an absolute path in normal
    form. *)
Lemma dirname_absolute_child (L : list string) (b : string) :
  Forall plain L -> L <> [] -> noSep b -> b <> EmptyString ->
  Path.dirname (absolutePath L ++ "/" ++ b) = absolutePath L.
Proof.
  intros HL Hne Hb Hbne.
  destruct (absolutePath_cons L HL Hne) as (d & -> & Hd).
  apply dirname_child; assumption.
Qed.

Lemma containsDotFile_absolutePath (L : list string) :
  Forall noSep L -> L <> [] ->
  Path.containsDotFile (absolutePath L) = existsb Path.isDotFile L.
Proof.
  intros HL Hne. unfold Path.containsDotFile.
  rewrite (segments_absolutePath L HL Hne). reflexivity.
Qed.

Lemma last_segment_absolutePath (L : list string) (b : string) :
  Forall noSep L -> noSep b ->
  last (Path.segments EmptyString (absolutePath (L ++ [b])%list)) EmptyString = b.
Proof.
  intros HL Hb. rewrite segments_absolutePath.
  - rewrite app_comm_cons. apply last_last.
  - apply Forall_app. split; [exact HL|constructor; [exact Hb|constructor]].
  - destruct L; discriminate.
Qed.

Lemma startsWithDot_plain (b : string) :
  plain b -> Path.startsWithDot b = Path.isDotFile b.
Proof.
  intros (_ & _ & Hdot & _). destruct b as [|c [|c' b]]; try reflexivity.
  simpl. destruct (Ascii.eqb_spec c "."%char) as [->|]; [congruence|reflexivity].
Qed.

End PathFacts.

Section ExportPath.

Local Open Scope string_scope.

Context {D : Type} (env : Env D).

(** [__dirname] is an absolute path in normal form, not the root. *)
Variable R : list string.
Hypothesis Rplain : Forall plain R.
Hypothesis Rne : R <> [].
Hypothesis Hroot : server_dirname env = absolutePath R.

Lemma plain_noSep (L : list string) : Forall plain L -> Forall noSep L.
Proof. apply Forall_impl. intros s H. exact (proj1 H). Qed.

Lemma normalizeSegs_all_plain (L : list string) :
  Forall plain L -> Path.normalizeSegs false [] L = L.
Proof.
  intros HL. rewrite <- (app_nil_r L) at 1.
  rewrite (normalizeSegs_plain false L HL). simpl.
  rewrite app_nil_r. apply rev_involutive.
Qed.

Lemma plain_exports : plain "exports".
Proof.
  repeat split; try discriminate. unfold noSep. simpl. repeat constructor.
Qed.

Lemma exports_segments_plain : Forall plain (R ++ ["exports"]).
Proof. apply Forall_app. split; [exact Rplain|]. constructor; [exact plain_exports|constructor]. Qed.

Lemma exportsDir_absolute : exportsDir env = absolutePath (R ++ ["exports"]).
Proof.
  unfold exportsDir, Path.join. rewrite Hroot.
  change (filter (fun s => negb (String.eqb s EmptyString)) [absolutePath R; "exports"])
    with [absolutePath R; "exports"].
  change (JS.join "/" [absolutePath R; "exports"])
    with (absolutePath R ++ "/" ++ "exports").
  rewrite <- (absolutePath_snoc R "exports" Rne).
  rewrite (normalize_rooted R "exports" (plain_noSep R Rplain) (proj1 plain_exports))
    by discriminate.
  rewrite (normalizeSegs_all_plain _ exports_segments_plain). reflexivity.
Qed.

Lemma exportsDir_normal : Path.normalize (exportsDir env) = exportsDir env.
Proof.
  rewrite exportsDir_absolute.
  rewrite (normalize_rooted R "exports" (plain_noSep R Rplain) (proj1 plain_exports))
    by discriminate.
  rewrite (normalizeSegs_all_plain _ exports_segments_plain). reflexivity.
Qed.

(** Joining one more segment to the exports directory. *)
Lemma join_exports_segment (b : string) :
  noSep b -> b <> EmptyString ->
  Path.join [exportsDir env; b]
  = absolutePath (Path.normalizeSegs false (rev (R ++ ["exports"])) [b]).
Proof.
  intros Hb Hne. unfold Path.join.
  assert (Hd : String.eqb (exportsDir env) EmptyString = false)
    by (rewrite exportsDir_absolute; reflexivity).
  cbn [filter]. rewrite Hd. apply String.eqb_neq in Hne. rewrite Hne. cbn [negb].
  change (JS.join "/" [exportsDir env; b]) with (exportsDir env ++ "/" ++ b).
  rewrite exportsDir_absolute.
  rewrite <- (absolutePath_snoc (R ++ ["exports"]) b) by (destruct R; discriminate).
  apply String.eqb_neq in Hne.
  rewrite (normalize_rooted (R ++ ["exports"]) b
             (plain_noSep _ exports_segments_plain) Hb Hne).
  rewrite (normalizeSegs_plain false _ exports_segments_plain).
  rewrite app_nil_r. reflexivity.
Qed.

Lemma prefix_append (p s : string) : String.prefix p (p ++ s) = true.
Proof.
  induction p as [|c p IH]; simpl.
  - destruct s; reflexivity.
  - destruct (ascii_dec c c); [exact IH|congruence].
Qed.

Lemma append_cancel (p s : string) : p ++ s = p -> s = EmptyString.
Proof.
  induction p as [|c p IH]; simpl; intros H; [exact H|].
  inversion H. auto.
Qed.

Lemma inside_child (dir b : string) :
  b <> EmptyString -> Path.inside dir (dir ++ "/" ++ b) = true.
Proof.
  intros Hne. unfold Path.inside.
  rewrite <- append_assoc, prefix_append. simpl.
  apply negb_true_iff. apply String.eqb_neq. intros H.
  apply append_cancel in H. contradiction.
Qed.

(** Where the name [path.basename] returns lands once joined to the
    exports directory: inside it for a name that is a plain segment, on
    the directory itself for the empty name and [.], and on [__dirname],
    the directory above, for [..]. *)
Lemma sanitized_name_lands (name : string) :
  (plain (Path.basename name)
   /\ Path.join [exportsDir env; Path.basename name]
      = exportsDir env ++ "/" ++ Path.basename name
   /\ Path.inside (exportsDir env)
        (Path.join [exportsDir env; Path.basename name]) = true)
  \/ ((Path.basename name = EmptyString \/ Path.basename name = ".")
      /\ Path.join [exportsDir env; Path.basename name] = exportsDir env)
  \/ (Path.basename name = ".."
      /\ Path.join [exportsDir env; Path.basename name] = server_dirname env).
Proof.
  pose proof (basename_no_separator name) as Hb.
  fold (noSep (Path.basename name)) in Hb.
  set (b := Path.basename name) in *.
  destruct (String.eqb_spec b EmptyString) as [E0|N0].
  { right. left. split; [left; exact E0|]. rewrite E0.
    unfold Path.join. cbn [filter].
    assert (Hd : String.eqb (exportsDir env) EmptyString = false)
      by (rewrite exportsDir_absolute; reflexivity).
    rewrite Hd. cbn. exact exportsDir_normal. }
  rewrite (join_exports_segment b Hb N0).
  rewrite rev_app_distr. cbn [rev app].
  destruct (String.eqb_spec b ".") as [E1|N1].
  { right. left. split; [right; exact E1|]. rewrite E1.
    cbn [Path.normalizeSegs String.eqb Ascii.eqb Bool.eqb orb andb rev app].
    rewrite rev_involutive, exportsDir_absolute. reflexivity. }
  destruct (String.eqb_spec b "..") as [E2|N2].
  { right. right. split; [exact E2|]. rewrite E2.
    cbn [Path.normalizeSegs String.eqb Ascii.eqb Bool.eqb orb andb].
    rewrite rev_involutive, Hroot. reflexivity. }
  left. split; [repeat split; assumption|].
  assert (Hj : absolutePath (Path.normalizeSegs false ("exports" :: rev R) [b])
               = exportsDir env ++ "/" ++ b).
  { cbn [Path.normalizeSegs].
    apply String.eqb_neq in N0, N1, N2. rewrite N0, N1, N2. cbn [orb].
    cbn [rev]. rewrite rev_involutive, exportsDir_absolute.
    rewrite <- app_assoc. cbn [app].
    rewrite <- (absolutePath_snoc (R ++ ["exports"]) b) by (destruct R; discriminate).
    rewrite <- app_assoc. reflexivity. }
  rewrite Hj. split; [reflexivity|]. apply inside_child. exact N0.
Qed.

(** The download handler looks at the same place as the export writes to. *)
Lemma downloadPath_join (name : string) :
  downloadPath env name = Path.join [exportsDir env; Path.basename name].
Proof.
  pose proof (basename_no_separator name) as Hb.
  fold (noSep (Path.basename name)) in Hb.
  unfold downloadPath.
  set (b := Path.basename name) in *.
  destruct (String.eqb_spec b EmptyString) as [E0|N0].
  - rewrite E0. unfold Path.join at 2. cbn [filter].
    assert (Hd : String.eqb (exportsDir env) EmptyString = false)
      by (rewrite exportsDir_absolute; reflexivity).
    rewrite Hd. cbn [negb String.eqb JS.join String.concat].
    rewrite exportsDir_normal. reflexivity.
  - rewrite (join_exports_segment b Hb N0).
    unfold Path.join. rewrite Hroot. cbn [filter].
    change (String.eqb (absolutePath R) EmptyString) with false.
    change (String.eqb "exports" EmptyString) with false.
    apply String.eqb_neq in N0. rewrite N0. cbn [negb].
    change (JS.join "/" [absolutePath R; "exports"; b])
      with (absolutePath R ++ "/" ++ "exports" ++ "/" ++ b).
    replace (absolutePath R ++ "/" ++ "exports" ++ "/" ++ b)
      with ((absolutePath R ++ "/" ++ "exports") ++ "/" ++ b)
      by (rewrite !append_assoc; reflexivity).
    rewrite <- (absolutePath_snoc R "exports" Rne).
    rewrite <- (absolutePath_snoc (R ++ ["exports"]) b) by (destruct R; discriminate).
    apply String.eqb_neq in N0.
    rewrite (normalize_rooted (R ++ ["exports"]) b
               (plain_noSep _ exports_segments_plain) Hb N0).
    rewrite (normalizeSegs_plain false _ exports_segments_plain).
    rewrite app_nil_r. reflexivity.
Qed.

End ExportPath.

(** ** The two transfers as [/ingest] runs them *)

Section IngestRuns.

Context {D : Type} (env : Env D).

(** [/ingest] from [clickhouse] to [flatfile], once the connection is
    ensured: the answer is the export's result, or 500 with its error. *)
Lemma ingest_export (b : IngestBody.t) (w w1 : World D) :
  IngestBody.source b = "clickhouse"%string ->
  IngestBody.target b = "flatfile"%string ->
  ensureConnection env w = (true, w1) ->
  ingest env b w
  = match clickhouseToFlatFile env (IngestBody.tables b) (IngestBody.columns b)
            (IngestBody.targetFile b) (IngestBody.delimiter b) w1 with
    | (Returned result, w') => (ingestOk result, w')
    | (Thrown e, w') =>
        (json 500 (ErrorMessage "Failed to perform data ingestion" e), w')
    | (Died e, w') => (noAnswer e, w')
    end.
Proof.
  intros Hs Ht E. unfold ingest, ensure. rewrite Hs, Ht.
  cbn [String.eqb Ascii.eqb Bool.eqb orb andb bind]. rewrite E.
  cbn [bind ret negb].
  destruct (clickhouseToFlatFile env (IngestBody.tables b) (IngestBody.columns b)
              (IngestBody.targetFile b) (IngestBody.delimiter b) w1)
    as [[result|e|e] w']; reflexivity.
Qed.

(** [/ingest] from [flatfile] to [clickhouse], with a file path and a
    target table, once the connection is ensured. *)
Lemma ingest_import (b : IngestBody.t) (w w1 : World D) (path targetTable : string) :
  IngestBody.source b = "flatfile"%string ->
  IngestBody.target b = "clickhouse"%string ->
  IngestBody.filePath b = Some path -> path <> EmptyString ->
  IngestBody.targetTable b = Some targetTable -> targetTable <> EmptyString ->
  ensureConnection env w = (true, w1) ->
  ingest env b w
  = match flatFileToClickhouse env path targetTable (IngestBody.delimiter b) w1 with
    | (Returned result, w') => (ingestOk result, w')
    | (Thrown e, w') =>
        (json 500 (ErrorMessage "Failed to perform data ingestion" e), w')
    | (Died e, w') => (noAnswer e, w')
    end.
Proof.
  intros Hs Ht Hp Hpne Htt Httne E. unfold ingest, ensure. rewrite Hs, Ht, Hp, Htt.
  cbn [String.eqb Ascii.eqb Bool.eqb orb andb bind]. rewrite E.
  cbn [bind ret negb]. unfold JS.truthy, JS.orElse.
  apply String.eqb_neq in Hpne, Httne. rewrite Hpne, Httne. cbn [negb bind].
  destruct (flatFileToClickhouse env path targetTable (IngestBody.delimiter b) w1)
    as [[result|e|e] w']; reflexivity.
Qed.

(** An import that stops at a refused insert is answered with 500 and
    the store's error. *)
Lemma ingest_import_refused (b : IngestBody.t) (w w1 : World D)
      (path targetTable : string) (c : Client) (rows : list CsvRecord)
      (k : nat) (row : CsvRecord) (err : Error) (dk d' : D) :
  IngestBody.source b = "flatfile"%string ->
  IngestBody.target b = "clickhouse"%string ->
  IngestBody.filePath b = Some path -> path <> EmptyString ->
  IngestBody.targetTable b = Some targetTable -> targetTable <> EmptyString ->
  ensureConnection env w = (true, w1) ->
  client w1 = Some c ->
  parseCsv env (delimiterOr (IngestBody.delimiter b)) path (disk w1) = inr rows ->
  nth_error rows k = Some row ->
  runExecs env c
    (createTableQuery targetTable (keys (hd [] rows))
     :: map (insertQuery targetTable) (firstn k rows)) (db w1) = Some dk ->
  dbExec env c (insertQuery targetTable row) dk = (Some err, d') ->
  fst (ingest env b w)
  = json 500 (ErrorMessage "Failed to perform data ingestion" err).
Proof.
  intros Hs Ht Hp Hpne Htt Httne E Ec P Hn Hrun Hfail.
  rewrite (ingest_import b w w1 path targetTable Hs Ht Hp Hpne Htt Httne E).
  pose proof (ensure_again env w w1 E) as E1.
  rewrite (flatFileToClickhouse_refused env path targetTable
             (IngestBody.delimiter b) w1 w1 c rows k row err dk d'
             E1 Ec P Hn Hrun Hfail).
  reflexivity.
Qed.

End IngestRuns.

(** * Further properties of the code *)

(** ** The host of a connection request *)

Section HostFacts.

Local Open Scope string_scope.

(** X1.  [startsWith(str, prefix)] answers [true] exactly when [str] is
    [prefix] followed by something, possibly nothing. *)
Theorem startsWith_iff_prefix :
  forall str prefix : string,
    JS.startsWith str prefix = true <-> exists rest, str = prefix ++ rest.
Proof.
  intros str prefix. split.
  - unfold JS.startsWith. revert str.
    induction prefix as [|c prefix IH]; intros str H.
    + exists str. reflexivity.
    + destruct str as [|c' str]; simpl in H; [discriminate|].
      apply andb_true_iff in H. destruct H as [Hc Hs].
      apply Ascii.eqb_eq in Hc. subst c'.
      destruct (IH str Hs) as [rest ->]. exists rest. reflexivity.
  - intros [rest ->]. apply startsWith_append.
Qed.

Lemma removeFirst_absent (pat s : string) :
  CsvWriter.includes pat s = false -> JS.removeFirst pat s = s.
Proof.
  induction s as [|c s IH]; simpl; intros H.
  - apply orb_false_iff in H. destruct H as [H _]. rewrite H. reflexivity.
  - apply orb_false_iff in H. destruct H as [Hp Hs]. rewrite Hp, (IH Hs). reflexivity.
Qed.

Lemma removeFirst_prefix (pat rest : string) :
  JS.removeFirst pat (pat ++ rest) = rest.
Proof.
  assert (Hd : forall p s, JS.drop (String.length p) (p ++ s) = s)
    by (induction p; simpl; auto).
  destruct pat as [|c pat]; simpl.
  - destruct rest; reflexivity.
  - destruct (ascii_dec c c) as [_|N]; [|congruence].
    rewrite prefix_append. apply Hd.
Qed.

(** X2.  A host that, once trimmed, is one scheme ([http://] or
    [https://]) followed by a rest in which no scheme occurs is cleaned
    to that rest, and the URL is [https://], the rest, a colon and the
    port.  A host that starts with neither scheme is only trimmed,
    whatever it holds further on. *)
Theorem cleanHost_single_scheme :
  forall (b : ConnectBody.t) (rest : string),
    CsvWriter.includes "http://" rest = false ->
    CsvWriter.includes "https://" rest = false ->
    JS.trim (ConnectBody.host b) = "http://" ++ rest
    \/ JS.trim (ConnectBody.host b) = "https://" ++ rest ->
    cleanHost (ConnectBody.host b) = rest
    /\ url (configOf b) = "https://" ++ rest ++ ":" ++ ConnectBody.port b.
Proof.
  intros b rest H1 H2 Hs.
  assert (Hc : cleanHost (ConnectBody.host b) = rest).
  { destruct Hs as [Hs|Hs].
    - rewrite (cleanHost_http _ _ Hs). apply removeFirst_absent. exact H2.
    - unfold cleanHost. rewrite Hs.
      rewrite (startsWith_append "https://" rest). cbn [orb].
      rewrite (removeFirst_prefix "https://" rest).
      apply removeFirst_absent. exact H1. }
  split; [exact Hc|]. unfold configOf. cbn [url]. rewrite Hc. reflexivity.
Qed.

Lemma cleanHost_no_scheme (host : string) :
  JS.startsWith (JS.trim host) "https://" = false ->
  JS.startsWith (JS.trim host) "http://" = false ->
  cleanHost host = JS.trim host.
Proof. intros H1 H2. unfold cleanHost. rewrite H1, H2. reflexivity. Qed.

End HostFacts.

(** X2 on a host with spaces around it and the [https://] scheme. *)
Lemma cleanHost_single_scheme_witness :
  cleanHost " https://db.local " = "db.local"%string.
Proof.
  apply (cleanHost_single_scheme
           {| ConnectBody.host := " https://db.local "; ConnectBody.port := "8443";
              ConnectBody.database := "default"; ConnectBody.username := "default";
              ConnectBody.password := EmptyString |} "db.local");
    [reflexivity | reflexivity | right; reflexivity].
Defined.

(** ** The schema inspector, [/tables] and [/columns/:table] *)

Section InspectorFacts.

Context {D : Type} (env : Env D).

Lemma namesOf_length (rows : list Row) : List.length (namesOf rows) = List.length rows.
Proof. unfold namesOf. apply length_map. Qed.

(** X3.  [/tables] and [/columns/:table] answer 400, sending nothing
    more, when [ensureConnection] answers [false].  Otherwise each sends
    exactly one statement, [SHOW TABLES] or [DESCRIBE TABLE] followed by
    the table name as given, and answers with the [name] field of every
    row the store returned, one entry per row in the store's order (an
    entry is undefined for a row without that field), or with 500 when
    the store refuses. *)
Theorem inspector_contract :
  forall (table : string) (w : World D),
    (fst (ensureConnection env w) = false ->
     tables env w
     = (json 400 (ErrorBody "Not connected to ClickHouse"), snd (ensureConnection env w))
     /\ columnsOf env table w
        = (json 400 (ErrorBody "Not connected to ClickHouse"),
           snd (ensureConnection env w)))
    /\ (fst (ensureConnection env w) = true ->
        exists c,
          client (snd (ensureConnection env w)) = Some c
          /\ log (snd (tables env w))
             = log (snd (ensureConnection env w)) ++ [Query c "SHOW TABLES"]
          /\ fst (tables env w)
             = match fst (dbQuery env c "SHOW TABLES" (db (snd (ensureConnection env w)))) with
               | inr rows => json 200 (NamesBody (map (fun row => getProp row "name"%string) rows))
               | inl _ => json 500 (ErrorBody "Failed to fetch tables")
               end
          /\ log (snd (columnsOf env table w))
             = log (snd (ensureConnection env w))
               ++ [Query c ("DESCRIBE TABLE " ++ table)%string]
          /\ fst (columnsOf env table w)
             = match fst (dbQuery env c ("DESCRIBE TABLE " ++ table)%string
                            (db (snd (ensureConnection env w)))) with
               | inr rows => json 200 (NamesBody (map (fun row => getProp row "name"%string) rows))
               | inl _ =>
                   json 500 (ErrorBody ("Failed to fetch columns for " ++ table)%string)
               end).
Proof.
  intros table w. unfold tables, columnsOf.
  destruct (ensureConnection env w) as [ok w1] eqn:E. cbn [fst snd].
  split.
  - intros ->. split; reflexivity.
  - intros ->. cbn [negb].
    destruct (ensureConnection_effect env w _ _ E) as (_ & _ & Hc & _).
    destruct (Hc eq_refl) as [c Ec]. exists c. split; [exact Ec|].
    unfold clientQuery. rewrite Ec.
    destruct (dbQuery env c "SHOW TABLES" (db w1)) as [[e|rows] d];
      destruct (dbQuery env c ("DESCRIBE TABLE " ++ table)%string (db w1)) as [[e'|rows'] d'];
      repeat split; reflexivity.
Qed.

End InspectorFacts.

(** X3 on the toy server, whose store answers [SHOW TABLES] with no row. *)
Lemma inspector_contract_witness :
  fst (tables Toy.env Toy.connected) = json 200 (NamesBody [])
  /\ fst (tables Toy.env Toy.refused)
     = json 400 (ErrorBody "Not connected to ClickHouse").
Proof.
  destruct (inspector_contract Toy.env "t" Toy.connected) as [_ H].
  destruct (H eq_refl) as (c & Hc & _ & Ht & _).
  split.
  - rewrite Ht. vm_compute in Hc. inversion Hc; subst. reflexivity.
  - destruct (inspector_contract Toy.env "t" Toy.refused) as [H0 _].
    destruct (H0 eq_refl) as [H1 _]. rewrite H1. reflexivity.
Defined.

(** ** More of the import *)

Section ImportFacts.

Context {D : Type} (env : Env D).

(** The insert loop when every insert succeeds. *)
Lemma insertRows_all (targetTable : string) (c : Client) :
  forall (rows : list CsvRecord) (w : World D) (d' : D),
    client w = Some c ->
    runExecs env c (map (insertQuery targetTable) rows) (db w) = Some d' ->
    insertRows env targetTable rows w
    = (Returned tt, advance w d' (map (insertEvent c targetTable) rows)).
Proof.
  induction rows as [|row rest IH]; intros w d' Hc Hrun.
  - simpl in Hrun. inversion Hrun; subst. unfold advance. simpl.
    rewrite app_nil_r. destruct w; reflexivity.
  - cbn [map runExecs] in Hrun.
    destruct (dbExec env c (insertQuery targetTable row) (db w)) as [[e|] d1] eqn:E0;
      [discriminate|].
    cbn [insertRows]. simpl. unfold clientExec at 1. rewrite Hc, E0.
    rewrite (IH _ d'); auto.
    cbn [map]. rewrite advance_emit. reflexivity.
Qed.

(** X4.  When the connection is ensured and the file holds no record,
    the import returns a result with [recordCount] 0; the file was read,
    and no statement at all was sent: no table is created for an empty
    file and the database is as it was. *)
Theorem import_of_empty_file :
  forall (path targetTable : string) (delimiter : option string) (w w1 : World D),
    ensureConnection env w = (true, w1) ->
    parseCsv env (delimiterOr delimiter) path (disk w1) = inr [] ->
    flatFileToClickhouse env path targetTable delimiter w
    = (Returned {| recordCount := 0; message := "No records found in file";
                   filePath := None |},
       advance w1 (db w1) [ReadStream path]).
Proof.
  intros path targetTable delimiter w w1 E P.
  unfold flatFileToClickhouse, ensure. cbn [bind]. rewrite E. cbn [negb bind].
  unfold readRecords at 1. rewrite P. reflexivity.
Qed.

(** X5.  When the connection is ensured, the file parses to records and
    the create-table statement and the insert of every record succeed,
    the import returns [recordCount] equal to the number of records; it
    sent the create-table statement once and then exactly one insert per
    record, in file order, and the database is as those statements left
    it. *)
Theorem import_all_records :
  forall (path targetTable : string) (delimiter : option string)
         (w w1 : World D) (c : Client) (first : CsvRecord) (rest : list CsvRecord)
         (d' : D),
    ensureConnection env w = (true, w1) ->
    client w1 = Some c ->
    parseCsv env (delimiterOr delimiter) path (disk w1) = inr (first :: rest) ->
    runExecs env c
      (createTableQuery targetTable (keys first)
       :: map (insertQuery targetTable) (first :: rest)) (db w1) = Some d' ->
    flatFileToClickhouse env path targetTable delimiter w
    = (Returned {| recordCount := List.length (first :: rest);
                   message := ("Successfully imported "
                               ++ JS.ofNat (List.length (first :: rest))
                               ++ " records to " ++ targetTable)%string;
                   filePath := None |},
       advance w1 d'
         (ReadStream path
          :: Exec c (createTableQuery targetTable (keys first))
          :: map (insertEvent c targetTable) (first :: rest))).
Proof.
  intros path targetTable delimiter w w1 c first rest d' E Ec P Hrun.
  rewrite (flatFileToClickhouse_parsed env path targetTable delimiter w w1 c first rest E Ec P).
  cbv zeta. cbn [runExecs] in Hrun.
  destruct (dbExec env c (createTableQuery targetTable (keys first)) (db w1))
    as [[e|] d1] eqn:E0; [discriminate|]. cbn [fst snd].
  rewrite (insertRows_all targetTable c (first :: rest) _ d'); auto.
  unfold advance. cbn [client connectionConfig db disk log].
  rewrite <- app_assoc. reflexivity.
Qed.

(** X6.  When the connection is ensured, an import stops before any
    insert in three cases.  When the read stream fails (the file is not
    there, or cannot be read), nobody listens for its error: the process
    ends on it, no statement is sent, and [/ingest] never answers.  When
    the parser fails, the promise is rejected with its error and no
    statement is sent.  When the create-table statement is refused, the
    import throws the store's error and the create-table statement is
    the only statement sent. *)
Theorem import_stops_before_inserts :
  forall (path targetTable : string) (delimiter : option string)
         (w w1 : World D) (c : Client),
    ensureConnection env w = (true, w1) ->
    client w1 = Some c ->
    (forall e : Error,
        parseCsv env (delimiterOr delimiter) path (disk w1) = inl (ReadError e) ->
        flatFileToClickhouse env path targetTable delimiter w
        = (Died e, advance w1 (db w1) [ReadStream path])
        /\ forall b : IngestBody.t,
             IngestBody.source b = "flatfile"%string ->
             IngestBody.target b = "clickhouse"%string ->
             IngestBody.filePath b = Some path -> path <> EmptyString ->
             IngestBody.targetTable b = Some targetTable -> targetTable <> EmptyString ->
             IngestBody.delimiter b = delimiter ->
             ingest env b w = (noAnswer e, advance w1 (db w1) [ReadStream path]))
    /\ (forall e : Error,
           parseCsv env (delimiterOr delimiter) path (disk w1) = inl (ParserError e) ->
           flatFileToClickhouse env path targetTable delimiter w
           = (Thrown e, advance w1 (db w1) [ReadStream path]))
    /\ (forall (first : CsvRecord) (rest : list CsvRecord) (err : Error) (d' : D),
           parseCsv env (delimiterOr delimiter) path (disk w1) = inr (first :: rest) ->
           dbExec env c (createTableQuery targetTable (keys first)) (db w1)
           = (Some err, d') ->
           flatFileToClickhouse env path targetTable delimiter w
           = (Thrown err,
              advance w1 d'
                [ReadStream path; Exec c (createTableQuery targetTable (keys first))])).
Proof.
  intros path targetTable delimiter w w1 c E Ec.
  assert (Hread : forall e,
             parseCsv env (delimiterOr delimiter) path (disk w1) = inl (ReadError e) ->
             flatFileToClickhouse env path targetTable delimiter w
             = (Died e, advance w1 (db w1) [ReadStream path])).
  { intros e P. unfold flatFileToClickhouse, ensure. cbn [bind]. rewrite E.
    cbn [negb bind]. unfold readRecords at 1. rewrite P. reflexivity. }
  split; [|split].
  - intros e P. split; [exact (Hread e P)|].
    intros b Hs Ht Hp Hpne Htt Httne Hdel.
    rewrite (ingest_import env b w w1 path targetTable Hs Ht Hp Hpne Htt Httne E).
    rewrite Hdel.
    destruct (ensureConnection_true env w w1 E) as [-> _].
    rewrite (Hread e P). reflexivity.
  - intros e P. unfold flatFileToClickhouse, ensure. cbn [bind]. rewrite E.
    cbn [negb bind]. unfold readRecords at 1. rewrite P. reflexivity.
  - intros first rest err d' P Hfail.
    rewrite (flatFileToClickhouse_parsed env path targetTable delimiter w w1 c first rest
               E Ec P).
    cbv zeta. rewrite Hfail. reflexivity.
Qed.

(** X7.  A request in one of the two directions, made while
    [ensureConnection] answers [false], is answered by [/ingest] with
    400 "Not connected to ClickHouse"; nothing is done after the
    connection attempt: no file is read or written and the "not
    connected" error of the transfer functions themselves, which would
    give a 500, is never reached. *)
Theorem ingest_not_connected :
  forall (b : IngestBody.t) (w : World D),
    validPair (IngestBody.source b) (IngestBody.target b) = true ->
    fst (ensureConnection env w) = false ->
    ingest env b w = (notConnectedResponse, snd (ensureConnection env w))
    /\ disk (snd (ingest env b w)) = disk w
    /\ filter isFileEvent (log (snd (ingest env b w))) = filter isFileEvent (log w).
Proof.
  intros b w Hv Hok.
  assert (Hi : ingest env b w = (notConnectedResponse, snd (ensureConnection env w))).
  { unfold validPair in Hv. unfold ingest, ensure.
    destruct (String.eqb (IngestBody.source b) "clickhouse");
      destruct (String.eqb (IngestBody.target b) "clickhouse");
      destruct (String.eqb (IngestBody.source b) "flatfile");
      destruct (String.eqb (IngestBody.target b) "flatfile");
      cbn [andb orb] in Hv; try discriminate;
      cbn [andb orb bind]; destruct (ensureConnection env w) as [ok w1];
      cbn [fst] in Hok; subst ok; reflexivity. }
  rewrite Hi. split; [reflexivity|]. cbn [snd].
  destruct (ensureConnection env w) as [ok w1] eqn:E. cbn [snd].
  destruct (ensure_keepsDisk env w (Returned ok) w1) as [Hd Hf].
  { unfold ensure. rewrite E. reflexivity. }
  split; assumption.
Qed.

End ImportFacts.

(** X4 on the toy server when the upload holds no record. *)
Lemma import_of_empty_file_witness :
  flatFileToClickhouse (ToyMore.envReading []) Toy.upload "t1" None Toy.connected
  = (Returned {| recordCount := 0; message := "No records found in file";
                 filePath := None |},
     advance Toy.connected [] [ReadStream Toy.upload]).
Proof.
  exact (import_of_empty_file (ToyMore.envReading []) Toy.upload "t1" None
           Toy.connected Toy.connected eq_refl eq_refl).
Defined.

(** X5 on the toy server with the first two records of the upload. *)
Lemma import_all_records_witness :
  exists w',
    flatFileToClickhouse (ToyMore.envReading (firstn 2 Toy.people)) Toy.upload "t1" None
      Toy.connected
    = (Returned {| recordCount := 2;
                   message := "Successfully imported 2 records to t1";
                   filePath := None |}, w')
    /\ db w' = [ createTableQuery "t1" ["name"; "age"]%string;
                 "INSERT INTO t1 (name, age) VALUES ('Alice', '30')"%string;
                 "INSERT INTO t1 (name, age) VALUES ('Bob', '25')"%string ].
Proof.
  eexists. split.
  - exact (import_all_records (ToyMore.envReading (firstn 2 Toy.people)) Toy.upload "t1"
             None Toy.connected Toy.connected
             {| boundTo := Toy.good |} _ _ _ eq_refl eq_refl eq_refl eq_refl).
  - reflexivity.
Defined.

(** X6 on the toy server: a path where no file is.  The request is
    never answered. *)
Lemma import_stops_before_inserts_witness :
  ingest Toy.env
    {| IngestBody.source := "flatfile"; IngestBody.target := "clickhouse";
       IngestBody.tables := []; IngestBody.columns := [];
       IngestBody.filePath := Some "/srv/app/uploads/none.csv"%string;
       IngestBody.targetFile := None;
       IngestBody.targetTable := Some "t1"%string;
       IngestBody.delimiter := None |}
    Toy.connected
  = (noAnswer "ENOENT: no such file or directory, open '/srv/app/uploads/none.csv'",
     advance Toy.connected [] [ReadStream "/srv/app/uploads/none.csv"]).
Proof.
  destruct (import_stops_before_inserts Toy.env "/srv/app/uploads/none.csv" "t1" None
              Toy.connected Toy.connected {| boundTo := Toy.good |} eq_refl eq_refl)
    as [H _].
  destruct (H _ eq_refl) as [_ Hi].
  apply Hi; try reflexivity; discriminate.
Defined.

(** X7 on the toy server after a refused [/connect]. *)
Lemma ingest_not_connected_witness :
  fst (ingest Toy.env (Toy.ingestBody "flatfile" "clickhouse" [] None) Toy.refused)
  = notConnectedResponse.
Proof.
  destruct (ingest_not_connected Toy.env
              (Toy.ingestBody "flatfile" "clickhouse" [] None) Toy.refused
              eq_refl eq_refl) as [H _].
  rewrite H. reflexivity.
Defined.

(** ** More of the export *)

Section ExportFacts.

Context {D : Type} (env : Env D).

Lemma advance_emit_query (w : World D) (c : Client) (sql : string) (d d' : D)
      (evs : list Event) :
  advance (emit (Query c sql) (setDb d w)) d' evs = advance w d' (Query c sql :: evs).
Proof.
  unfold advance, emit, setDb. simpl. rewrite <- app_assoc. reflexivity.
Qed.

(** The column list of a table, when there is one: the statement is the
    one [selectFrom] spells out. *)
Lemma columnsStr_returned (columns : list (string * list string)) (table str : string)
      (w w' : World D) :
  columnsStr columns table w = (Returned str, w') ->
  w' = w /\ ("SELECT " ++ str ++ " FROM " ++ table)%string = selectFrom columns table.
Proof.
  unfold columnsStr, lookup, selectFrom.
  destruct (getProp columns table) as [[|col cols]|].
  - intros H. inversion H; subst. auto.
  - intros H. inversion H; subst. auto.
  - destruct (JS.inherited JS.objectPrototype table) as [[name [|n]|]|];
      intros H; inversion H; subst; auto.
Qed.

(** The only way no column list is made: the table is named like a
    function with parameters that every object inherits, and [columns]
    has no entry of that name. *)
Lemma columnsStr_thrown (columns : list (string * list string)) (table : string)
      (e : Error) (w w' : World D) :
  columnsStr columns table w = (Thrown e, w') ->
  w' = w /\ e = joinOfFunction /\ getProp columns table = None
  /\ exists name n,
       JS.inherited JS.objectPrototype table = Some (JS.ProtoFunction name (S n)).
Proof.
  unfold columnsStr, lookup.
  destruct (getProp columns table) as [cols|]; [discriminate|].
  destruct (JS.inherited JS.objectPrototype table) as [[name [|n]|]|];
    intros H; inversion H; subst. eauto 6.
Qed.


(** The loop over the tables when it returns. *)
Lemma fetchTables_returned (columns : list (string * list string)) (c : Client) :
  forall (tbls : list string) (results : list Row) (n : nat) (w w' : World D)
         (results' : list Row) (n' : nat),
    client w = Some c ->
    fetchTables env tbls columns results n w = (Returned (results', n'), w') ->
    exists rowss,
      runQueries env c (map (selectFrom columns) tbls) (db w) = Some (rowss, db w')
      /\ List.length rowss = List.length tbls
      /\ results' = results ++ concat rowss
      /\ n' = n + List.length (concat rowss)
      /\ w' = advance w (db w') (map (fun t => Query c (selectFrom columns t)) tbls).
Proof.
  induction tbls as [|table rest IH]; intros results n w w' results' n' Hc H.
  - simpl in H. inversion H; subst. exists []. simpl.
    rewrite !app_nil_r. repeat split; try lia.
    unfold advance. rewrite app_nil_r. destruct w'; reflexivity.
  - cbn [fetchTables bind] in H.
    destruct (columnsStr columns table w) as [[str|e|e] w0] eqn:Hs; try discriminate.
    destruct (columnsStr_returned _ _ _ _ _ Hs) as [-> Hq].
    rewrite Hq in H. unfold clientQuery at 1 in H. rewrite Hc in H.
    cbn [map runQueries].
    destruct (dbQuery env c (selectFrom columns table) (db w))
      as [[e0|rows] d1] eqn:E0; [discriminate|].
    assert (Hc1 : client (emit (Query c (selectFrom columns table)) (setDb d1 w)) = Some c)
      by exact Hc.
    destruct (IH _ _ _ _ _ _ Hc1 H) as (rowss & Hrun & Hlen & Hres & Hn & Hw).
    cbn [db emit setDb] in Hrun. rewrite Hrun.
    exists (rows :: rowss). cbn [concat List.length map].
    repeat split.
    + rewrite Hlen. reflexivity.
    + rewrite Hres, <- app_assoc. reflexivity.
    + rewrite Hn, length_app. lia.
    + rewrite Hw at 1. apply advance_emit_query.
Qed.

(** The loop over the tables when it throws: at some table, either the
    store refused the query, which is the last one sent, or no column
    list could be made and no query was sent for that table. *)
Lemma fetchTables_thrown (columns : list (string * list string)) (c : Client) :
  forall (tbls : list string) (results : list Row) (n : nat) (w w' : World D)
         (e : Error),
    client w = Some c ->
    fetchTables env tbls columns results n w = (Thrown e, w') ->
    exists k table,
      nth_error tbls k = Some table
      /\ exists rowss dk,
           runQueries env c (map (selectFrom columns) (firstn k tbls)) (db w)
           = Some (rowss, dk)
           /\ ((fst (dbQuery env c (selectFrom columns table) dk) = inl e
                /\ w' = advance w (db w')
                          (map (fun t => Query c (selectFrom columns t))
                               (firstn (S k) tbls)))
               \/ (e = joinOfFunction
                   /\ getProp columns table = None
                   /\ (exists name m,
                          JS.inherited JS.objectPrototype table
                          = Some (JS.ProtoFunction name (S m)))
                   /\ w' = advance w dk
                             (map (fun t => Query c (selectFrom columns t))
                                  (firstn k tbls)))).
Proof.
  induction tbls as [|table rest IH]; intros results n w w' e Hc H.
  - simpl in H. discriminate.
  - cbn [fetchTables bind] in H.
    destruct (columnsStr columns table w) as [[str|e0|e0] w0] eqn:Hs.
    + destruct (columnsStr_returned _ _ _ _ _ Hs) as [-> Hq].
      rewrite Hq in H. unfold clientQuery at 1 in H. rewrite Hc in H.
      destruct (dbQuery env c (selectFrom columns table) (db w))
        as [[e0|rows] d1] eqn:E0.
      * inversion H; subst. exists 0, table. split; [reflexivity|].
        exists [], (db w). split; [reflexivity|]. left. rewrite E0.
        split; reflexivity.
      * assert (Hc1 : client (emit (Query c (selectFrom columns table)) (setDb d1 w))
                      = Some c) by exact Hc.
        destruct (IH _ _ _ _ _ Hc1 H) as (k & t & Hn & rowss & dk & Hrun & Hcases).
        exists (S k), t. split; [exact Hn|].
        cbn [db emit setDb] in Hrun.
        exists (rows :: rowss), dk. split.
        { cbn [firstn map runQueries]. rewrite E0, Hrun. reflexivity. }
        destruct Hcases as [[Hr Hw]|(He & Hg & Hi & Hw)].
        -- left. split; [exact Hr|]. rewrite Hw at 1. cbn [firstn map].
           apply advance_emit_query.
        -- right. split; [exact He|]. split; [exact Hg|]. split; [exact Hi|].
           rewrite Hw. cbn [firstn map]. apply advance_emit_query.
    + destruct (columnsStr_thrown _ _ _ _ _ Hs) as (-> & -> & Hg & Hi).
      inversion H; subst. exists 0, table. split; [reflexivity|].
      exists [], (db w'). split; [reflexivity|]. right.
      split; [reflexivity|]. split; [exact Hg|]. split; [exact Hi|].
      unfold advance. cbn [firstn map]. rewrite app_nil_r. destruct w'; reflexivity.
    + discriminate.
Qed.

(** X8.  When the connection is ensured and the loop over the tables
    returns, it sent exactly one query per table, in the order of the
    request: [SELECT], the columns chosen for that table joined with a
    comma and a space, or [*] when none is chosen, [FROM] and the table
    name.  The rows are the rows of the tables one after another in that
    order, and the count returned with them is their number. *)
Theorem export_queries_each_table_in_order :
  forall (tables : list string) (columns : list (string * list string))
         (w w1 w2 : World D) (c : Client) (results : list Row) (n : nat),
    ensureConnection env w = (true, w1) ->
    client w1 = Some c ->
    fetchTables env tables columns [] 0 w1 = (Returned (results, n), w2) ->
    n = List.length results
    /\ log w2
       = log w1
         ++ map (fun table =>
                   Query c ("SELECT "
                            ++ match getProp columns table with
                               | Some (col :: cols) => JS.join ", " (col :: cols)
                               | _ => "*"
                               end
                            ++ " FROM " ++ table)%string) tables
    /\ exists rowss,
         runQueries env c (map (selectFrom columns) tables) (db w1) = Some (rowss, db w2)
         /\ List.length rowss = List.length tables
         /\ results = concat rowss.
Proof.
  intros tables columns w w1 w2 c results n E Ec F.
  destruct (fetchTables_returned columns c _ _ _ _ _ _ _ Ec F)
    as (rowss & Hrun & Hlen & Hres & Hn & Hw).
  simpl in Hres, Hn. subst results n.
  split; [reflexivity|]. split.
  - rewrite Hw at 1. reflexivity.
  - exists rowss. auto.
Qed.

(** X9.  When the connection is ensured and the loop over the tables
    throws, the export throws that error, the tables after the one where
    it happened are never queried, and nothing was looked for, created
    or written on the disk, so no partial file is left.  It happens at
    one table, after the queries of the tables before it were answered,
    in one of two ways: the store refuses the query of that table, which
    is then the last statement sent; or [columns] has no entry for the
    table and the table is named like a function with parameters that
    every object inherits ([constructor], [hasOwnProperty], ...), and
    then [join] is called on that function, the error is a [TypeError]
    and no query is sent for the table. *)
Theorem export_stops_at_refused_query :
  forall (tables : list string) (columns : list (string * list string))
         (targetFile delimiter : option string)
         (w w1 w2 : World D) (c : Client) (e : Error),
    ensureConnection env w = (true, w1) ->
    client w1 = Some c ->
    fetchTables env tables columns [] 0 w1 = (Thrown e, w2) ->
    clickhouseToFlatFile env tables columns targetFile delimiter w = (Thrown e, w2)
    /\ disk w2 = disk w
    /\ filter isFileEvent (log w2) = filter isFileEvent (log w)
    /\ exists k table,
         nth_error tables k = Some table
         /\ exists rowss dk,
              runQueries env c (map (selectFrom columns) (firstn k tables)) (db w1)
              = Some (rowss, dk)
              /\ ((fst (dbQuery env c (selectFrom columns table) dk) = inl e
                   /\ log w2
                      = log w1
                        ++ map (fun t => Query c (selectFrom columns t))
                             (firstn (S k) tables))
                  \/ (e = "tableColumns.join is not a function"%string
                      /\ getProp columns table = None
                      /\ (exists name m,
                             JS.inherited JS.objectPrototype table
                             = Some (JS.ProtoFunction name (S m)))
                      /\ log w2
                         = log w1
                           ++ map (fun t => Query c (selectFrom columns t))
                                (firstn k tables))).
Proof.
  intros tables columns targetFile delimiter w w1 w2 c e E Ec F.
  split.
  { unfold clickhouseToFlatFile, ensure. cbn [bind]. rewrite E. cbn [negb bind].
    rewrite F. reflexivity. }
  destruct (ensure_keepsDisk env w (Returned true) w1) as [Hd1 Hf1].
  { unfold ensure. rewrite E. reflexivity. }
  destruct (fetchTables_keepsDisk env tables columns [] 0 _ _ _ F) as [Hd2 Hf2].
  split; [congruence|]. split; [congruence|].
  destruct (fetchTables_thrown columns c _ _ _ _ _ _ Ec F)
    as (k & table & Hn & rowss & dk & Hrun & Hcases).
  exists k, table. split; [exact Hn|]. exists rowss, dk. split; [exact Hrun|].
  destruct Hcases as [[Hr Hw]|(He & Hg & Hi & Hw)].
  - left. split; [exact Hr|]. rewrite Hw at 1. reflexivity.
  - right. split; [exact He|]. split; [exact Hg|]. split; [exact Hi|].
    rewrite Hw. reflexivity.
Qed.

End ExportFacts.

(** X8 on the toy server: first the empty table [u] with no column
    chosen, then [t] with its columns [a] and [b] chosen. *)
Lemma export_queries_each_table_in_order_witness :
  exists w2,
    fetchTables Toy.env ["u"; "t"]%string [("t", ["a"; "b"])]%string [] 0 Toy.connected
    = (Returned ([ [("a", JNum 1); ("b", JNum 2)];
                   [("a", JNum 3); ("b", JNum 4); ("c", JNum 5)] ]%string, 2), w2)
    /\ log w2
       = log Toy.connected
         ++ [Query {| boundTo := Toy.good |} "SELECT * FROM u";
             Query {| boundTo := Toy.good |} "SELECT a, b FROM t"].
Proof.
  eexists. split; [reflexivity|].
  refine (let H := export_queries_each_table_in_order Toy.env ["u"; "t"]%string
                     [("t", ["a"; "b"])]%string
                     Toy.connected Toy.connected _ {| boundTo := Toy.good |} _ 2
                     eq_refl eq_refl eq_refl in _).
  destruct H as (_ & Hl & _). exact Hl.
Defined.

(** X9 on the toy server when the second of three tables is unknown,
    and when the second of three tables is named [constructor]. *)
Lemma export_stops_at_refused_query_witness :
  (exists w2,
      clickhouseToFlatFile ToyMore.envMissing ["t"; "missing"; "u"]%string [] None None
        Toy.connected
      = (Thrown "Code: 60. DB::Exception: Unknown table"%string, w2)
      /\ disk w2 = disk Toy.connected
      /\ log w2
         = log Toy.connected
           ++ [Query {| boundTo := Toy.good |} "SELECT * FROM t";
               Query {| boundTo := Toy.good |} "SELECT * FROM missing"])
  /\ (exists w2,
         clickhouseToFlatFile Toy.env ["t"; "constructor"; "u"]%string [] None None
           Toy.connected
         = (Thrown "tableColumns.join is not a function"%string, w2)
         /\ disk w2 = disk Toy.connected
         /\ log w2
            = log Toy.connected ++ [Query {| boundTo := Toy.good |} "SELECT * FROM t"]).
Proof.
  split.
  - eexists.
    refine (let H := export_stops_at_refused_query ToyMore.envMissing
                       ["t"; "missing"; "u"]%string [] None None
                       Toy.connected Toy.connected _ {| boundTo := Toy.good |} _
                       eq_refl eq_refl eq_refl in _).
    destruct H as (H1 & H2 & _). split; [exact H1|]. split; [exact H2|reflexivity].
  - eexists.
    refine (let H := export_stops_at_refused_query Toy.env
                       ["t"; "constructor"; "u"]%string [] None None
                       Toy.connected Toy.connected _ {| boundTo := Toy.good |} _
                       eq_refl eq_refl eq_refl in _).
    destruct H as (H1 & H2 & _). split; [exact H1|]. split; [exact H2|reflexivity].
Defined.

(** ** Export, download, upload and the disk *)

Section DiskFacts.

Context {D : Type} (env : Env D).

Lemma dropWhile_none (p : ascii -> bool) (l : list ascii) :
  Forall (fun c => p c = false) l -> Path.dropWhile p l = l.
Proof. intros H. destruct H as [|c l Hc Hl]; simpl; [|rewrite Hc]; reflexivity. Qed.

Lemma takeWhile_every (p : ascii -> bool) (l : list ascii) :
  Forall (fun c => p c = true) l -> Path.takeWhile p l = l.
Proof.
  induction 1 as [|c l Hc Hl IH]; simpl; [reflexivity|]. rewrite Hc, IH. reflexivity.
Qed.

(** [path.basename] leaves a name without separator as it is. *)
Lemma basename_noSep (s : string) : noSep s -> Path.basename s = s.
Proof.
  intros H. unfold noSep in H. unfold Path.basename.
  apply Forall_rev in H.
  rewrite (dropWhile_none _ _ H).
  rewrite takeWhile_every.
  - rewrite rev_involutive. apply string_of_list_ascii_of_string.
  - eapply Forall_impl; [|exact H]. intros c Hc. simpl. rewrite Hc. reflexivity.
Qed.

Lemma basename_idempotent (name : string) :
  Path.basename (Path.basename name) = Path.basename name.
Proof. apply basename_noSep. exact (basename_no_separator name). Qed.

Lemma fileAt_isFile (k : Disk) (p content : string) :
  fileAt k p = Some content -> isFile k p = true.
Proof.
  unfold fileAt, isFile. induction (files k) as [|[q v] fs IH]; simpl; [discriminate|].
  rewrite (String.eqb_sym p q).
  destruct (String.eqb q p); [reflexivity|exact IH].
Qed.

(** The directory [dir] is there after [ensureDir] when the directory
    above it is there and [dir] is not a file; it is made if need be and
    nothing else changes. *)
Lemma ensureDir_ok (dir : string) (w : World D) :
  isDir (disk w) (Path.dirname dir) = true ->
  isFile (disk w) dir = false ->
  exists w1,
    ensureDir dir w = (Returned tt, w1)
    /\ isDir (disk w1) dir = true
    /\ (forall q, q <> dir -> isDir (disk w1) q = isDir (disk w) q)
    /\ files (disk w1) = files (disk w)
    /\ db w1 = db w /\ client w1 = client w /\ connectionConfig w1 = connectionConfig w.
Proof.
  intros Hp Hf. unfold ensureDir. cbn [bind existsSync]. rewrite Hf, orb_false_r.
  destruct (isDir (disk w) dir) eqn:Hd; cbn [negb].
  - eexists. split; [reflexivity|]. cbn. auto 10.
  - rewrite (mkdirSync_ok dir (emit (ExistsSync dir) w) Hd Hf Hp).
    eexists. split; [reflexivity|].
    cbn [disk emit setDisk dirs files db client connectionConfig].
    split; [unfold isDir; cbn [dirs existsb]; rewrite String.eqb_refl; reflexivity|].
    split; [|auto].
    intros q Hq. unfold isDir. cbn [dirs existsb].
    destruct (String.eqb_spec q dir) as [->|_]; [contradiction|reflexivity].
Qed.


(** A file stored in a directory that is made if it is not there. *)
Lemma stored_in_directory (dir name content : string) (w : World D) :
  Path.dirname (dir ++ "/" ++ name)%string = dir ->
  isDir (disk w) (Path.dirname dir) = true ->
  isFile (disk w) dir = false ->
  isDir (disk w) (dir ++ "/" ++ name)%string = false ->
  (dir ++ "/" ++ name)%string <> dir ->
  exists w1 w',
    ensureDir dir w = (Returned tt, w1)
    /\ writeFile (dir ++ "/" ++ name)%string content w1 = (Returned tt, w')
    /\ isDir (disk w') dir = true
    /\ fileAt (disk w') (dir ++ "/" ++ name)%string = Some content
    /\ (forall q, q <> (dir ++ "/" ++ name)%string ->
                  fileAt (disk w') q = fileAt (disk w) q)
    /\ isDir (disk w') (dir ++ "/" ++ name)%string = false
    /\ db w' = db w /\ client w' = client w /\ connectionConfig w' = connectionConfig w.
Proof.
  intros Hdn Hp Hf Hd Hne.
  destruct (ensureDir_ok dir w Hp Hf) as (w1 & He & Hd1 & Hq1 & Hf1 & Hdb1 & Hc1 & Hk1).
  assert (Hd1' : isDir (disk w1) (dir ++ "/" ++ name)%string = false)
    by (rewrite (Hq1 _ Hne); exact Hd).
  assert (Hp1 : isDir (disk w1) (Path.dirname (dir ++ "/" ++ name)%string) = true)
    by (rewrite Hdn; exact Hd1).
  destruct (writeFile_ok _ content w1 Hd1' Hp1) as (w' & Hw).
  destruct (writeFile_returned _ _ _ _ _ Hw)
    as (_ & _ & Hat & Hother & Hdirs & Hc & Hk & Hdb & _).
  exists w1, w'. split; [exact He|]. split; [exact Hw|].
  split; [unfold isDir in *; rewrite Hdirs; exact Hd1|].
  split; [exact Hat|].
  split; [intros q Hq; rewrite (Hother q Hq); unfold fileAt; rewrite Hf1; reflexivity|].
  split; [unfold isDir in *; rewrite Hdirs; exact Hd1'|].
  repeat split; congruence.
Qed.

Lemma child_not_parent (dir name : string) : (dir ++ "/" ++ name)%string <> dir.
Proof.
  intros H. apply append_cancel in H. discriminate.
Qed.

Lemma writeExport_ensureDir (targetFile : option string) (first : Row)
      (results : list Row) (w : World D) :
  writeExport env targetFile first results w
  = bind (ensureDir (exportsDir env))
      (fun _ => writeRecords (Path.join [exportsDir env; safeFileName targetFile])
                  (headerOf first) results) w.
Proof.
  unfold writeExport, ensureDir. cbn [bind existsSync].
  destruct (negb (isDir (disk w) (exportsDir env) || isFile (disk w) (exportsDir env)));
    reflexivity.
Qed.

(** Where the exports directory, the uploads directory and their entries
    are when [__dirname] is an absolute path in normal form. *)
Lemma directories (R : list string) :
  Forall plain R -> R <> [] -> server_dirname env = absolutePath R ->
  exportsDir env = absolutePath (R ++ ["exports"%string])
  /\ uploadsDir env = absolutePath (R ++ ["uploads"%string])
  /\ Path.dirname (exportsDir env) = server_dirname env
  /\ Path.dirname (uploadsDir env) = server_dirname env
  /\ (forall name, plain name ->
        Path.join [exportsDir env; name] = (exportsDir env ++ "/" ++ name)%string
        /\ Path.dirname (exportsDir env ++ "/" ++ name)%string = exportsDir env
        /\ Path.inside (exportsDir env) (exportsDir env ++ "/" ++ name)%string = true)
  /\ (forall name, plain name ->
        Path.join [uploadsDir env; name] = (uploadsDir env ++ "/" ++ name)%string
        /\ Path.dirname (uploadsDir env ++ "/" ++ name)%string = uploadsDir env
        /\ Path.inside (uploadsDir env) (uploadsDir env ++ "/" ++ name)%string = true).
Proof.
  intros HR HRne Hroot.
  assert (Hsub : forall s, plain s ->
             Path.join [server_dirname env; s] = absolutePath (R ++ [s])
             /\ Path.dirname (absolutePath (R ++ [s])) = server_dirname env
             /\ forall name, plain name ->
                  Path.join [absolutePath (R ++ [s]); name]
                  = (absolutePath (R ++ [s]) ++ "/" ++ name)%string
                  /\ Path.dirname (absolutePath (R ++ [s]) ++ "/" ++ name)%string
                     = absolutePath (R ++ [s])
                  /\ Path.inside (absolutePath (R ++ [s]))
                       (absolutePath (R ++ [s]) ++ "/" ++ name)%string = true).
  { intros s Hs.
    assert (HRs : Forall plain (R ++ [s])).
    { apply Forall_app. split; [exact HR|]. constructor; [exact Hs|constructor]. }
    assert (HRsne : R ++ [s] <> []) by (destruct R; discriminate).
    split; [|split].
    - rewrite Hroot, (join_plain_segment R s HR HRne Hs).
      symmetry. apply absolutePath_snoc. exact HRne.
    - rewrite (absolutePath_snoc R s HRne), Hroot.
      apply dirname_absolute_child; [exact HR|exact HRne|exact (proj1 Hs)|].
      exact (proj1 (proj2 Hs)).
    - intros name Hn. split; [|split].
      + apply join_plain_segment; assumption.
      + apply dirname_absolute_child; [exact HRs|exact HRsne|exact (proj1 Hn)|].
        exact (proj1 (proj2 Hn)).
      + apply inside_child. exact (proj1 (proj2 Hn)). }
  assert (Hu : plain "uploads"%string).
  { repeat split; try discriminate. unfold noSep. simpl. repeat constructor. }
  destruct (Hsub "exports"%string plain_exports) as (He1 & He2 & He3).
  destruct (Hsub "uploads"%string Hu) as (Hu1 & Hu2 & Hu3).
  unfold exportsDir, uploadsDir. rewrite He1, Hu1. auto 10.
Qed.

(** The export when the directory of the server is there, [exports] is
    not a file and the target is a plain name where no directory is. *)
Lemma clickhouseToFlatFile_written :
  forall (R : list string) (tables : list string)
         (columns : list (string * list string))
         (targetFile delimiter : option string)
         (w w1 w2 : World D) (first : Row) (rest : list Row) (n : nat),
    Forall plain R -> R <> [] -> server_dirname env = absolutePath R ->
    ensureConnection env w = (true, w1) ->
    fetchTables env tables columns [] 0 w1 = (Returned (first :: rest, n), w2) ->
    isDir (disk w) (server_dirname env) = true ->
    isFile (disk w) (exportsDir env) = false ->
    plain (safeFileName targetFile) ->
    isDir (disk w) (exportsDir env ++ "/" ++ safeFileName targetFile)%string = false ->
    exists w',
      clickhouseToFlatFile env tables columns targetFile delimiter w
      = (Returned {| recordCount := n;
                     filePath := Some (safeFileName targetFile);
                     message := ("Successfully exported " ++ JS.ofNat n
                                 ++ " records to " ++ safeFileName targetFile)%string |},
         w')
      /\ Path.join [exportsDir env; safeFileName targetFile]
         = (exportsDir env ++ "/" ++ safeFileName targetFile)%string
      /\ Path.inside (exportsDir env)
           (exportsDir env ++ "/" ++ safeFileName targetFile)%string = true
      /\ isDir (disk w') (exportsDir env) = true
      /\ isDir (disk w') (exportsDir env ++ "/" ++ safeFileName targetFile)%string = false
      /\ fileAt (disk w') (exportsDir env ++ "/" ++ safeFileName targetFile)%string
         = Some (CsvWriter.fileContent (headerOf first) (first :: rest))
      /\ (forall q,
             q <> (exportsDir env ++ "/" ++ safeFileName targetFile)%string ->
             fileAt (disk w') q = fileAt (disk w) q)
      /\ db w' = db w2.
Proof.
  intros R tables columns targetFile delimiter w w1 w2 first rest n
         HR HRne Hroot E F Hsrv Hfile Hname Hdir.
  destruct (directories R HR HRne Hroot) as (_ & _ & Hde & _ & Hex & _).
  destruct (Hex _ Hname) as (Hjoin & Hdn & Hin).
  destruct (ensure_keepsDisk env w (Returned true) w1) as [Hd1 _].
  { unfold ensure. rewrite E. reflexivity. }
  destruct (fetchTables_keepsDisk env tables columns [] 0 _ _ _ F) as [Hd2 _].
  assert (Hd : disk w2 = disk w) by congruence.
  rewrite <- Hd in Hsrv, Hfile, Hdir. rewrite <- Hde in Hsrv.
  destruct (stored_in_directory (exportsDir env) (safeFileName targetFile)
              (CsvWriter.fileContent (headerOf first) (first :: rest)) w2
              Hdn Hsrv Hfile Hdir (child_not_parent _ _))
    as (w3 & w' & He & Hw & Hdir' & Hat & Hother & Hnd & Hdb & _).
  exists w'.
  rewrite (clickhouseToFlatFile_fetched env _ _ targetFile delimiter _ _ _ _ _ E F).
  rewrite writeExport_ensureDir. cbn [bind]. rewrite He. unfold writeRecords.
  rewrite Hjoin, Hw.
  split; [reflexivity|]. split; [reflexivity|]. split; [exact Hin|].
  split; [exact Hdir'|]. split; [exact Hnd|]. split; [exact Hat|].
  split; [|exact Hdb].
  intros q Hq. rewrite (Hother q Hq), Hd. reflexivity.
Qed.

(** X10.  With [__dirname] an absolute path in normal form and a
    directory of the disk, [exports] not a file, and the sanitized target
    name a plain name where no directory is: when the connection is
    ensured and the tables return at least one row, the export returns
    the count of the rows and the sanitized name.  The file it wrote is
    the entry of that name in the exports directory, which is there
    afterwards, made by the export if it was not; the file holds exactly
    the content made from the rows, replacing whatever file was there;
    every other file is as it was, and the database is as the queries
    left it. *)
Theorem export_writes_the_file :
  forall (R : list string) (tables : list string)
         (columns : list (string * list string))
         (targetFile delimiter : option string)
         (w w1 w2 : World D) (first : Row) (rest : list Row) (n : nat),
    Forall plain R -> R <> [] -> server_dirname env = absolutePath R ->
    ensureConnection env w = (true, w1) ->
    fetchTables env tables columns [] 0 w1 = (Returned (first :: rest, n), w2) ->
    isDir (disk w) (server_dirname env) = true ->
    isFile (disk w) (exportsDir env) = false ->
    plain (safeFileName targetFile) ->
    isDir (disk w) (exportsDir env ++ "/" ++ safeFileName targetFile)%string = false ->
    exists w',
      clickhouseToFlatFile env tables columns targetFile delimiter w
      = (Returned {| recordCount := n;
                     filePath := Some (safeFileName targetFile);
                     message := ("Successfully exported " ++ JS.ofNat n
                                 ++ " records to " ++ safeFileName targetFile)%string |},
         w')
      /\ Path.join [exportsDir env; safeFileName targetFile]
         = (exportsDir env ++ "/" ++ safeFileName targetFile)%string
      /\ Path.inside (exportsDir env)
           (exportsDir env ++ "/" ++ safeFileName targetFile)%string = true
      /\ isDir (disk w') (exportsDir env) = true
      /\ fileAt (disk w') (exportsDir env ++ "/" ++ safeFileName targetFile)%string
         = Some (CsvWriter.fileContent (headerOf first) (first :: rest))
      /\ (forall q,
             q <> (exportsDir env ++ "/" ++ safeFileName targetFile)%string ->
             fileAt (disk w') q = fileAt (disk w) q)
      /\ db w' = db w2.
Proof.
  intros R tables columns targetFile delimiter w w1 w2 first rest n
         HR HRne Hroot E F Hsrv Hfile Hname Hdir.
  destruct (clickhouseToFlatFile_written R tables columns targetFile delimiter w w1 w2
              first rest n HR HRne Hroot E F Hsrv Hfile Hname Hdir)
    as (w' & Hr & Hj & Hin & Hd & _ & Hat & Hother & Hdb).
  exists w'. auto 10.
Qed.


(** X11.  Under the conditions of X10, the file name a successful export
    returns is the name [/download/:filename] looks for at the very path
    the export wrote.  Asked for that name right after the export, the
    download sends that file, unless it is ignored as a dot file: then
    the file, although it is there, is not served, and the answer is
    404.  That happens when the name starts with a dot, and also, where
    every segment of the path counts, when a segment of [__dirname]
    starts with a dot and is longer than the dot. *)
Theorem export_then_download :
  forall (R : list string) (tables : list string)
         (columns : list (string * list string))
         (targetFile delimiter : option string)
         (w w1 w2 : World D) (first : Row) (rest : list Row) (n : nat),
    Forall plain R -> R <> [] -> server_dirname env = absolutePath R ->
    ensureConnection env w = (true, w1) ->
    fetchTables env tables columns [] 0 w1 = (Returned (first :: rest, n), w2) ->
    isDir (disk w) (server_dirname env) = true ->
    isFile (disk w) (exportsDir env) = false ->
    plain (safeFileName targetFile) ->
    isDir (disk w) (exportsDir env ++ "/" ++ safeFileName targetFile)%string = false ->
    exists w',
      clickhouseToFlatFile env tables columns targetFile delimiter w
      = (Returned {| recordCount := n; filePath := Some (safeFileName targetFile);
                     message := ("Successfully exported " ++ JS.ofNat n
                                 ++ " records to " ++ safeFileName targetFile)%string |},
         w')
      /\ downloadPath env (safeFileName targetFile)
         = (exportsDir env ++ "/" ++ safeFileName targetFile)%string
      /\ fileAt (disk w') (downloadPath env (safeFileName targetFile))
         = Some (CsvWriter.fileContent (headerOf first) (first :: rest))
      /\ fst (download env (safeFileName targetFile) w')
         = if (dotfilesEverySegment env && existsb Path.isDotFile R)
              || Path.isDotFile (safeFileName targetFile)
           then json 404 (ErrorPage "Not Found")
           else json 200 (SendFile (exportsDir env ++ "/" ++ safeFileName targetFile)%string).
Proof.
  intros R tables columns targetFile delimiter w w1 w2 first rest n
         HR HRne Hroot E F Hsrv Hfile Hname Hdir.
  destruct (clickhouseToFlatFile_written R tables columns targetFile delimiter w w1 w2
              first rest n HR HRne Hroot E F Hsrv Hfile Hname Hdir)
    as (w' & Hr & Hj & Hin & Hd & Hnd & Hat & Hother & Hdb).
  exists w'. split; [exact Hr|].
  assert (Hp : downloadPath env (safeFileName targetFile)
               = (exportsDir env ++ "/" ++ safeFileName targetFile)%string).
  { rewrite (downloadPath_join env R HR HRne Hroot).
    unfold safeFileName at 1. rewrite basename_idempotent.
    fold (safeFileName targetFile). exact Hj. }
  split; [exact Hp|]. rewrite Hp. split; [exact Hat|].
  unfold download, existsSync. rewrite Hp.
  rewrite (fileAt_isFile _ _ _ Hat), orb_true_r.
  unfold resDownload. cbn [fst disk emit]. rewrite Hnd.
  destruct (directories R HR HRne Hroot) as (He & _).
  assert (Hdot : Path.containsDotFile (exportsDir env ++ "/" ++ safeFileName targetFile)%string
                 = existsb Path.isDotFile R || Path.isDotFile (safeFileName targetFile)).
  { rewrite He.
    rewrite <- (absolutePath_snoc (R ++ ["exports"%string]) (safeFileName targetFile))
      by (destruct R; discriminate).
    rewrite containsDotFile_absolutePath.
    - rewrite !existsb_app. cbn [existsb]. rewrite !orb_false_r. reflexivity.
    - apply Forall_app. split; [|constructor; [exact (proj1 Hname)|constructor]].
      apply Forall_app. split.
      + eapply Forall_impl; [|exact HR]. intros s H. exact (proj1 H).
      + constructor; [exact (proj1 plain_exports)|constructor].
    - destruct R; discriminate. }
  assert (Hlast : last (Path.segments EmptyString
                          (exportsDir env ++ "/" ++ safeFileName targetFile)%string)
                     EmptyString
                   = safeFileName targetFile).
  { rewrite He.
    rewrite <- (absolutePath_snoc (R ++ ["exports"%string]) (safeFileName targetFile))
      by (destruct R; discriminate).
    apply last_segment_absolutePath; [|exact (proj1 Hname)].
    apply Forall_app. split.
    - eapply Forall_impl; [|exact HR]. intros s H. exact (proj1 H).
    - constructor; [exact (proj1 plain_exports)|constructor]. }
  unfold ignoredAsDotFile. rewrite Hdot, Hlast, (startsWithDot_plain _ Hname).
  destruct (dotfilesEverySegment env), (existsb Path.isDotFile R),
    (Path.isDotFile (safeFileName targetFile)); reflexivity.
Qed.

(** X12.  A request from [flatfile] to [clickhouse] made while the
    connection is ensured is answered with 400 "No file path provided"
    when the file path is absent or empty and with 400 "No target table
    specified" when the file path is given and the target table is
    absent or empty; in both cases nothing follows the connection
    check: no file is read and no statement is sent. *)
Theorem ingest_missing_fields :
  forall (b : IngestBody.t) (w w1 : World D),
    IngestBody.source b = "flatfile"%string ->
    IngestBody.target b = "clickhouse"%string ->
    ensureConnection env w = (true, w1) ->
    (JS.truthy (IngestBody.filePath b) = false ->
     ingest env b w = (json 400 (ErrorBody "No file path provided"), w1))
    /\ (JS.truthy (IngestBody.filePath b) = true ->
        JS.truthy (IngestBody.targetTable b) = false ->
        ingest env b w = (json 400 (ErrorBody "No target table specified"), w1)).
Proof.
  intros b w w1 Hs Ht E. unfold ingest, ensure. rewrite Hs, Ht.
  cbn [String.eqb Ascii.eqb Bool.eqb orb andb bind]. rewrite E. cbn [bind ret negb].
  split.
  - intros ->. reflexivity.
  - intros -> ->. reflexivity.
Qed.

Lemma string_of_uint_digits (d : Decimal.uint) :
  noSep (NilEmpty.string_of_uint d).
Proof.
  unfold noSep. induction d; simpl; constructor; try reflexivity; assumption.
Qed.

(** [String(n)] is a digit followed by digits. *)
Lemma ofNat_digits (n : nat) :
  noSep (JS.ofNat n)
  /\ exists c s, JS.ofNat n = String c s /\ JS.isDigit c = true.
Proof.
  unfold JS.ofNat, NilZero.string_of_uint.
  destruct (Nat.to_uint n) as [|d|d|d|d|d|d|d|d|d|d] eqn:E.
  - split; [unfold noSep; simpl; repeat constructor|].
    exists "0"%char, EmptyString. split; reflexivity.
  - split; [apply string_of_uint_digits|]. simpl. eexists _, _. split; reflexivity.
  - split; [apply string_of_uint_digits|]. simpl. eexists _, _. split; reflexivity.
  - split; [apply string_of_uint_digits|]. simpl. eexists _, _. split; reflexivity.
  - split; [apply string_of_uint_digits|]. simpl. eexists _, _. split; reflexivity.
  - split; [apply string_of_uint_digits|]. simpl. eexists _, _. split; reflexivity.
  - split; [apply string_of_uint_digits|]. simpl. eexists _, _. split; reflexivity.
  - split; [apply string_of_uint_digits|]. simpl. eexists _, _. split; reflexivity.
  - split; [apply string_of_uint_digits|]. simpl. eexists _, _. split; reflexivity.
  - split; [apply string_of_uint_digits|]. simpl. eexists _, _. split; reflexivity.
  - split; [apply string_of_uint_digits|]. simpl. eexists _, _. split; reflexivity.
Qed.

(** The name the upload gives a file is a plain name, and no dot file,
    whatever the original name, as long as that holds no separator. *)
Lemma upload_name_plain (now : nat) (originalname : string) :
  noSep originalname ->
  plain (JS.ofNat now ++ "-" ++ originalname)%string.
Proof.
  intros Ho. destruct (ofNat_digits now) as (Hn & c & s & E & Hc).
  split.
  - unfold noSep in *. rewrite !list_ascii_of_string_append.
    apply Forall_app. split; [exact Hn|]. apply Forall_app. split; [|exact Ho].
    simpl. repeat constructor.
  - rewrite E. simpl.
    repeat split; intros H; inversion H; subst; discriminate.
Qed.

(** X14.  With [__dirname] an absolute path in normal form and a
    directory of the disk, [uploads] not a file, an original name without
    a separator, and no directory where the file is to go: an upload that
    carries a file stores it as the entry of the uploads directory named
    by the time, a dash and the original name, and answers with that
    name, the original name, the path and the size.  The uploads
    directory is there afterwards, made by the upload if it was not; the
    disk holds the content at that path and every other file is as it
    was; the database and the two module variables are not touched.  An
    upload without a file is answered with 400 and changes nothing. *)
Theorem upload_stores_the_file :
  forall (R : list string) (now : nat) (originalname content : string) (w : World D),
    Forall plain R -> R <> [] -> server_dirname env = absolutePath R ->
    isDir (disk w) (server_dirname env) = true ->
    isFile (disk w) (uploadsDir env) = false ->
    noSep originalname ->
    isDir (disk w)
      (uploadsDir env ++ "/" ++ JS.ofNat now ++ "-" ++ originalname)%string = false ->
    (exists w',
        upload env now (Some (originalname, content)) w
        = (json 200
             (UploadOk (JS.ofNat now ++ "-" ++ originalname)%string originalname
                (uploadsDir env ++ "/" ++ JS.ofNat now ++ "-" ++ originalname)%string
                (String.length content)), w')
        /\ Path.inside (uploadsDir env)
             (uploadsDir env ++ "/" ++ JS.ofNat now ++ "-" ++ originalname)%string = true
        /\ isDir (disk w') (uploadsDir env) = true
        /\ fileAt (disk w')
             (uploadsDir env ++ "/" ++ JS.ofNat now ++ "-" ++ originalname)%string
           = Some content
        /\ (forall q,
               q <> (uploadsDir env ++ "/" ++ JS.ofNat now ++ "-" ++ originalname)%string ->
               fileAt (disk w') q = fileAt (disk w) q)
        /\ db w' = db w /\ client w' = client w
        /\ connectionConfig w' = connectionConfig w)
    /\ upload env now None w = (json 400 (ErrorBody "No file uploaded"), w).
Proof.
  intros R now originalname content w HR HRne Hroot Hsrv Hfile Ho Hdir.
  split; [|reflexivity].
  pose proof (upload_name_plain now originalname Ho) as Hname.
  destruct (directories R HR HRne Hroot) as (_ & _ & _ & Hdu & _ & Hup).
  destruct (Hup _ Hname) as (Hjoin & Hdn & Hin).
  rewrite <- Hdu in Hsrv.
  destruct (stored_in_directory (uploadsDir env)
              (JS.ofNat now ++ "-" ++ originalname)%string content w
              Hdn Hsrv Hfile Hdir (child_not_parent _ _))
    as (w1 & w' & He & Hw & Hdir' & Hat & Hother & _ & Hdb & Hc & Hk).
  exists w'. split.
  { unfold upload. rewrite Hjoin. cbn [bind]. unfold uncaught.
    fold (ensureDir (D := D) (uploadsDir env)). rewrite He. rewrite Hw. reflexivity. }
  auto 10.
Qed.

End DiskFacts.

(** ** Escaping of the values of an insert *)

Section EscapeFacts.

Local Open Scope string_scope.

(** X13.  Doubling the single quotes of a value loses nothing and
    leaves no quote alone: two different values never give the same
    escaped text, the escaped text holds exactly twice the quotes of
    the value, and a value without a quote is left as it is. *)
Theorem doubleQuotes_faithful :
  (forall v1 v2 : string, JS.doubleQuotes v1 = JS.doubleQuotes v2 -> v1 = v2)
  /\ (forall v : string, quotes (JS.doubleQuotes v) = 2 * quotes v)
  /\ (forall v : string, quotes v = 0 -> JS.doubleQuotes v = v).
Proof.
  split; [|split].
  - induction v1 as [|c1 v1 IH]; intros [|c2 v2] H; simpl in H.
    + reflexivity.
    + destruct (Ascii.eqb c2 "'"); discriminate.
    + destruct (Ascii.eqb c1 "'"); discriminate.
    + destruct (Ascii.eqb c1 "'") eqn:E1; destruct (Ascii.eqb c2 "'") eqn:E2;
        inversion H; subst.
      * f_equal. apply IH. assumption.
      * rewrite E1 in E2. discriminate.
      * rewrite E2 in E1. discriminate.
      * f_equal. apply IH. assumption.
  - induction v as [|c v IH]; simpl; [reflexivity|].
    destruct (Ascii.eqb c "'") eqn:E; simpl; rewrite ?E; simpl; rewrite IH; lia.
  - induction v as [|c v IH]; simpl; [reflexivity|].
    destruct (Ascii.eqb c "'"); simpl; intros H; [discriminate|].
    rewrite (IH H). reflexivity.
Qed.

End EscapeFacts.

Ltac toy_plain :=
  vm_compute;
  repeat match goal with
         | |- _ /\ _ => split
         | |- Forall _ _ => constructor
         | |- _ = _ => reflexivity
         | |- _ -> False => let H := fresh in intros H; discriminate H
         end.

(** X10 on the toy server: the export of table [t] to [out.csv]; the
    exports directory is made on the way. *)
Lemma export_writes_the_file_witness :
  exists w',
    clickhouseToFlatFile Toy.env ["t"%string] [] (Some "out.csv"%string) None
      Toy.connected
    = (Returned {| recordCount := 2; filePath := Some "out.csv"%string;
                   message := "Successfully exported 2 records to out.csv" |}, w')
    /\ isDir (disk Toy.connected) "/srv/app/exports" = false
    /\ isDir (disk w') "/srv/app/exports" = true
    /\ fileAt (disk w') "/srv/app/exports/out.csv"
       = Some ("a,b" ++ CsvWriter.lf ++ "1,2" ++ CsvWriter.lf ++ "3,4" ++ CsvWriter.lf)%string.
Proof.
  edestruct (export_writes_the_file Toy.env ToyMore.rootSegments ["t"%string] []
               (Some "out.csv"%string) None Toy.connected Toy.connected)
    as (w' & Hr & _ & _ & Hd & Hat & _).
  - toy_plain.
  - discriminate.
  - reflexivity.
  - reflexivity.
  - vm_compute. reflexivity.
  - reflexivity.
  - reflexivity.
  - toy_plain.
  - reflexivity.
  - exists w'. split; [exact Hr|]. split; [reflexivity|]. split; [exact Hd|exact Hat].
Defined.


(** X11 on the toy server: export table [t] to [dir/out.csv], then
    download [out.csv]; and the same with the name [.env]. *)
Lemma export_then_download_witness :
  (exists w',
      clickhouseToFlatFile Toy.env ["t"%string] [] (Some "dir/out.csv"%string) None
        Toy.connected
      = (Returned {| recordCount := 2; filePath := Some "out.csv"%string;
                     message := "Successfully exported 2 records to out.csv" |}, w')
      /\ fst (download Toy.env "out.csv" w')
         = json 200 (SendFile "/srv/app/exports/out.csv"))
  /\ (exists w',
         clickhouseToFlatFile Toy.env ["t"%string] [] (Some ".env"%string) None
           Toy.connected
         = (Returned {| recordCount := 2; filePath := Some ".env"%string;
                        message := "Successfully exported 2 records to .env" |}, w')
         /\ isFile (disk w') "/srv/app/exports/.env" = true
         /\ fst (download Toy.env ".env" w') = json 404 (ErrorPage "Not Found")).
Proof.
  split.
  - edestruct (export_then_download Toy.env ToyMore.rootSegments ["t"%string] []
                 (Some "dir/out.csv"%string) None Toy.connected Toy.connected)
      as (w' & Hr & _ & _ & Hd).
    + toy_plain.
    + discriminate.
    + reflexivity.
    + reflexivity.
    + vm_compute. reflexivity.
    + reflexivity.
    + reflexivity.
    + toy_plain.
    + reflexivity.
    + exists w'. split; [exact Hr|exact Hd].
  - edestruct (export_then_download Toy.env ToyMore.rootSegments ["t"%string] []
                 (Some ".env"%string) None Toy.connected Toy.connected)
      as (w' & Hr & Hp & Hat & Hd).
    + toy_plain.
    + discriminate.
    + reflexivity.
    + reflexivity.
    + vm_compute. reflexivity.
    + reflexivity.
    + reflexivity.
    + toy_plain.
    + reflexivity.
    + exists w'. split; [exact Hr|]. split; [|exact Hd].
      exact (fileAt_isFile _ _ _ Hat).
Defined.

(** X12 on the toy server: a request without a file path. *)
Lemma ingest_missing_fields_witness :
  ingest Toy.env
    {| IngestBody.source := "flatfile"; IngestBody.target := "clickhouse";
       IngestBody.tables := []; IngestBody.columns := [];
       IngestBody.filePath := None; IngestBody.targetFile := None;
       IngestBody.targetTable := Some "t1"%string; IngestBody.delimiter := None |}
    Toy.connected
  = (json 400 (ErrorBody "No file path provided"), Toy.connected).
Proof.
  exact (proj1 (ingest_missing_fields Toy.env
                  {| IngestBody.source := "flatfile"; IngestBody.target := "clickhouse";
                     IngestBody.tables := []; IngestBody.columns := [];
                     IngestBody.filePath := None; IngestBody.targetFile := None;
                     IngestBody.targetTable := Some "t1"%string;
                     IngestBody.delimiter := None |}
                  Toy.connected Toy.connected eq_refl eq_refl eq_refl) eq_refl).
Defined.

(** X14 on a toy server that has no uploads directory yet: the upload
    of [people.csv] makes it. *)
Lemma upload_stores_the_file_witness :
  exists w',
    upload Toy.env 17 (Some ("people.csv", "name,age")%string) ToyMore.blocked
    = (json 200 (UploadOk "17-people.csv" "people.csv"
                   "/srv/app/uploads/17-people.csv" 8), w')
    /\ isDir (disk ToyMore.blocked) "/srv/app/uploads" = false
    /\ isDir (disk w') "/srv/app/uploads" = true
    /\ fileAt (disk w') "/srv/app/uploads/17-people.csv" = Some "name,age"%string.
Proof.
  edestruct (upload_stores_the_file Toy.env ToyMore.rootSegments 17 "people.csv"
               "name,age" ToyMore.blocked) as [(w' & Hu & _ & Hd & Hat & _) _].
  - toy_plain.
  - discriminate.
  - reflexivity.
  - reflexivity.
  - reflexivity.
  - toy_plain.
  - reflexivity.
  - exists w'. split; [exact Hu|]. split; [reflexivity|]. split; [exact Hd|exact Hat].
Defined.

(** ** Which requests write to the disk *)

Section DiskWriters.

Context {D : Type} (env : Env D).

Lemma diskFixed_ret {A : Type} (a : A) : diskFixed (D := D) (ret a).
Proof. intros w r w' H. inversion H; subst. reflexivity. Qed.

Lemma diskFixed_throw {A : Type} (e : Error) : diskFixed (D := D) (A := A) (throw e).
Proof. intros w r w' H. inversion H; subst. reflexivity. Qed.

Lemma diskFixed_bind {A B : Type} (m : M A) (k : A -> M B) :
  diskFixed (D := D) m -> (forall a, diskFixed (k a)) -> diskFixed (bind m k).
Proof.
  intros Hm Hk w r w' H. simpl in H.
  destruct (m w) as [[a|e|e] w1] eqn:E.
  - rewrite (Hk a _ _ _ H). exact (Hm _ _ _ E).
  - inversion H; subst. exact (Hm _ _ _ E).
  - inversion H; subst. exact (Hm _ _ _ E).
Qed.

Lemma diskFixed_of_keepsDisk {A : Type} (m : M A) : keepsDisk (D := D) m -> diskFixed m.
Proof. intros Hm w r w' H. exact (proj1 (Hm _ _ _ H)). Qed.

Lemma clientExec_diskFixed (sql : string) : diskFixed (clientExec env sql).
Proof.
  intros w r w' H. unfold clientExec in H.
  destruct (client w) as [c|].
  - destruct (dbExec env c sql (db w)) as [[e|] d]; inversion H; subst; reflexivity.
  - inversion H; subst; reflexivity.
Qed.

Lemma readRecords_diskFixed (p separator : string) : diskFixed (readRecords env p separator).
Proof.
  intros w r w' H. unfold readRecords in H.
  destruct (parseCsv env separator p (disk w)) as [[e|e]|rows];
    inversion H; subst; reflexivity.
Qed.

Lemma existsSync_diskFixed (p : string) : diskFixed (D := D) (existsSync p).
Proof. intros w r w' H. inversion H; subst; reflexivity. Qed.

Lemma insertRows_diskFixed (targetTable : string) (rows : list CsvRecord) :
  diskFixed (insertRows env targetTable rows).
Proof.
  induction rows as [|row rest IH]; simpl.
  - apply diskFixed_ret.
  - apply diskFixed_bind; [apply clientExec_diskFixed | intro; apply IH].
Qed.

Ltac fixed :=
  repeat
    (intros;
     match goal with
     | |- diskFixed (bind _ _) => apply diskFixed_bind
     | |- diskFixed (ret _) => apply diskFixed_ret
     | |- diskFixed (throw _) => apply diskFixed_throw
     | |- diskFixed (ensure _) => apply diskFixed_of_keepsDisk; apply ensure_keepsDisk
     | |- diskFixed (clientExec _ _) => apply clientExec_diskFixed
     | |- diskFixed (readRecords _ _ _) => apply readRecords_diskFixed
     | |- diskFixed (insertRows _ _ _) => apply insertRows_diskFixed
     | |- diskFixed (if ?b then _ else _) => destruct b
     | |- diskFixed (match ?x with _ => _ end) => destruct x
     end).

Lemma flatFileToClickhouse_diskFixed (path targetTable : string)
      (delimiter : option string) :
  diskFixed (flatFileToClickhouse env path targetTable delimiter).
Proof. unfold flatFileToClickhouse. fixed. Qed.

(** A handler that ensures the connection and sends one query. *)
Ltac query_disk :=
  match goal with
  | |- context [ensureConnection ?e ?w] =>
      let ok := fresh "ok" in
      let w1 := fresh "w1" in
      let E := fresh "E" in
      let Hd := fresh "Hd" in
      destruct (ensureConnection e w) as [ok w1] eqn:E;
      destruct (ensureConnection_effect e w _ _ E) as (_ & Hd & _);
      destruct ok; cbn [negb snd]; [|exact Hd];
      match goal with
      | |- context [clientQuery e ?sql w1] =>
          let Q := fresh "Q" in
          destruct (clientQuery e sql w1) as [[?|?|?] ?] eqn:Q; cbn [snd];
          rewrite (proj1 (clientQuery_keepsDisk e sql _ _ _ Q)); exact Hd
      end
  end.

(** X15.  Only an upload that carries a file and an export can change
    the disk: every other request ([/connect], [/tables], [/columns],
    [/preview], [/download], an upload without a file, an import, and an
    [/ingest] that is rejected) leaves every directory and file as it
    was. *)
Theorem only_upload_and_export_write :
  forall (r : Request) (w : World D),
    writesDisk r = false -> disk (snd (handle env r w)) = disk w.
Proof.
  intros r w Hr. destruct r as [b| |table|table cols|now file|b|filename]; cbn [handle].
  - exact (proj1 (proj2 (connect_effect env b w))).
  - unfold tables. query_disk.
  - unfold columnsOf. query_disk.
  - unfold preview. query_disk.
  - destruct file as [f|]; [discriminate|]. reflexivity.
  - cbn [writesDisk] in Hr. unfold ingest. rewrite Hr.
    match goal with
    | |- disk (snd (match ?m w with _ => _ end)) = _ =>
        assert (Hm : diskFixed m);
        [ fixed; apply flatFileToClickhouse_diskFixed
        | destruct (m w) as [[resp|e|e] w1] eqn:E; cbn [snd]; exact (Hm _ _ _ E) ]
    end.
  - unfold download.
    destruct (existsSync (downloadPath env filename) w) as [[[|]|e|e] w1] eqn:E; cbn [snd];
      exact (existsSync_diskFixed _ _ _ _ E).
Qed.

End DiskWriters.

(** X15 on the toy server: an import leaves the disk as it was. *)
Lemma only_upload_and_export_write_witness :
  disk (snd (ingest Toy.env (Toy.ingestBody "flatfile" "clickhouse" [] None) Toy.connected))
  = disk Toy.connected.
Proof.
  exact (only_upload_and_export_write Toy.env
           (PostIngest (Toy.ingestBody "flatfile" "clickhouse" [] None))
           Toy.connected eq_refl).
Defined.

(** ** The client of the server and the connection form *)

Section ClientFacts.

Context {D : Type} (env : Env D).












(** X17.  [handleConnect] sends nothing to the server when the host,
    the port, the database or the user name is empty.  Otherwise it
    makes one [/connect] request with the fields of the form; the form
    shows connected and reports [true] exactly when the server answered
    200, in which case the server holds a client made from those
    fields; on a refusal the form reports [false], the server holds no
    client, and the form's own flag is left as it was, not cleared. *)
Theorem form_connect_agrees_with_server :
  forall (s : ConfigForm.State) (w : World D),
    (requiredBlank s = true -> ConfigForm.handleConnect env s w = (s, None, w))
    /\ (requiredBlank s = false ->
        snd (ConfigForm.handleConnect env s w)
        = snd (connect env (ConfigForm.configOfState s) w)
        /\ ((status (fst (connect env (ConfigForm.configOfState s) w)) = 200
             /\ fst (ConfigForm.handleConnect env s w)
                = (ConfigForm.settle s true, Some true)
             /\ client (snd (ConfigForm.handleConnect env s w))
                = Some {| boundTo := configOf (ConfigForm.configOfState s) |})
            \/ (status (fst (connect env (ConfigForm.configOfState s) w)) = 500
                /\ fst (ConfigForm.handleConnect env s w)
                   = (ConfigForm.settle s (ConfigForm.internalIsConnected s), Some false)
                /\ client (snd (ConfigForm.handleConnect env s w)) = None))).
Proof.
  intros s w. unfold requiredBlank, ConfigForm.handleConnect. split.
  - intros ->. reflexivity.
  - intros ->. unfold Api.connectToClickHouse.
    pose proof (connect_effect env (ConfigForm.configOfState s) w) as (_ & _ & _ & Hc).
    assert (Hb : forall r, status r = 200 ->
                  fst (connect env (ConfigForm.configOfState s) w) = r ->
                  ConfigForm.success (body r) = true).
    { intros r Hs Hr. subst r. revert Hs. unfold connect. cbn.
      unfold createClient.
      destruct (createClientThrows env (configOf (ConfigForm.configOfState s)));
        cbn; [discriminate|].
      unfold clientQuery. cbn.
      destruct (dbQuery env _ liveness (db w)) as [[e|rows] d]; cbn;
        [discriminate|reflexivity]. }
    destruct (connect env (ConfigForm.configOfState s) w) as [r w'] eqn:E.
    cbn [fst snd] in *.
    destruct Hc as [[Hs Hcl]|[Hs Hcl]].
    + pose proof (Hb r Hs eq_refl) as Hsucc.
      unfold Api.unwrap, Api.ok. rewrite Hs. cbn [Nat.leb andb].
      destruct (body r) eqn:Eb; try discriminate Hsucc.
      cbn [ConfigForm.success fst snd]. split; [reflexivity|].
      left. auto.
    + unfold Api.unwrap, Api.ok. rewrite Hs.
      change (Nat.leb 200 500 && Nat.leb 500 299) with false.
      destruct (body r); cbn [fst snd]; (split; [reflexivity|]); right; auto.
Qed.

End ClientFacts.

(** X17 on the toy server: the form filled with the right password. *)
Lemma form_connect_agrees_with_server_witness :
  fst (ConfigForm.handleConnect Toy.env
         {| ConfigForm.host := "db.local"; ConfigForm.port := "8443";
            ConfigForm.database := "default"; ConfigForm.username := "default";
            ConfigForm.password := "secret";
            ConfigForm.isConnecting := false;
            ConfigForm.internalIsConnected := false |} Toy.start)
  = (ConfigForm.settle
       {| ConfigForm.host := "db.local"; ConfigForm.port := "8443";
          ConfigForm.database := "default"; ConfigForm.username := "default";
          ConfigForm.password := "secret";
          ConfigForm.isConnecting := false;
          ConfigForm.internalIsConnected := false |} true, Some true).
Proof.
  destruct (form_connect_agrees_with_server Toy.env
              {| ConfigForm.host := "db.local"; ConfigForm.port := "8443";
                 ConfigForm.database := "default"; ConfigForm.username := "default";
                 ConfigForm.password := "secret";
                 ConfigForm.isConnecting := false;
                 ConfigForm.internalIsConnected := false |} Toy.start) as [_ H].
  destruct (H eq_refl) as [_ [(_ & Hf & _)|(Hs & _)]].
  - exact Hf.
  - vm_compute in Hs. discriminate.
Defined.

(** ** The page *)

Section PageFacts.

(** X18.  After the source or the target is chosen on the page, the two
    ends differ and one of them is [clickhouse], whatever value was
    chosen; when the value is one of the two kinds the selector offers,
    the pair is one of the two directions [/ingest] accepts. *)
Theorem page_ends_are_complementary :
  forall (value : string) (s : Page.State),
    Page.source (Page.handleSourceChange value s) <> Page.target (Page.handleSourceChange value s)
    /\ Page.source (Page.handleTargetChange value s)
       <> Page.target (Page.handleTargetChange value s)
    /\ touchesStore (Page.source (Page.handleSourceChange value s))
         (Page.target (Page.handleSourceChange value s)) = true
    /\ touchesStore (Page.source (Page.handleTargetChange value s))
         (Page.target (Page.handleTargetChange value s)) = true
    /\ (value = "clickhouse" \/ value = "flatfile" ->
        validPair (Page.source (Page.handleSourceChange value s))
          (Page.target (Page.handleSourceChange value s)) = true
        /\ validPair (Page.source (Page.handleTargetChange value s))
             (Page.target (Page.handleTargetChange value s)) = true).
Proof.
  intros value s. unfold Page.handleSourceChange, Page.handleTargetChange, Page.other.
  cbn [Page.source Page.target Page.withEnds]. unfold touchesStore, validPair.
  destruct (String.eqb_spec value "clickhouse") as [->|Hne].
  - split; [discriminate|]. split; [discriminate|].
    split; [reflexivity|]. split; [reflexivity|].
    intros _. split; reflexivity.
  - split; [congruence|]. split; [congruence|].
    split; [reflexivity|]. split; [reflexivity|].
    intros [H|H]; [contradiction|]. subst. split; reflexivity.
Qed.

Lemma includes_In (arr : list string) (x : string) :
  Page.includes arr x = true <-> In x arr.
Proof.
  unfold Page.includes. rewrite existsb_exists. split.
  - intros (y & Hy & E). apply String.eqb_eq in E. subst. exact Hy.
  - intros H. exists x. split; [exact H|apply String.eqb_refl].
Qed.

Lemma without_In (arr : list string) (x y : string) :
  In y (Page.without arr x) <-> In y arr /\ y <> x.
Proof.
  unfold Page.without. rewrite filter_In. split; intros [H1 H2]; split; auto.
  - apply negb_true_iff, String.eqb_neq in H2. exact H2.
  - apply negb_true_iff, String.eqb_neq. exact H2.
Qed.

Lemma without_absent (arr : list string) (x : string) :
  ~ In x arr -> Page.without arr x = arr.
Proof.
  intros H. unfold Page.without. induction arr as [|y arr IH]; simpl; [reflexivity|].
  destruct (String.eqb_spec y x) as [->|_]; simpl.
  - exfalso. apply H. left. reflexivity.
  - rewrite IH; [reflexivity|]. intros Hin. apply H. right. exact Hin.
Qed.

Lemma getProp_setProp_same {V : Type} (o : list (string * V)) (k : string) (v : V) :
  getProp (Page.setProp o k v) k = Some v.
Proof.
  induction o as [|[k' v'] o IH]; simpl.
  - rewrite String.eqb_refl. reflexivity.
  - destruct (String.eqb k' k) eqn:E; simpl; rewrite E; [reflexivity|exact IH].
Qed.

Lemma getProp_setProp_other {V : Type} (o : list (string * V)) (k q : string) (v : V) :
  q <> k -> getProp (Page.setProp o k v) q = getProp o q.
Proof.
  intros Hne. induction o as [|[k' v'] o IH]; simpl.
  - destruct (String.eqb_spec k q) as [->|_]; [contradiction|reflexivity].
  - destruct (String.eqb_spec k' k) as [->|Hk]; simpl.
    + destruct (String.eqb_spec k q) as [->|_]; [contradiction|reflexivity].
    + rewrite IH. reflexivity.
Qed.

Lemma getProp_deleteProp_other {V : Type} (o : list (string * V)) (k q : string) :
  q <> k -> getProp (deleteProp k o) q = getProp o q.
Proof.
  intros Hne. induction o as [|[k' v'] o IH]; simpl; [reflexivity|].
  destruct (String.eqb_spec k' k) as [->|Hk]; simpl.
  - destruct (String.eqb_spec k q) as [->|_]; [contradiction|exact IH].
  - rewrite IH. reflexivity.
Qed.

Lemma deleteProp_setProp_absent {V : Type} (o : list (string * V)) (k : string) (v : V) :
  getProp o k = None -> deleteProp k (Page.setProp o k v) = o.
Proof.
  induction o as [|[k' v'] o IH]; simpl; intros H.
  - rewrite String.eqb_refl. reflexivity.
  - destruct (String.eqb k' k) eqn:E; [discriminate|].
    simpl. rewrite E. simpl. rewrite (IH H). reflexivity.
Qed.

(** X19.  The selection of the page stays consistent: from a state in
    which every selected table is selected once and has its entry in
    the column selection, selecting or deselecting any table and
    toggling any column of any table lead to such a state again; the
    initial state is one. *)
Theorem page_selection_stays_consistent :
  forall s : Page.State,
    selectionConsistent s ->
    (forall table, selectionConsistent (Page.handleTableSelect table s))
    /\ (forall table column, selectionConsistent (Page.handleColumnSelect table column s)).
Proof.
  intros s [Hnd Hkeys]. split.
  - intros table. unfold Page.handleTableSelect.
    destruct (Page.includes (Page.selectedTables s) table) eqn:E; split; cbn.
    + unfold Page.without. apply NoDup_filter. exact Hnd.
    + intros t Ht. apply without_In in Ht. destruct Ht as [Ht Hne].
      rewrite getProp_deleteProp_other by exact Hne. apply Hkeys. exact Ht.
    + apply NoDup_app; [exact Hnd | repeat constructor; intros [] |].
      intros x Hx [Hx'|[]]. subst x.
      apply includes_In in Hx. congruence.
    + intros t Ht. apply in_app_or in Ht. destruct Ht as [Ht|[Ht|[]]].
      * destruct (String.eqb_spec t table) as [->|Hne].
        -- rewrite getProp_setProp_same. discriminate.
        -- rewrite getProp_setProp_other by exact Hne. apply Hkeys. exact Ht.
      * subst t. rewrite getProp_setProp_same. discriminate.
  - intros table column. unfold Page.handleColumnSelect.
    assert (Hset : forall v, forall t, In t (Page.selectedTables s) ->
                     getProp (Page.setProp (Page.selectedColumns s) table v) t <> None).
    { intros v t Ht. destruct (String.eqb_spec t table) as [->|Hne].
      - rewrite getProp_setProp_same. discriminate.
      - rewrite getProp_setProp_other by exact Hne. apply Hkeys. exact Ht. }
    destruct (getProp (Page.selectedColumns s) table) as [cols|];
      [destruct (Page.includes cols column)|]; split; cbn; auto.
Qed.

(** X20.  Toggling twice undoes itself where it matters.  Selecting a
    table that is not selected and has no entry, and then deselecting
    it, gives back the selection as it was.  Toggling a column that is
    not chosen twice gives back, for every table, the columns the
    server reads from the selection with [columns[table] || []]. *)
Theorem page_toggle_twice :
  forall s : Page.State,
    (forall table,
        ~ In table (Page.selectedTables s) ->
        getProp (Page.selectedColumns s) table = None ->
        Page.handleTableSelect table (Page.handleTableSelect table s) = s)
    /\ (forall table column,
           ~ In column (tableColumns (Page.selectedColumns s) table) ->
           forall t,
             tableColumns
               (Page.selectedColumns
                  (Page.handleColumnSelect table column
                     (Page.handleColumnSelect table column s))) t
             = tableColumns (Page.selectedColumns s) t).
Proof.
  intros s. split.
  - intros table Hin Hnone. unfold Page.handleTableSelect at 2.
    destruct (Page.includes (Page.selectedTables s) table) eqn:E.
    { apply includes_In in E. contradiction. }
    unfold Page.handleTableSelect. cbn [Page.selectedTables Page.withSelection].
    assert (E2 : Page.includes (Page.selectedTables s ++ [table]) table = true).
    { apply includes_In. apply in_or_app. right. left. reflexivity. }
    rewrite E2.
    cbn [Page.selectedTables Page.selectedColumns Page.withSelection].
    rewrite (deleteProp_setProp_absent _ _ _ Hnone).
    unfold Page.without. rewrite filter_app. fold (Page.without (Page.selectedTables s) table).
    rewrite (without_absent _ _ Hin). cbn [filter]. rewrite String.eqb_refl. cbn [negb].
    rewrite app_nil_r. destruct s; reflexivity.
  - intros table column Hin t. unfold tableColumns in Hin.
    assert (Hw : forall cols, ~ In column cols ->
                   Page.includes (cols ++ [column]) column = true
                   /\ Page.without (cols ++ [column]) column = cols).
    { intros cols Hc. split.
      - apply includes_In. apply in_or_app. right. left. reflexivity.
      - unfold Page.without. rewrite filter_app. fold (Page.without cols column).
        rewrite (without_absent _ _ Hc). cbn [filter]. rewrite String.eqb_refl.
        cbn [negb]. apply app_nil_r. }
    unfold Page.handleColumnSelect at 2.
    destruct (getProp (Page.selectedColumns s) table) as [cols|] eqn:G.
    + destruct (Page.includes cols column) eqn:E.
      { apply includes_In in E. contradiction. }
      destruct (Hw cols Hin) as [E2 W].
      unfold Page.handleColumnSelect.
      cbn [Page.selectedColumns Page.selectedTables Page.withSelection].
      rewrite getProp_setProp_same, E2.
      cbn [Page.selectedColumns Page.selectedTables Page.withSelection].
      rewrite W. unfold tableColumns.
      destruct (String.eqb_spec t table) as [->|Hne].
      * rewrite getProp_setProp_same, G. reflexivity.
      * rewrite !getProp_setProp_other by exact Hne. reflexivity.
    + destruct (Hw [] Hin) as [E2 W]. cbn [app] in E2, W.
      unfold Page.handleColumnSelect.
      cbn [Page.selectedColumns Page.selectedTables Page.withSelection].
      rewrite getProp_setProp_same, E2.
      cbn [Page.selectedColumns Page.selectedTables Page.withSelection].
      rewrite W. unfold tableColumns.
      destruct (String.eqb_spec t table) as [->|Hne].
      * rewrite getProp_setProp_same, G. reflexivity.
      * rewrite !getProp_setProp_other by exact Hne. reflexivity.
Qed.

(** X21.  The simulated ingestion of the page: after it is started, the
    first nine firings of the interval show progress 10, 20, ... 90 and
    150 records per ten points of progress; the tenth firing clears the
    interval with progress 100, status "Ingestion completed" and the
    record count of the ninth firing, 1350; later firings change
    nothing.  Whatever the state, one firing never leaves the progress
    above 100. *)
Theorem simulated_ingestion_run :
  forall s : Page.State,
    (forall k, k < 10 ->
               Page.ticks k (Page.handleStartIngestion s)
               = (Page.withRun s "Ingestion in progress..." (10 * k) (150 * k) true, false))
    /\ (forall n, 10 <= n ->
                  Page.ticks n (Page.handleStartIngestion s)
                  = (Page.withRun s "Ingestion completed" 100 1350 false, true))
    /\ Page.progress (fst (Page.tick s)) <= 100.
Proof.
  intros s. split; [|split].
  - intros k Hk. do 10 (destruct k as [|k]; [reflexivity|]). lia.
  - intros n Hn. do 10 (destruct n as [|n]; [lia|]). reflexivity.
  - unfold Page.tick.
    destruct (Nat.leb 100 (Page.progress s + 10)) eqn:E; cbn.
    + lia.
    + apply Nat.leb_gt in E. lia.
Qed.

End PageFacts.

(** X19 at the initial state of the page. *)
Lemma page_selection_stays_consistent_witness :
  selectionConsistent (Page.handleTableSelect "users" Page.initial)
  /\ selectionConsistent (Page.handleColumnSelect "users" "id" Page.initial).
Proof.
  assert (H0 : selectionConsistent Page.initial).
  { split; [constructor|]. intros t []. }
  destruct (page_selection_stays_consistent Page.initial H0) as [H1 H2].
  split; [apply H1|apply H2].
Defined.

(** X20 at the initial state of the page. *)
Lemma page_toggle_twice_witness :
  Page.handleTableSelect "users" (Page.handleTableSelect "users" Page.initial)
  = Page.initial.
Proof.
  apply (proj1 (page_toggle_twice Page.initial)).
  - intros [].
  - reflexivity.
Defined.

(** X21 after five firings. *)
Lemma simulated_ingestion_run_witness :
  Page.ticks 5 (Page.handleStartIngestion Page.initial)
  = (Page.withRun Page.initial "Ingestion in progress..." 50 750 true, false).
Proof.
  apply (proj1 (simulated_ingestion_run Page.initial) 5). lia.
Defined.

(** X18 for the source [flatfile]. *)
Lemma page_ends_are_complementary_witness :
  validPair (Page.source (Page.handleSourceChange "flatfile" Page.initial))
    (Page.target (Page.handleSourceChange "flatfile" Page.initial)) = true.
Proof.
  destruct (page_ends_are_complementary "flatfile" Page.initial) as (_ & _ & _ & _ & H).
  apply H. right. reflexivity.
Defined.

(** ** The other server file *)

Section EarlierFacts.

Context {D : Type} (env : Env D).

(** X22.  In the server file without [ensureConnection], [/ingest]
    looks at the direction first: a pair that is neither of the two
    directions is rejected as an invalid combination and the world is
    exactly as before, with nothing issued, whether or not a side is
    [clickhouse]. *)
Theorem earlier_ingest_rejects_without_io :
  forall (b : IngestBody.t) (w : World D),
    validPair (IngestBody.source b) (IngestBody.target b) = false ->
    ingestEarlier env b w = (invalidCombination, w).
Proof.
  intros b w Hv. unfold validPair in Hv. unfold ingestEarlier.
  destruct (String.eqb (IngestBody.source b) "clickhouse" &&
            String.eqb (IngestBody.target b) "flatfile");
    [discriminate|].
  destruct (String.eqb (IngestBody.source b) "flatfile" &&
            String.eqb (IngestBody.target b) "clickhouse");
    [discriminate|].
  reflexivity.
Qed.

(** X23.  In the server file without [connectionConfig], a [/connect]
    whose client is created leaves that client in [client] whether the
    liveness query succeeds or not; so after a refused connect the
    [!client] guard of [/tables] lets the request through, and
    [SHOW TABLES] is sent with the client of the refused attempt
    instead of the request being answered with 400. *)
Theorem earlier_connect_keeps_client :
  forall (b : ConnectBody.t) (w : World D),
    createClientThrows env (configOf b) = None ->
    client (snd (connectEarlier env b w)) = Some {| boundTo := configOf b |}
    /\ log (snd (tablesEarlier env (snd (connectEarlier env b w))))
       = log (snd (connectEarlier env b w))
         ++ [Query {| boundTo := configOf b |} "SHOW TABLES"]
    /\ status (fst (tablesEarlier env (snd (connectEarlier env b w)))) <> 400.
Proof.
  intros b w Hc.
  assert (H1 : client (snd (connectEarlier env b w)) = Some {| boundTo := configOf b |}).
  { unfold connectEarlier. cbn. unfold createClient. rewrite Hc. cbn.
    unfold clientQuery. cbn.
    destruct (dbQuery env {| boundTo := configOf b |} liveness (db w)) as [[e|rows] d];
      reflexivity. }
  split; [exact H1|].
  unfold tablesEarlier. rewrite H1. unfold clientQuery. rewrite H1.
  destruct (dbQuery env {| boundTo := configOf b |} "SHOW TABLES"
              (db (snd (connectEarlier env b w)))) as [[e|rows] d];
    cbn; split; try reflexivity; discriminate.
Qed.

End EarlierFacts.

Section EarlierPaths.

Local Open Scope string_scope.

Context {D : Type} (env : Env D).

Variable R : list string.
Hypothesis Rplain : Forall plain R.
Hypothesis Rne : R <> [].
Hypothesis Hroot : server_dirname env = absolutePath R.

Lemma noSep_dotdot : noSep "..".
Proof. unfold noSep. simpl. repeat constructor. Qed.

Lemma prefix_app_cancel (a b c : string) :
  String.prefix (a ++ b) (a ++ c) = String.prefix b c.
Proof.
  induction a as [|x a IH]; simpl; [reflexivity|].
  destruct (ascii_dec x x); [exact IH|congruence].
Qed.

Lemma prefix_split (p s : string) :
  String.prefix p s = true -> exists rest, s = p ++ rest.
Proof.
  revert s. induction p as [|c p IH]; intros s H.
  - exists s. reflexivity.
  - destruct s as [|c' s]; simpl in H; [discriminate|].
    destruct (ascii_dec c c') as [->|]; [|discriminate].
    destruct (IH s H) as [rest ->]. exists rest. reflexivity.
Qed.

Lemma noSep_no_slash_prefix (x rest : string) :
  noSep x -> x <> "exports/" ++ rest.
Proof.
  intros Hx ->. unfold noSep in Hx. simpl in Hx.
  do 7 (apply Forall_inv_tail in Hx). apply Forall_inv in Hx. discriminate.
Qed.

(** The path of a target name that climbs out by one segment. *)
Lemma join_exports_climb (x : string) :
  plain x ->
  Path.join [exportsDir env; "../" ++ x] = server_dirname env ++ "/" ++ x.
Proof.
  intros Hx. destruct Hx as (Hns & Hne & H1 & H2).
  unfold Path.join.
  assert (Hd : String.eqb (exportsDir env) EmptyString = false)
    by (rewrite (exportsDir_absolute env R Rplain Rne Hroot); reflexivity).
  cbn [filter]. rewrite Hd. cbn [negb String.eqb append Ascii.eqb Bool.eqb].
  change (JS.join "/" [exportsDir env; String "." (String "." (String "/" x))])
    with (exportsDir env ++ "/" ++ ".." ++ "/" ++ x).
  rewrite (exportsDir_absolute env R Rplain Rne Hroot).
  replace (absolutePath (R ++ ["exports"]) ++ "/" ++ ".." ++ "/" ++ x)
    with ((absolutePath (R ++ ["exports"]) ++ "/" ++ "..") ++ "/" ++ x)
    by (rewrite !append_assoc; reflexivity).
  rewrite <- (absolutePath_snoc (R ++ ["exports"]) "..") by (destruct R; discriminate).
  rewrite <- (absolutePath_snoc ((R ++ ["exports"]) ++ [".."]) x)
    by (destruct R; discriminate).
  rewrite (normalize_rooted ((R ++ ["exports"]) ++ [".."]) x); try assumption.
  - rewrite <- !app_assoc.
    rewrite (app_assoc R ["exports"] ([".."] ++ [x])).
    rewrite (normalizeSegs_plain false _ (exports_segments_plain R Rplain)).
    rewrite app_nil_r, rev_app_distr. cbn [rev app Path.normalizeSegs].
    cbn [String.eqb Ascii.eqb Bool.eqb orb andb].
    apply String.eqb_neq in Hne, H1, H2. rewrite Hne, H1, H2. cbn [orb].
    cbn [rev]. rewrite rev_involutive.
    rewrite (absolutePath_snoc R x Rne), Hroot. reflexivity.
  - apply Forall_app. split.
    + exact (plain_noSep _ (exports_segments_plain R Rplain)).
    + constructor; [exact noSep_dotdot|constructor].
Qed.

(** X24.  In the server file without [path.basename], with [__dirname]
    an absolute path in normal form, a target file name that is [../]
    followed by a plain name [x] makes the export write to [x] in
    [__dirname], outside the exports directory, and the download of
    such a name looks there too. *)
Theorem earlier_target_name_climbs_out :
  forall x : string,
    plain x ->
    exportPathEarlier env (Some ("../" ++ x)) = server_dirname env ++ "/" ++ x
    /\ downloadPathEarlier env ("../" ++ x) = server_dirname env ++ "/" ++ x
    /\ Path.inside (exportsDir env) (server_dirname env ++ "/" ++ x) = false.
Proof.
  intros x Hx. split; [|split].
  - unfold exportPathEarlier. cbn [JS.orElse String.eqb append].
    exact (join_exports_climb x Hx).
  - rewrite <- (join_exports_climb x Hx).
    unfold downloadPathEarlier, Path.join.
    assert (Hd : String.eqb (exportsDir env) EmptyString = false)
      by (rewrite (exportsDir_absolute env R Rplain Rne Hroot); reflexivity).
    cbn [filter]. rewrite Hd, Hroot.
    change (String.eqb (absolutePath R) EmptyString) with false.
    cbn [negb String.eqb append Ascii.eqb Bool.eqb].
    change (JS.join "/" [absolutePath R; "exports"; String "." (String "." (String "/" x))])
      with (absolutePath R ++ "/" ++ "exports" ++ "/" ++ ".." ++ "/" ++ x).
    change (JS.join "/" [exportsDir env; String "." (String "." (String "/" x))])
      with (exportsDir env ++ "/" ++ ".." ++ "/" ++ x).
    rewrite (exportsDir_absolute env R Rplain Rne Hroot).
    rewrite (absolutePath_snoc R "exports" Rne).
    rewrite !append_assoc. reflexivity.
  - unfold Path.inside.
    rewrite (exportsDir_absolute env R Rplain Rne Hroot), Hroot.
    rewrite (absolutePath_snoc R "exports" Rne).
    replace (String.prefix ((absolutePath R ++ "/" ++ "exports") ++ "/")
               (absolutePath R ++ "/" ++ x)) with false; [reflexivity|].
    symmetry.
    replace ((absolutePath R ++ "/" ++ "exports") ++ "/")
      with ((absolutePath R ++ "/") ++ "exports/") by (rewrite !append_assoc; reflexivity).
    replace (absolutePath R ++ "/" ++ x) with ((absolutePath R ++ "/") ++ x)
      by (rewrite !append_assoc; reflexivity).
    rewrite prefix_app_cancel.
    destruct (String.prefix "exports/" x) eqn:E; [|reflexivity].
    destruct (prefix_split _ _ E) as [rest Hrest].
    exfalso. exact (noSep_no_slash_prefix x rest (proj1 Hx) Hrest).
Qed.

End EarlierPaths.

(** X22 on the toy server after a refused connect: nothing is issued. *)
Lemma earlier_ingest_rejects_without_io_witness :
  ingestEarlier Toy.env (Toy.ingestBody "clickhouse" "clickhouse" [] None) Toy.refused
  = (invalidCombination, Toy.refused).
Proof.
  exact (earlier_ingest_rejects_without_io Toy.env
           (Toy.ingestBody "clickhouse" "clickhouse" [] None) Toy.refused eq_refl).
Defined.

(** X23 on the toy server with the wrong password. *)
Lemma earlier_connect_keeps_client_witness :
  client (snd (connectEarlier Toy.env Toy.badBody Toy.start))
  = Some {| boundTo := Toy.bad |}
  /\ status (fst (connectEarlier Toy.env Toy.badBody Toy.start)) = 500.
Proof.
  split.
  - exact (proj1 (earlier_connect_keeps_client Toy.env Toy.badBody Toy.start eq_refl)).
  - reflexivity.
Defined.

(** X24 on the toy server: the target name [../index.js]. *)
Lemma earlier_target_name_climbs_out_witness :
  exportPathEarlier Toy.env (Some "../index.js"%string) = "/srv/app/index.js"%string.
Proof.
  assert (HR : Forall plain ToyMore.rootSegments).
  { repeat constructor; try discriminate. }
  assert (Hx : plain "index.js").
  { repeat constructor; try discriminate. }
  exact (proj1 (earlier_target_name_climbs_out Toy.env ToyMore.rootSegments HR
                  ltac:(discriminate) eq_refl "index.js"%string Hx)).
Defined.

(** X25.  In the server file without [ensureConnection], an import
    requested while no client is set is answered with 500, the message
    being "Not connected to ClickHouse", not with 400; the file is not
    read and nothing is sent. *)
Theorem earlier_import_without_client :
  forall (D : Type) (env : Env D) (b : IngestBody.t) (w : World D),
    IngestBody.source b = "flatfile"%string ->
    IngestBody.target b = "clickhouse"%string ->
    JS.truthy (IngestBody.filePath b) = true ->
    JS.truthy (IngestBody.targetTable b) = true ->
    client w = None ->
    ingestEarlier env b w
    = (json 500 (ErrorMessage "Failed to perform data ingestion"
                   "Not connected to ClickHouse"), w).
Proof.
  intros D env b w Hs Ht Hp Htt Hc. unfold ingestEarlier. rewrite Hs, Ht, Hp, Htt.
  cbn [String.eqb Ascii.eqb Bool.eqb andb negb bind].
  unfold flatFileToClickhouseEarlier. rewrite Hc. reflexivity.
Qed.

(** X25 on the toy server just started. *)
Lemma earlier_import_without_client_witness :
  ingestEarlier Toy.env (Toy.ingestBody "flatfile" "clickhouse" [] None) Toy.start
  = (json 500 (ErrorMessage "Failed to perform data ingestion"
                 "Not connected to ClickHouse"), Toy.start).
Proof.
  exact (earlier_import_without_client Toy.Db Toy.env
           (Toy.ingestBody "flatfile" "clickhouse" [] None) Toy.start
           eq_refl eq_refl eq_refl eq_refl eq_refl).
Defined.

(** ** What the server keeps from request to request *)

Section ServerInvariants.

Context {D : Type} (env : Env D).

(** Any computation made of the server's steps keeps the configuration:
    the steps that keep both variables, and [ensure]. *)
Lemma bind_keeps_config {A B : Type} (m : @M D A) (k : A -> @M D B) :
  (forall w r w', m w = (r, w') -> connectionConfig w' = connectionConfig w) ->
  (forall a w r w', k a w = (r, w') -> connectionConfig w' = connectionConfig w) ->
  forall w r w', bind m k w = (r, w') -> connectionConfig w' = connectionConfig w.
Proof.
  intros Hm Hk w r w' H. simpl in H.
  destruct (m w) as [[a|e|e] w1] eqn:E.
  - rewrite (Hk a _ _ _ H). exact (Hm _ _ _ E).
  - inversion H; subst. exact (Hm _ _ _ E).
  - inversion H; subst. exact (Hm _ _ _ E).
Qed.

Lemma ensure_keeps_config :
  forall w r w', ensure env w = (r, w') -> connectionConfig w' = connectionConfig w.
Proof.
  intros w r w' H. unfold ensure in H.
  destruct (ensureConnection env w) as [ok w1] eqn:E. inversion H; subst.
  exact (proj1 (ensureConnection_effect env w _ _ E)).
Qed.

Lemma uncaught_keeps_config {A : Type} (m : @M D A) :
  (forall w r w', m w = (r, w') -> connectionConfig w' = connectionConfig w) ->
  forall w r w', uncaught m w = (r, w') -> connectionConfig w' = connectionConfig w.
Proof.
  intros Hm w r w' H. unfold uncaught in H.
  destruct (m w) as [[a|e|e] w1] eqn:E; inversion H; subst; exact (Hm _ _ _ E).
Qed.

Ltac config :=
  repeat
    (cbv beta;
     match goal with
     | |- forall w r w', bind _ _ w = (r, w') -> _ =>
         apply bind_keeps_config; [|intro]
     | |- forall w r w', uncaught _ w = (r, w') -> _ => apply uncaught_keeps_config
     | |- forall w r w', ensure _ w = (r, w') -> _ => apply ensure_keeps_config
     | |- forall w r w', (if ?b then _ else _) w = (r, w') -> _ => destruct b
     | |- forall w r w', (match ?x with _ => _ end) w = (r, w') -> _ => destruct x
     | |- forall w r w', ?m w = (r, w') -> connectionConfig w' = connectionConfig w =>
         let Hm := fresh "Hm" in
         assert (Hm : keepsVars m) by
             (first [ apply keepsVars_ret | apply keepsVars_throw
                    | apply clientQuery_keepsVars | apply clientExec_keepsVars
                    | apply existsSync_keepsVars | apply mkdirSync_keepsVars
                    | apply writeFile_keepsVars | apply readRecords_keepsVars
                    | apply fetchTables_keepsVars | apply insertRows_keepsVars ]);
         let w := fresh "w" in
         let r := fresh "r" in
         let w' := fresh "w'" in
         let H := fresh "H" in
         intros w r w' H; exact (proj2 (Hm _ _ _ H))
     end).

Lemma clickhouseToFlatFile_keeps_config
      (tables : list string) (columns : list (string * list string))
      (targetFile delimiter : option string) :
  forall w r w',
    clickhouseToFlatFile env tables columns targetFile delimiter w = (r, w') ->
    connectionConfig w' = connectionConfig w.
Proof. unfold clickhouseToFlatFile, writeRecords. config. Qed.

Lemma flatFileToClickhouse_keeps_config
      (path targetTable : string) (delimiter : option string) :
  forall w r w',
    flatFileToClickhouse env path targetTable delimiter w = (r, w') ->
    connectionConfig w' = connectionConfig w.
Proof. unfold flatFileToClickhouse. config. Qed.

(** A handler that ensures the connection and sends one query. *)
Ltac query_config :=
  match goal with
  | |- context [ensureConnection ?e ?w] =>
      let ok := fresh "ok" in
      let w1 := fresh "w1" in
      let E := fresh "E" in
      let Hk := fresh "Hk" in
      destruct (ensureConnection e w) as [ok w1] eqn:E;
      destruct (ensureConnection_effect e w _ _ E) as (Hk & _);
      destruct ok; cbn [negb snd]; [|exact Hk];
      match goal with
      | |- context [clientQuery e ?sql w1] =>
          let Q := fresh "Q" in
          destruct (clientQuery e sql w1) as [[?|?|?] ?] eqn:Q; cbn [snd];
          rewrite (proj2 (clientQuery_keepsVars e sql _ _ _ Q)); exact Hk
      end
  end.

(** X26.  The stored configuration changes on [/connect] and on
    nothing else: after [/connect] it is the configuration built from
    that request, whether the attempt succeeded or not, and after any
    other request it is what it was.  Hence in every world the server
    can reach, the stored configuration, if there is one, is the one
    built from some [/connect] request, and its URL starts with
    [https://]. *)
Theorem stored_config_is_last_connect :
  (forall (r : Request) (w : World D),
      connectionConfig (snd (handle env r w)) = configAfter r (connectionConfig w))
  /\ (forall (w : World D) (cfg : ConnectionConfig),
         reachable env w -> connectionConfig w = Some cfg ->
         (exists b, cfg = configOf b)
         /\ JS.startsWith (url cfg) "https://" = true).
Proof.
  assert (Hstep : forall (r : Request) (w : World D),
             connectionConfig (snd (handle env r w))
             = configAfter r (connectionConfig w)).
  { intros r w.
    destruct r as [b| |table|table cols|now file|b|filename]; cbn [handle configAfter].
    - exact (proj1 (connect_effect env b w)).
    - unfold tables. query_config.
    - unfold columnsOf. query_config.
    - unfold preview. query_config.
    - unfold upload. destruct file as [[originalname content]|]; [|reflexivity].
      match goal with
      | |- connectionConfig (snd (match ?m w with _ => _ end)) = _ =>
          assert (Hm : forall w r w', m w = (r, w') ->
                                      connectionConfig w' = connectionConfig w)
            by config;
          destruct (m w) as [[resp|e|e] w1] eqn:E; cbn [snd]; exact (Hm _ _ _ E)
      end.
    - unfold ingest.
      match goal with
      | |- connectionConfig (snd (match ?m w with _ => _ end)) = _ =>
          assert (Hm : forall w r w', m w = (r, w') ->
                                      connectionConfig w' = connectionConfig w);
          [ config;
            first [ apply clickhouseToFlatFile_keeps_config
                  | apply flatFileToClickhouse_keeps_config ]
          | destruct (m w) as [[resp|e|e] w1] eqn:E; cbn [snd]; exact (Hm _ _ _ E) ]
      end.
    - unfold download.
      destruct (existsSync (downloadPath env filename) w) as [[[|]|e|e] w1] eqn:E;
        cbn [snd]; exact (proj2 (existsSync_keepsVars _ _ _ _ E)). }
  split; [exact Hstep|].
  intros w cfg Hr. revert cfg.
  induction Hr as [d k|w r Hr IH]; intros cfg Hcfg.
  - discriminate.
  - rewrite Hstep in Hcfg. destruct r; cbn [configAfter] in Hcfg;
      try (exact (IH cfg Hcfg)).
    inversion Hcfg; subst. split; [eexists; reflexivity|].
    apply (startsWith_append "https://").
Qed.

(** X27.  In every world the server can reach, a client that is set was
    created from the configuration that is stored: there is never a
    client without a stored configuration, nor a client bound to
    another configuration than the stored one. *)
Theorem reachable_client_matches_config :
  forall (w : World D) (c : Client),
    reachable env w -> client w = Some c -> connectionConfig w = Some (boundTo c).
Proof.
  intros w c Hr Hc. exact (reachable_invariant env w Hr c Hc).
Qed.

End ServerInvariants.

(** X26 on the toy server after a good and then a refused [/connect]. *)
Lemma stored_config_is_last_connect_witness :
  JS.startsWith (url Toy.bad) "https://" = true.
Proof.
  assert (Hr : reachable Toy.env Toy.refused).
  { apply (reachable_step Toy.env Toy.connected (PostConnect Toy.badBody)).
    apply (reachable_step Toy.env Toy.start (PostConnect Toy.goodBody)).
    apply (reachable_start Toy.env). }
  exact (proj2 (proj2 (stored_config_is_last_connect Toy.env) Toy.refused Toy.bad Hr
                  eq_refl)).
Defined.

(** X27 on the toy server after a successful [/connect]. *)
Lemma reachable_client_matches_config_witness :
  connectionConfig Toy.connected = Some Toy.good.
Proof.
  apply (reachable_client_matches_config Toy.env Toy.connected {| boundTo := Toy.good |}).
  - apply (reachable_step Toy.env Toy.start (PostConnect Toy.goodBody)).
    apply (reachable_start Toy.env).
  - reflexivity.
Defined.
